(** * YOLOv4 detection-head decoding, layer-graph walk and tflite aggregation

    A shallow embedding of [yolov4/tf/model.py] ([YOLOv4Model], [YOLOv3Head],
    [_split_and_get]) and of the reshape/concatenate step of
    [yolov4/tflite/__init__.py] ([YOLOv4.predict]).

    Conventions of the embedding:
    - tensor elements are real numbers ([R]); [exp] is the real exponential
      and [sigmoid] the logistic function, so rounding of the float32
      arithmetic of the tensor engine is not part of the model, except for
      the scale correction of [YOLOv3Head.call], which is also given on
      IEEE 754 binary32 values;
    - a Keras/TensorFlow tensor of rank 4 or 3 is a rectangular nested list
      (batch outermost, channels innermost); its dimensions are read off the
      data, an empty axis giving 0 for the axes below it;
    - a numpy array of the tflite front end is a shape with row-major data;
    - an operation that raises in Python returns [None]. *)

From Stdlib Require Import Reals Lra Lia ZArith SpecFloat.
From stdpp Require Import base tactics option list strings.

Open Scope R_scope.

(** ** Python and list helpers *)

Section ListHelpers.
Context {A : Type}.

(** [l[i]] with Python's negative indices; [None] is IndexError. *)
Definition py_index (l : list A) (i : Z) : option A :=
  if (0 <=? i)%Z then l !! Z.to_nat i
  else if (- Z.of_nat (length l) <=? i)%Z
       then l !! Z.to_nat (Z.of_nat (length l) + i)
       else None.

(** [v[lo:hi]] for in-range bounds [lo <= hi]. *)
Definition py_slice (lo hi : nat) (v : list A) : list A :=
  take (hi - lo) (drop lo v).

(** [count] consecutive rows of [size] elements each ([reshape] cuts a
    list into consecutive pieces of the given sizes). *)
Definition take_chunks (count size : nat) (v : list A) : list (list A) :=
  reshape (replicate count size) v.
End ListHelpers.

(** Broadcasting of one axis: equal lengths are zipped, a length-1 axis is
    stretched, anything else is a shape error. *)
Definition bcast {A B C : Type} (f : A → B → option C)
    (xs : list A) (ys : list B) : option (list C) :=
  if decide (length xs = length ys) then
    mapM (λ p, f p.1 p.2) (zip xs ys)
  else match xs, ys with
       | _, [y] => mapM (λ x, f x y) xs
       | [x], _ => mapM (f x) ys
       | _, _ => None
       end.

(** ** Tensors *)

Abbreviation tensor3 := (list (list (list R))).
Abbreviation tensor4 := (list (list (list (list R)))).

(** A tensor flowing through the layer graph: a feature map or the decoded
    output of a detection head. *)
Inductive tensor : Type :=
| T4 (t : tensor4)
| T3 (t : tensor3).

Definition hd_nil {A : Type} (l : list (list A)) : list A := default [] (head l).

Definition shape3 (t : tensor3) : nat * nat * nat :=
  (length t, length (hd_nil t), length (hd_nil (hd_nil t))).

Definition shape4 (t : tensor4) : nat * nat * nat * nat :=
  (length t, length (hd_nil t), length (hd_nil (hd_nil t)),
   length (hd_nil (hd_nil (hd_nil t)))).

Definition channels3 (t : tensor3) : nat := (shape3 t).2.
Definition channels4 (t : tensor4) : nat := (shape4 t).2.

(** Rectangular tensors of given dimensions. *)
Definition has_shape3 (B N K : nat) (t : tensor3) : Prop :=
  length t = B ∧
  Forall (λ boxes, length boxes = N ∧ Forall (λ v, length v = K) boxes) t.

Definition has_shape4 (B H W C : nat) (t : tensor4) : Prop :=
  length t = B ∧
  Forall (λ img, length img = H ∧
    Forall (λ row, length row = W ∧ Forall (λ v, length v = C) row) img) t.

(** Map over the channel vectors (last axis). *)
Definition map_cells3 (f : list R → list R) (t : tensor3) : tensor3 :=
  (λ boxes : list (list R), f <$> boxes) <$> t.
Definition map_cells4 (f : list R → list R) (t : tensor4) : tensor4 :=
  (λ img : list (list (list R)), (λ row : list (list R), f <$> row) <$> img) <$> t.

(** Element-wise operations. *)
Definition map_elems4 (f : R → R) (t : tensor4) : tensor4 :=
  map_cells4 (λ v : list R, f <$> v) t.

Definition sigmoid (x : R) : R := 1 / (1 + exp (- x)).

(** [tensor * (a, b)]: the pair is broadcast along a last axis of two
    entries. *)
Definition mul_pair (t : tensor4) (p : R * R) : tensor4 :=
  map_cells4 (λ v, zip_with Rmult v [p.1; p.2]) t.

(** ** [tf.split] along the last axis *)

Inductive split_spec : Type :=
| Num (n : Z)                (* an integer: that many equal parts *)
| Sizes (sizes : list Z).    (* explicit sizes, at most one of them -1 *)

Definition sum_known (sizes : list Z) : Z :=
  foldr Z.add 0%Z (filter (λ s, s ≠ (-1)%Z) sizes).

Definition split_sizes (spec : split_spec) (C : nat) : option (list nat) :=
  match spec with
  | Num n =>
      if decide (0 < n)%Z then
        let n := Z.to_nat n in
        if decide (C `mod` n = 0)%nat then Some (replicate n (C `div` n)%nat)
        else None
      else None
  | Sizes sizes =>
      let known := sum_known sizes in
      let holes := length (filter (λ s, s = (-1)%Z) sizes) in
      if decide (Forall (λ s, (-1 ≤ s)%Z) sizes) then
        if decide (holes = 0%nat) then
          if decide (known = Z.of_nat C) then Some (Z.to_nat <$> sizes)
          else None
        else if decide (holes = 1%nat) then
          if decide (known ≤ Z.of_nat C)%Z then
            Some ((λ s, if decide (s = (-1)%Z)
                        then Z.to_nat (Z.of_nat C - known)
                        else Z.to_nat s) <$> sizes)
          else None
        else None
      else None
  end.

(** The [k]-th part of every channel vector. *)
Definition part_of (sizes : list nat) (k : nat) (v : list R) : list R :=
  default [] (reshape sizes v !! k).

Definition tf_split4 (x : tensor4) (spec : split_spec) : option (list tensor4) :=
  sizes ← split_sizes spec (channels4 x);
  Some (imap (λ k _, map_cells4 (part_of sizes k) x) sizes).

Definition tf_split3 (x : tensor3) (spec : split_spec) : option (list tensor3) :=
  sizes ← split_sizes spec (channels3 x);
  Some (imap (λ k _, map_cells3 (part_of sizes k) x) sizes).

Definition tf_split (x : tensor) (spec : split_spec) : option (list tensor) :=
  match x with
  | T4 t => (λ parts : list tensor4, T4 <$> parts) <$> tf_split4 t spec
  | T3 t => (λ parts : list tensor3, T3 <$> parts) <$> tf_split3 t spec
  end.

(** ** [tf.concat] and [tf.reshape] *)

(** [tf.concat(ts, axis=-1)]: all other axes must agree. *)
Definition cat_last (a b : tensor4) : option tensor4 :=
  if decide ((shape4 a).1 = (shape4 b).1)
  then Some (zip_with (zip_with (zip_with app)) a b)
  else None.

Definition tf_concat_last (ts : list tensor4) : option tensor4 :=
  match ts with
  | [] => None
  | t :: rest => foldl (λ acc u, acc ≫= λ a, cat_last a u) (Some t) rest
  end.

(** [tf.concat(ts, axis=1)] on rank 3: batch and last axis must agree. *)
Definition cat_axis1 (a b : tensor3) : option tensor3 :=
  if decide (length a = length b ∧ channels3 a = channels3 b)
  then Some (zip_with app a b)
  else None.

Definition tf_concat_axis1 (ts : list tensor3) : option tensor3 :=
  match ts with
  | [] => None
  | t :: rest => foldl (λ acc u, acc ≫= λ a, cat_axis1 a u) (Some t) rest
  end.

Definition flat4 (t : tensor4) : list R := mjoin (mjoin (mjoin t)).

(** [tf.reshape(t, (-1, N, K))]: the batch size is inferred from the number
    of elements, which [N * K] must divide; it cannot be inferred when
    [N * K = 0]. *)
Definition tf_reshape (t : tensor4) (return_shape : nat * nat) : option tensor3 :=
  let '(N, K) := return_shape in
  let flat := flat4 t in
  if decide (N * K = 0)%nat then None
  else if decide (length flat `mod` (N * K) = 0)%nat then
    let B := (length flat `div` (N * K))%nat in
    Some (take_chunks B N (take_chunks (B * N) K flat))
  else None.

(** ** Configuration ([YOLOConfig])

    The configuration is an ordered dictionary from layer names to option
    dictionaries. Only the keys that [model.py] reads are kept; [groups] is
    the one key whose presence is tested. *)

Record layer_option : Type := {
  opt_type : string;
  opt_count : Z;
  opt_activation : string;
  opt_filters : Z;
  opt_pad : Z;
  opt_size : Z;
  opt_stride : Z;
  opt_layers : list Z;
  opt_groups : option Z;
  opt_group_id : Z;
  opt_from : list Z;
  opt_anchors : list (R * R);
  opt_mask : list Z;
  opt_scale_x_y : R;
  opt_width : Z;
  opt_height : Z;
  opt_decay : R
}.

Abbreviation YOLOConfig := (list (string * layer_option)).

(** [config[name]]; [None] is KeyError. *)
Fixpoint config_get (config : YOLOConfig) (name : string) : option layer_option :=
  match config with
  | [] => None
  | (k, v) :: rest => if decide (k = name) then Some v else config_get rest name
  end.

(** [1 / n] for a Python integer; [None] is ZeroDivisionError. *)
Definition py_inv (n : Z) : option R :=
  if decide (n = 0%Z) then None else Some (1 / IZR n).

(** ** The detection head *)

Module YOLOv3Head.

(** What [build] stores. *)
Record geometry : Type := {
  _grid_coord : list (list (R * R));
  _inver_grid_wh : R * R;
  _return_shape : nat * nat      (* (-1, N, K) without the -1 *)
}.

Record t : Type := {
  name : string;
  _anchors : list (R * R);
  _inver_image_wh : R * R;
  _scale_x_y : R;
  built : option geometry
}.

Definition __init__ (config : YOLOConfig) (name : string) : option t :=
  own ← config_get config name;
  anchors ← mapM (λ mask, py_index (opt_anchors own) mask) (opt_mask own);
  net ← config_get config "net";
  iw ← py_inv (opt_width net);
  ih ← py_inv (opt_height net);
  Some {| name := name;
          _anchors := anchors;
          _inver_image_wh := (iw, ih);
          _scale_x_y := opt_scale_x_y own;
          built := None |}.

Definition set_geometry (h : t) (g : geometry) : t :=
  {| name := name h; _anchors := _anchors h;
     _inver_image_wh := _inver_image_wh h; _scale_x_y := _scale_x_y h;
     built := Some g |}.

(** [x / grid_width, y / grid_height] for every cell; the two inverse
    dimensions are computed after the loops and raise when a dimension
    is 0. *)
Definition build (h : t) (grid_shape : list nat) : option t :=
  match grid_shape with
  | [_; grid_height; grid_width; filters] =>
      let grid_coord :=
        (λ y : nat, (λ x : nat, (INR x / INR grid_width, INR y / INR grid_height))
                      <$> seq 0 grid_width) <$> seq 0 grid_height in
      if decide (grid_width = 0 ∨ grid_height = 0)%nat then None
      else Some (set_geometry h
             {| _grid_coord := grid_coord;
                _inver_grid_wh := (1 / INR grid_width, 1 / INR grid_height);
                _return_shape := ((grid_height * grid_width)%nat,
                                  (filters `div` 3)%nat) |})
  | _ => None
  end.

(** [xy += self._grid_coord]: the grid table of shape [(H, W, 2)]
    broadcasts against [(B, H, W, 2)]. *)
Definition add_grid (xy : tensor4) (grid : list (list (R * R))) : option tensor4 :=
  mapM (λ img : list (list (list R)),
          bcast (bcast (λ (v : list R) (g : R * R),
                          Some (zip_with Rplus v [g.1; g.2]))) img grid) xy.

(** The scale correction of [call]. With [forced = false] this is the code:
    the arithmetic is skipped when the scale is 1. With [forced = true] the
    arithmetic is evaluated whatever the scale; only the comparison of the
    two uses it. The elements are real numbers here, so that the evaluated
    arithmetic is exact; [scale_xy_f32] below is the same step on float32
    elements, where it rounds. *)
Definition scale_xy (forced : bool) (s : R) (xy : tensor4) : tensor4 :=
  if forced then map_elems4 (λ v, (v - 0.5) * s + 0.5) xy
  else if Req_dec_T s 1 then xy
  else map_elems4 (λ v, (v - 0.5) * s + 0.5) xy.

(** One iteration of the loop of [call], given both splits
    ([raw_split] and [sig_split]). *)
Definition decode_anchor (forced : bool) (h : t) (g : geometry)
    (raw_split sig_split : list tensor4) (i : nat) : option tensor3 :=
  sig_i ← sig_split !! i;
  sig_parts ← tf_split4 sig_i (Sizes [2; 2; -1]%Z);
  raw_i ← raw_split !! i;
  raw_parts ← tf_split4 raw_i (Sizes [2; 2; -1]%Z);
  match sig_parts, raw_parts with
  | [xy; _; oc], [_; wh; _] =>
      let wh := map_elems4 exp wh in
      let xy := scale_xy forced (_scale_x_y h) xy in
      let xy := mul_pair xy (_inver_grid_wh g) in
      xy ← add_grid xy (_grid_coord g);
      anchor ← _anchors h !! i;
      let wh := mul_pair (mul_pair wh anchor) (_inver_image_wh h) in
      boxes ← tf_concat_last [xy; wh; oc];
      tf_reshape boxes (_return_shape g)
  | _, _ => None
  end.

(** The body of [call], for either way of doing the scale correction. *)
Definition call_with (forced : bool) (h : t) (x : tensor4) : option tensor3 :=
  raw_split ← tf_split4 x (Num 3);
  let sig := map_elems4 sigmoid x in
  sig_split ← tf_split4 sig (Num 3);
  g ← built h;
  output ← mapM (decode_anchor forced h g raw_split sig_split) (seq 0 3);
  tf_concat_axis1 output.

Definition call (h : t) (x : tensor4) : option tensor3 := call_with false h x.

Definition shape_list (x : tensor4) : list nat :=
  let '(b, h, w, c) := shape4 x in [b; h; w; c].

(** Calling the layer the Keras way: [build] runs on the first call, with
    the shape of that call's input. A head is applied to feature maps. *)
Definition apply (h : t) (x : tensor) : option (t * tensor) :=
  match x with
  | T4 x4 =>
      h' ← match built h with
            | Some _ => Some h
            | None => build h (shape_list x4)
            end;
      out ← call h' x4;
      Some (h', T3 out)
  | T3 _ => None
  end.

End YOLOv3Head.

(** ** The scale correction on float32 elements

    The tensors of [call] hold float32 values. For the statement that
    depends on rounding, lines 206-207 are given here on IEEE 754 binary32
    values as well, with the operations of [SpecFloat]. *)

Module float32.

(** binary32: 24 bits of precision, exponents below 128. *)
Definition prec : Z := 24.
Definition emax : Z := 128.

(** The operations of the tensor engine on one element: each rounds to
    nearest, ties to even. *)
Definition sub : spec_float → spec_float → spec_float := SFsub prec emax.
Definition mul : spec_float → spec_float → spec_float := SFmul prec emax.
Definition add : spec_float → spec_float → spec_float := SFadd prec emax.

(** The float32 value of a Python float (binary64): the conversion that
    an operation between a float32 tensor and a Python float makes. *)
Definition of_float (d : spec_float) : spec_float :=
  match d with
  | S754_finite s m e =>
      binary_normalize prec emax (if s then Z.neg m else Z.pos m) e s
  | _ => d
  end.

End float32.

(** The Python floats [0.5] and [1.0]. *)
Definition float_half : spec_float := S754_finite false 4503599627370496 (-53).
Definition float_one : spec_float := S754_finite false 4503599627370496 (-52).

Abbreviation tensor4_f32 := (list (list (list (list spec_float)))).

(** [(xy - 0.5) * self._scale_x_y + 0.5] on one float32 element. *)
Definition scale_elem_f32 (scale_x_y : spec_float) (v : spec_float) : spec_float :=
  float32.add
    (float32.mul (float32.sub v (float32.of_float float_half))
       (float32.of_float scale_x_y))
    (float32.of_float float_half).

(** An element-wise operation on a float32 tensor of rank 4. *)
Definition map_elems4_f32 (f : spec_float → spec_float) (t : tensor4_f32)
    : tensor4_f32 :=
  (λ img : list (list (list spec_float)),
     (λ row : list (list spec_float),
        (λ v : list spec_float, f <$> v) <$> row) <$> img) <$> t.

(** Lines 206-207 on a float32 tensor [xy], [scale_x_y] being the Python
    float of the head; with [forced = true], the arithmetic is evaluated
    whatever the scale. *)
Definition scale_xy_f32 (forced : bool) (scale_x_y : spec_float)
    (xy : tensor4_f32) : tensor4_f32 :=
  if forced then map_elems4_f32 (scale_elem_f32 scale_x_y) xy
  else if SFeqb scale_x_y float_one then xy
  else map_elems4_f32 (scale_elem_f32 scale_x_y) xy.

(** Lines 206-209 on one float32 element of [xy]: the correction, then
    [xy *= self._inver_grid_wh] and [xy += self._grid_coord], with the
    Python floats that the head holds for the cell. *)
Definition decode_xy_f32 (forced : bool) (scale_x_y inver_grid coord : spec_float)
    (v : spec_float) : spec_float :=
  let v := if forced then scale_elem_f32 scale_x_y v
           else if SFeqb scale_x_y float_one then v
           else scale_elem_f32 scale_x_y v in
  float32.add (float32.mul v (float32.of_float inver_grid))
    (float32.of_float coord).

(** ** Route with groups *)

(** [lambda x: tf.split(x, groups, axis=-1)[group_id]] *)
Definition _split_and_get (groups group_id : Z) : tensor → option tensor :=
  λ x, parts ← tf_split x (Num groups); py_index parts group_id.

(** ** The layer graph *)

Module YOLOv4Model.

Record conv_args : Type := {
  conv_activation : string;
  conv_filters : Z;
  conv_kernel_regularizer : option R;
  conv_name : string;
  conv_pad : Z;
  conv_size : Z;
  conv_stride : Z
}.

(** The callables stored in [_model_layers]. *)
Inductive model_layer : Type :=
| Conv2D (a : conv_args)
| SplitAndGet (groups group_id : Z)
| Identity
| Concatenate (name : string)
| Add (name : string)
| MaxPooling2D (name : string) (size stride : Z)
| UpSampling2D (name : string)
| Head (h : YOLOv3Head.t).

(** What a layer is called on: one tensor or a list of tensors. *)
Inductive arg : Type :=
| One (x : tensor)
| Many (xs : list tensor).

Record t : Type := {
  _model_config : YOLOConfig;
  _model_layers : list model_layer
}.

(** One iteration of the loop of [__init__]: the layers built so far and
    the running regulariser [_l2]. Only [YOLOv3Head] and the lookup of
    [config["net"]] can fail here: the constructors of [YOLOConv2D], of the
    Keras layers and of the regulariser are taken to return, so that a
    result [Some] stands for a construction during which they did. *)
Definition init_step (config : YOLOConfig)
    (acc : list model_layer * option R) (item : string * layer_option)
    : option (list model_layer * option R) :=
  let '(layers, _l2) := acc in
  let '(layer_name, layer_option) := item in
  let ty := opt_type layer_option in
  if decide (ty = "convolutional") then
    Some (layers ++ [Conv2D {|
            conv_activation := opt_activation layer_option;
            conv_filters := opt_filters layer_option;
            conv_kernel_regularizer := _l2;
            conv_name := layer_name;
            conv_pad := opt_pad layer_option;
            conv_size := opt_size layer_option;
            conv_stride := opt_stride layer_option |}], _l2)
  else if decide (ty = "route") then
    match opt_groups layer_option with
    | Some groups =>
        Some (layers ++ [SplitAndGet groups (opt_group_id layer_option)], _l2)
    | None =>
        if decide (length (opt_layers layer_option) = 1)%nat
        then Some (layers ++ [Identity], _l2)
        else Some (layers ++ [Concatenate layer_name], _l2)
    end
  else if decide (ty = "shortcut") then
    Some (layers ++ [Add layer_name], _l2)
  else if decide (ty = "maxpool") then
    Some (layers ++ [MaxPooling2D layer_name (opt_size layer_option)
                       (opt_stride layer_option)], _l2)
  else if decide (ty = "upsample") then
    Some (layers ++ [UpSampling2D layer_name], _l2)
  else if decide (ty = "yolo") then
    h ← YOLOv3Head.__init__ config layer_name;
    Some (layers ++ [Head h], _l2)
  else if decide (ty = "net") then
    net ← config_get config "net";
    Some (layers, Some (opt_decay net))
  else Some (layers, _l2).

Fixpoint init_loop (config : YOLOConfig) (items : YOLOConfig)
    (acc : list model_layer * option R) : option (list model_layer * option R) :=
  match items with
  | [] => Some acc
  | item :: rest => acc' ← init_step config acc item; init_loop config rest acc'
  end.

Definition __init__ (config : YOLOConfig) : option t :=
  acc ← init_loop config config ([], None);
  Some {| _model_config := config; _model_layers := acc.1 |}.

Section Graph.
(** The layers of the tensor library and [YOLOConv2D] are parameters of
    the walk. *)
Variable YOLOConv2D : conv_args → arg → option tensor.
Variable keras_Concatenate : string → arg → option tensor.
Variable keras_Add : string → arg → option tensor.
Variable keras_MaxPooling2D : string → Z → Z → arg → option tensor.
Variable keras_UpSampling2D : string → arg → option tensor.

(** [layer_function(a)]: the result and the layer after the call. Of the
    state of a layer only the geometry of a head is kept track of (a head
    is built by its first call); the layers of the tensor library and
    [YOLOConv2D] are functions of their argument here, whatever they hold.
    [_split_and_get], [lambda x: x] and a head are called on one tensor
    whenever [count] indexes the layer built from the same entry; on a list
    they are given [None] here. *)
Definition apply_layer (f : model_layer) (a : arg)
    : option (model_layer * tensor) :=
  match f with
  | Conv2D c => y ← YOLOConv2D c a; Some (f, y)
  | SplitAndGet groups group_id =>
      match a with
      | One x => y ← _split_and_get groups group_id x; Some (f, y)
      | Many _ => None
      end
  | Identity =>
      match a with
      | One x => Some (f, x)
      | Many _ => None
      end
  | Concatenate n => y ← keras_Concatenate n a; Some (f, y)
  | Add n => y ← keras_Add n a; Some (f, y)
  | MaxPooling2D n size stride =>
      y ← keras_MaxPooling2D n size stride a; Some (f, y)
  | UpSampling2D n => y ← keras_UpSampling2D n a; Some (f, y)
  | Head h =>
      match a with
      | One x => r ← YOLOv3Head.apply h x; Some (Head r.1, r.2)
      | Many _ => None
      end
  end.

Record state : Type := {
  st_layers : list model_layer;
  st_output : list tensor;
  st_return_val : list tensor
}.

(** Position of [l[i]] in a list of length [n]. *)
Definition py_pos (n : nat) (i : Z) : option nat :=
  if decide (0 ≤ i < Z.of_nat n)%Z then Some (Z.to_nat i)
  else if decide (- Z.of_nat n ≤ i < 0)%Z then Some (Z.to_nat (Z.of_nat n + i))
  else None.

(** Call the layer at [pos] on [a] and append the result to [output]. *)
Definition run_layer (st : state) (pos : nat) (a : arg) : option state :=
  layer_function ← st_layers st !! pos;
  r ← apply_layer layer_function a;
  Some {| st_layers := <[pos := r.1]> (st_layers st);
          st_output := st_output st ++ [r.2];
          st_return_val := st_return_val st |}.

(** One iteration of the loop of [call]. *)
Definition call_step (x : tensor) (st : state) (layer_option : layer_option)
    : option state :=
  let layer_number := opt_count layer_option in
  if decide (layer_number = -1)%Z then Some st
  else
    pos ← py_pos (length (st_layers st)) layer_number;
    let output := st_output st in
    if decide (opt_type layer_option = "route") then
      match opt_groups layer_option with
      | Some _ =>
          index ← opt_layers layer_option !! 0%nat;
          src ← py_index output index;
          run_layer st pos (One src)
      | None =>
          if decide (length (opt_layers layer_option) = 1)%nat then
            index ← opt_layers layer_option !! 0%nat;
            src ← py_index output index;
            run_layer st pos (One src)
          else
            srcs ← mapM (py_index output) (opt_layers layer_option);
            run_layer st pos (Many srcs)
      end
    else if decide (opt_type layer_option = "shortcut") then
      prev ← py_index output (layer_number - 1);
      srcs ← mapM (py_index output) (opt_from layer_option);
      run_layer st pos (Many (prev :: srcs))
    else
      st' ← (if decide (layer_number = 0)%Z then run_layer st pos (One x)
             else prev ← py_index output (layer_number - 1);
                  run_layer st pos (One prev));
      if decide (opt_type layer_option = "yolo") then
        out ← py_index (st_output st') layer_number;
        Some {| st_layers := st_layers st';
                st_output := st_output st';
                st_return_val := st_return_val st' ++ [out] |}
      else Some st'.

Fixpoint call_loop (x : tensor) (options : list layer_option) (st : state)
    : option state :=
  match options with
  | [] => Some st
  | layer_option :: rest =>
      st' ← call_step x st layer_option; call_loop x rest st'
  end.

(** [call]: the returned list and the model after the call. *)
Definition call (m : t) (x : tensor) : option (t * list tensor) :=
  st ← call_loop x (snd <$> _model_config m)
         {| st_layers := _model_layers m; st_output := [];
            st_return_val := [] |};
  Some ({| _model_config := _model_config m;
           _model_layers := st_layers st |}, st_return_val st).
End Graph.

End YOLOv4Model.

(** ** The tflite front end: reshape and concatenate of [YOLOv4.predict] *)

Module tflite.

(** A numpy array: its shape and its elements in row-major order. *)
Record ndarray : Type := {
  shape : list nat;
  data : list R
}.

Definition numel (shape : list nat) : nat := foldr Nat.mul 1%nat shape.

Definition wf (a : ndarray) : Prop := length (data a) = numel (shape a).

(** [a[0]] *)
Definition first (a : ndarray) : option ndarray :=
  match shape a with
  | b :: rest =>
      if decide (b = 0)%nat then None
      else Some {| shape := rest; data := take (numel rest) (data a) |}
  | [] => None
  end.

(** [np.reshape(a, (1, n, -1))]: the last dimension is inferred, which
    needs [n] to be nonzero and to divide the number of elements. *)
Definition np_reshape (a : ndarray) (n : nat) : option ndarray :=
  let total := length (data a) in
  if decide (n = 0)%nat then None
  else if decide (total `mod` n = 0)%nat
       then Some {| shape := [1; n; total `div` n]%nat; data := data a |}
       else None.

(** Rows [b, :, :] of a rank-3 array. *)
Definition slab (b : nat) (a : ndarray) : list R :=
  match shape a with
  | [_; n; k] => take (n * k) (drop (b * (n * k)) (data a))
  | _ => []
  end.

(** [np.concatenate(arrays, axis=1)] on the rank-3 arrays that [predict]
    builds: the first and last dimensions must agree. *)
Definition np_concatenate (arrays : list ndarray) : option ndarray :=
  match arrays with
  | [] => None
  | a0 :: _ =>
      match shape a0 with
      | [b; _; k] =>
          if decide (Forall (λ a, length (shape a) = 3%nat ∧
                                 shape a !! 0%nat = Some b ∧
                                 shape a !! 2%nat = Some k) arrays) then
            Some {| shape := [b; sum_list ((λ a, default 0%nat (shape a !! 1%nat))
                                            <$> arrays); k];
                    data := mjoin ((λ i, mjoin (slab i <$> arrays)) <$> seq 0 b) |}
          else None
      | _ => None
      end
  end.

(** The body of the loop over [candidates]. *)
Definition reshape_candidate (candidate : ndarray) : option ndarray :=
  grid_size ← shape candidate !! 1%nat;
  c0 ← first candidate;
  np_reshape c0 (grid_size * grid_size * 3).

(** From the list of output tensors to [candidates]. *)
Definition predict_candidates (candidates : list ndarray) : option ndarray :=
  _candidates ← mapM reshape_candidate candidates;
  np_concatenate _candidates.

End tflite.

(** [candidates[0]] of [predict]: once the outputs are concatenated, the
    array that is handed to [candidates_to_pred_bboxes]. *)
Definition predict_boxes (candidates : list tflite.ndarray)
    : option tflite.ndarray :=
  r ← tflite.predict_candidates candidates; tflite.first r.

(** * Specification

    The definitions that the statements below are written with: the tables
    and formulas that the code is compared to, and the configurations and
    tensors of the examples. *)

Import YOLOv3Head.
Import tflite.

(** ** Variants of [call] that the code is compared to *)

(** [call] with the correction branch always evaluated. *)
Definition call_forced_scale (h : t) (x : tensor4) : option tensor3 :=
  call_with true h x.

(** A float32 value of about [2.06e-9], the size of the sigmoid of [-20]:
    [9282611 * 2^-52]. *)
Definition sigmoid_small_f32 : spec_float := S754_finite false 9282611 (-52).

(** A variant with a single split of the raw tensor: each part is
    activated after it has been split off. One iteration of its loop, then
    the variant. *)
Definition decode_anchor_single (h : t) (g : geometry)
    (raw_split : list tensor4) (i : nat) : option tensor3 :=
  raw_i ← raw_split !! i;
  parts ← tf_split4 raw_i (Sizes [2; 2; -1]%Z);
  match parts with
  | [xy; wh; oc] =>
      let xy := map_elems4 sigmoid xy in
      let oc := map_elems4 sigmoid oc in
      let wh := map_elems4 exp wh in
      let xy := scale_xy false (_scale_x_y h) xy in
      let xy := mul_pair xy (_inver_grid_wh g) in
      xy ← add_grid xy (_grid_coord g);
      anchor ← _anchors h !! i;
      let wh := mul_pair (mul_pair wh anchor) (_inver_image_wh h) in
      boxes ← tf_concat_last [xy; wh; oc];
      tf_reshape boxes (_return_shape g)
  | _ => None
  end.

Definition call_single_split (h : t) (x : tensor4) : option tensor3 :=
  raw_split ← tf_split4 x (Num 3);
  g ← built h;
  output ← mapM (decode_anchor_single h g raw_split) (seq 0 3);
  tf_concat_axis1 output.

(** ** The decoded output, cell by cell *)

(** The cell-wise map that also sees the row and column of the cell. *)
Definition imap_cells (f : nat → nat → list R → list R) (t : tensor4) : tensor4 :=
  (λ img : list (list (list R)),
     imap (λ y (row : list (list R)), imap (λ cx v, f y cx v) row) img) <$> t.

(** The coordinate table of a grid of [H] rows and [W] columns. *)
Definition grid_table (H W : nat) : list (list (R * R)) :=
  (λ y : nat, (λ x : nat, (INR x / INR W, INR y / INR H)) <$> seq 0 W) <$> seq 0 H.

(** The scale correction on one element, as [scale_xy] does it on a
    tensor. *)
Definition scale_fn (forced : bool) (s : R) : R → R :=
  if forced then λ v, (v - 0.5) * s + 0.5
  else if Req_dec_T s 1 then λ v, v else λ v, (v - 0.5) * s + 0.5.

(** The geometry that [build] stores for an input of shape [(_, H, W, F)]. *)
Definition geometry_of (H W F : nat) : geometry :=
  {| _grid_coord := grid_table H W;
     _inver_grid_wh := (1 / INR W, 1 / INR H);
     _return_shape := ((H * W)%nat, (F `div` 3)%nat) |}.

(** What one pass of the loop computes in a cell, before any
    simplification: [v] is the channel vector of the cell, [i] the anchor
    slot. *)
Definition cell_raw (forced : bool) (h : t) (H W K : nat) (a : R * R)
    (i y cx : nat) (v : list R) : list R :=
  let sizes3 := [K; K; K] in
  let sizes := [2; 2; K - 4]%nat in
  (zip_with Rplus
     (zip_with Rmult
        (scale_fn forced (_scale_x_y h)
           <$> part_of sizes 0 (part_of sizes3 i (sigmoid <$> v)))
        [1 / INR W; 1 / INR H])
     [INR cx / INR W; INR y / INR H]
   ++ zip_with Rmult
        (zip_with Rmult (exp <$> part_of sizes 1 (part_of sizes3 i v)) [a.1; a.2])
        [(_inver_image_wh h).1; (_inver_image_wh h).2])
  ++ part_of sizes 2 (part_of sizes3 i (sigmoid <$> v)).

(** The boxes of one image for anchor slot [i], row after row. *)
Definition boxes_of (forced : bool) (h : t) (H W K : nat) (a : R * R)
    (i : nat) (img : list (list (list R))) : list (list R) :=
  mjoin (imap (λ y (row : list (list R)),
           imap (λ cx v, cell_raw forced h H W K a i y cx v) row) img).

(** The decoded box of one cell and one anchor slot, from the [K] raw
    channels [c] of that slot: [sc] is the scale correction, [a] the anchor,
    [iwh] the inverse image size. *)
Definition decoded_box (sc : R → R) (H W : nat) (a iwh : R * R)
    (y cx : nat) (c : list R) : list R :=
  match c with
  | rx :: ry :: rw :: rh :: rest =>
      [sc (sigmoid rx) * (1 / INR W) + INR cx / INR W;
       sc (sigmoid ry) * (1 / INR H) + INR y / INR H;
       exp rw * a.1 * iwh.1;
       exp rh * a.2 * iwh.2] ++ (sigmoid <$> rest)
  | _ => []
  end.

(** Box [n] of image [b], and the channel vector of cell [(y, cx)] of image
    [b]. *)
Definition box_at (out : tensor3) (b n : nat) : option (list R) :=
  boxes ← out !! b; boxes !! n.

Definition cell_at (x : tensor4) (b y cx : nat) : option (list R) :=
  img ← x !! b; row ← img !! y; row !! cx.

(** ** Example configurations and tensors *)

(** Option dictionaries: a layer of a given type, the [net] entry, a [yolo]
    entry. *)
Definition mk_option (type : string) (count : Z) : layer_option :=
  {| opt_type := type; opt_count := count; opt_activation := "linear";
     opt_filters := 0; opt_pad := 0; opt_size := 1; opt_stride := 1;
     opt_layers := []; opt_groups := None; opt_group_id := 0; opt_from := [];
     opt_anchors := []; opt_mask := []; opt_scale_x_y := 1;
     opt_width := 0; opt_height := 0; opt_decay := 0 |}.

Definition net_option (width height : Z) : layer_option :=
  {| opt_type := "net"; opt_count := -1; opt_activation := "linear";
     opt_filters := 0; opt_pad := 0; opt_size := 1; opt_stride := 1;
     opt_layers := []; opt_groups := None; opt_group_id := 0; opt_from := [];
     opt_anchors := []; opt_mask := []; opt_scale_x_y := 1;
     opt_width := width; opt_height := height; opt_decay := 0.0005 |}.

Definition yolo_option (count : Z) (anchors : list (R * R)) (mask : list Z)
    (scale_x_y : R) : layer_option :=
  {| opt_type := "yolo"; opt_count := count; opt_activation := "linear";
     opt_filters := 0; opt_pad := 0; opt_size := 1; opt_stride := 1;
     opt_layers := []; opt_groups := None; opt_group_id := 0; opt_from := [];
     opt_anchors := anchors; opt_mask := mask; opt_scale_x_y := scale_x_y;
     opt_width := 0; opt_height := 0; opt_decay := 0 |}.

(** A 416x416 network with one detection head. *)
Definition anchors_416 : list (R * R) := [(10, 13); (16, 30); (33, 23)].

Definition config_416 : YOLOConfig :=
  [("net", net_option 416 416); ("yolo_0", yolo_option 0 anchors_416 [0; 1; 2]%Z 1)].

Definition head_416 : YOLOv3Head.t :=
  {| name := "yolo_0"; _anchors := anchors_416;
     _inver_image_wh := (1 / 416, 1 / 416); _scale_x_y := 1; built := None |}.

(** A raw tensor of shape [(1, 2, 2, 255)]. *)
Definition raw_2x2 : tensor4 := [replicate 2 (replicate 2 (replicate 255 0))].

(** That head after [build] on a 2x2 grid with 255 channels. *)
Definition head_416_built : YOLOv3Head.t :=
  set_geometry head_416 (geometry_of 2 2 255).

(** A [route] entry. *)
Definition route_option (count : Z) (layers : list Z) (groups : option Z)
    (group_id : Z) : layer_option :=
  {| opt_type := "route"; opt_count := count; opt_activation := "linear";
     opt_filters := 0; opt_pad := 0; opt_size := 1; opt_stride := 1;
     opt_layers := layers; opt_groups := groups; opt_group_id := group_id;
     opt_from := []; opt_anchors := []; opt_mask := []; opt_scale_x_y := 1;
     opt_width := 0; opt_height := 0; opt_decay := 0 |}.

(** A feature map of shape [(1, 1, 1, 4)]. *)
Definition feature_4 : tensor4 := [[[[1; 2; 3; 4]]]].

(** A head configuration whose mask selects four anchors. *)
Definition config_mask4 : YOLOConfig :=
  [("net", net_option 416 416);
   ("yolo_0", yolo_option 0 [(10, 13); (16, 30); (33, 23); (30, 61)]
                [0; 1; 2; 3]%Z 1)].

Definition head_mask4 : YOLOv3Head.t :=
  {| name := "yolo_0";
     _anchors := [(10, 13); (16, 30); (33, 23); (30, 61)];
     _inver_image_wh := (1 / 416, 1 / 416); _scale_x_y := 1; built := None |}.

(** ** Arrays of the tflite front end *)

(** The boxes of the first image of a rank-3 array. *)
Definition boxes (a : ndarray) : list (list R) :=
  match shape a with
  | [_; n; k] => take_chunks n k (data a)
  | _ => []
  end.

(** Number of rows (axis 1) of an array. *)
Definition rows (a : ndarray) : nat := default 0%nat (shape a !! 1%nat).

(** The elements of [a[0]]. *)
Definition first_data (a : ndarray) : list R :=
  take (numel (tail (shape a))) (data a).

(** An output of a non-square grid: 2 rows of 3 cells, 3 values per cell. *)
Definition candidate_2x3 : ndarray :=
  {| shape := [1; 2; 3; 3]%nat; data := replicate 18 0 |}.

(** An array of shape [(1, n, k)]. *)
Definition is_head_output (k : nat) (a : ndarray) : Prop :=
  wf a ∧ shape a = [1; rows a; k]%nat.

(** A square-grid output: shape [(B, g, g, ...)] with [3 * k] values per
    cell. *)
Definition is_square_output (k : nat) (c : ndarray) : Prop :=
  wf c ∧ ∃ B g rest,
    shape c = B :: g :: rest ∧ numel rest = (g * (3 * k))%nat
    ∧ (1 ≤ B)%nat ∧ (1 ≤ g)%nat.

(** ** The layer graph *)

(** [layer_option] with another list of source layers. *)
Definition with_layers (lo : layer_option) (layers : list Z) : layer_option :=
  {| opt_type := opt_type lo; opt_count := opt_count lo;
     opt_activation := opt_activation lo; opt_filters := opt_filters lo;
     opt_pad := opt_pad lo; opt_size := opt_size lo; opt_stride := opt_stride lo;
     opt_layers := layers; opt_groups := opt_groups lo;
     opt_group_id := opt_group_id lo; opt_from := opt_from lo;
     opt_anchors := opt_anchors lo; opt_mask := opt_mask lo;
     opt_scale_x_y := opt_scale_x_y lo; opt_width := opt_width lo;
     opt_height := opt_height lo; opt_decay := opt_decay lo |}.

(** Two entries that are equal, or two grouped routes that differ at most
    in the source layers listed after the first one. *)
Definition route_variant (a b : layer_option) : Prop :=
  a = b
  ∨ (opt_type a = "route" ∧ is_Some (opt_groups a)
     ∧ with_layers a [] = with_layers b []
     ∧ opt_layers a !! 0%nat = opt_layers b !! 0%nat).

(** Stand-ins for the layers of the tensor library, for the examples: a
    layer called on one tensor returns it, a merge layer returns the first
    tensor of its list. *)
Definition pass_one (a : YOLOv4Model.arg) : option tensor :=
  match a with YOLOv4Model.One x => Some x | YOLOv4Model.Many _ => None end.

Definition pass_first (a : YOLOv4Model.arg) : option tensor :=
  match a with YOLOv4Model.Many (x :: _) => Some x | _ => None end.

(** A [convolutional] entry. *)
Definition conv_option (count : Z) : layer_option := mk_option "convolutional" count.

(** A convolution followed by a grouped route that lists [layers]. *)
Definition config_route (layers : list Z) : YOLOConfig :=
  [("net", net_option 416 416);
   ("conv_0", conv_option 0);
   ("route_1", with_layers (route_option 1 [] (Some 2%Z) 1) layers)].

(** Build the model of a configuration and call it once, with the
    stand-in layers. *)
Definition run_model (config : YOLOConfig) (x : tensor)
    : option (list YOLOv4Model.model_layer * list tensor) :=
  m ← YOLOv4Model.__init__ config;
  r ← YOLOv4Model.call (λ _, pass_one) (λ _, pass_first) (λ _, pass_first)
         (λ _ _ _, pass_one) (λ _, pass_one) m x;
  Some (YOLOv4Model._model_layers r.1, r.2).

(** ** Further heads, tensors and configurations of the examples *)

(** A head with [scale_x_y = 2]. *)
Definition head_scale_2 : YOLOv3Head.t :=
  {| name := "yolo_0"; _anchors := anchors_416;
     _inver_image_wh := (1 / 416, 1 / 416); _scale_x_y := 2; built := None |}.

(** A feature map of shape [(1, 1, 1, 12)] whose first channel is [r]. *)
Definition one_cell (r : R) : tensor4 := [[[r :: replicate 11 0]]].

(** A raw tensor of shape [(1, 3, 3, 255)]. *)
Definition raw_3x3 : tensor4 := [replicate 3 (replicate 3 (replicate 255 0))].

(** A head entry whose mask counts from the end of the anchors. *)
Definition config_mask_neg : YOLOConfig :=
  [("net", net_option 416 416);
   ("yolo_0", yolo_option 0 anchors_416 [-1; 0; 0]%Z 1)].

(** A configuration with an entry of a type that [__init__] does not know. *)
Definition config_unknown : YOLOConfig :=
  [("net", net_option 416 416); ("conv_0", conv_option 0);
   ("dropout_1", mk_option "dropout" 1);
   ("yolo_2", yolo_option 2 anchors_416 [0; 1; 2]%Z 1)].

(** A configuration whose [net] entry comes after a convolution. *)
Definition config_net_second : YOLOConfig :=
  [("conv_0", conv_option 0); ("net", net_option 416 416);
   ("conv_1", conv_option 1)].

(** A convolution followed by a head whose mask names an anchor that the
    entry does not have. *)
Definition config_mask_out : YOLOConfig :=
  [("net", net_option 416 416); ("conv_0", conv_option 0);
   ("yolo_1", yolo_option 1 anchors_416 [0; 1; 3]%Z 1)].

(** The model of [config_416] before and after its first call. *)
Definition model_416 : YOLOv4Model.t :=
  {| YOLOv4Model._model_config := config_416;
     YOLOv4Model._model_layers := [YOLOv4Model.Head head_416] |}.

Definition model_416_built : YOLOv4Model.t :=
  {| YOLOv4Model._model_config := config_416;
     YOLOv4Model._model_layers := [YOLOv4Model.Head head_416_built] |}.

(** [c[b, y, x]] of a rank-4 array: the values of one cell. *)
Definition nd_cell (c : ndarray) (b y x : nat) : list R :=
  match shape c with
  | [_; h; w; ch] => take ch (drop (((b * h + y) * w + x) * ch) (data c))
  | _ => []
  end.

(** An output of shape [(1, 1, 1, 6)]: one cell, three boxes of two
    values. *)
Definition candidate_1x1 : ndarray :=
  {| shape := [1; 1; 1; 6]%nat; data := [1; 2; 3; 4; 5; 6] |}.

(** An output of shape [(1, 1, 1, 3)]: one cell, three boxes of one
    value. *)
Definition candidate_1x1_short : ndarray :=
  {| shape := [1; 1; 1; 3]%nat; data := [7; 8; 9] |}.

(** ** The layers of a model *)

(** The entry types for which [__init__] appends a layer. *)
Definition layer_types : list string :=
  ["convolutional"; "route"; "shortcut"; "maxpool"; "upsample"; "yolo"].

(** The entry type that a layer of [_model_layers] is built for. *)
Definition layer_type (l : YOLOv4Model.model_layer) : string :=
  match l with
  | YOLOv4Model.Conv2D _ => "convolutional"
  | YOLOv4Model.SplitAndGet _ _ | YOLOv4Model.Identity
  | YOLOv4Model.Concatenate _ => "route"
  | YOLOv4Model.Add _ => "shortcut"
  | YOLOv4Model.MaxPooling2D _ _ _ => "maxpool"
  | YOLOv4Model.UpSampling2D _ => "upsample"
  | YOLOv4Model.Head _ => "yolo"
  end.

(** The entries of a configuration that get a layer. *)
Definition layer_entries (config : YOLOConfig) : YOLOConfig :=
  filter (λ p, opt_type p.2 ∈ layer_types) config.

(** The layer that [__init__] builds for an entry, apart from the
    regulariser of a convolution. *)
Definition layer_for (config : YOLOConfig) (item : string * layer_option)
    (l : YOLOv4Model.model_layer) : Prop :=
  let '(layer_name, lo) := item in
  match l with
  | YOLOv4Model.Conv2D a =>
      opt_type lo = "convolutional"
      ∧ YOLOv4Model.conv_name a = layer_name
      ∧ YOLOv4Model.conv_activation a = opt_activation lo
      ∧ YOLOv4Model.conv_filters a = opt_filters lo
      ∧ YOLOv4Model.conv_pad a = opt_pad lo
      ∧ YOLOv4Model.conv_size a = opt_size lo
      ∧ YOLOv4Model.conv_stride a = opt_stride lo
  | YOLOv4Model.SplitAndGet groups group_id =>
      opt_type lo = "route" ∧ opt_groups lo = Some groups
      ∧ group_id = opt_group_id lo
  | YOLOv4Model.Identity =>
      opt_type lo = "route" ∧ opt_groups lo = None
      ∧ length (opt_layers lo) = 1%nat
  | YOLOv4Model.Concatenate n =>
      opt_type lo = "route" ∧ opt_groups lo = None
      ∧ length (opt_layers lo) ≠ 1%nat ∧ n = layer_name
  | YOLOv4Model.Add n => opt_type lo = "shortcut" ∧ n = layer_name
  | YOLOv4Model.MaxPooling2D n size stride =>
      opt_type lo = "maxpool" ∧ n = layer_name
      ∧ size = opt_size lo ∧ stride = opt_stride lo
  | YOLOv4Model.UpSampling2D n => opt_type lo = "upsample" ∧ n = layer_name
  | YOLOv4Model.Head h =>
      opt_type lo = "yolo" ∧ built h = None
      ∧ YOLOv3Head.__init__ config layer_name = Some h
  end.

(** A layer after a call: itself, or the head it was, now built. *)
Definition built_from (l l' : YOLOv4Model.model_layer) : Prop :=
  l' = l
  ∨ ∃ h grid_shape h',
      l = YOLOv4Model.Head h ∧ built h = None
      ∧ build h grid_shape = Some h' ∧ l' = YOLOv4Model.Head h'.

(** ** The walk, step by step *)

(** Entries that the walk does not skip. *)
Definition walked (options : list layer_option) : list layer_option :=
  filter (λ lo, opt_count lo ≠ (-1)%Z) options.

(** The indices of [output] that one iteration of the loop of [call] reads
    to form the argument of the layer. The read of [output[count]] that a
    ["yolo"] entry makes afterwards, once its own output is appended, is
    not one of them: it is the read of [step_finish]. *)
Definition arg_sources (lo : layer_option) : list Z :=
  if decide (opt_type lo = "route") then
    match opt_groups lo with
    | Some _ => take 1 (opt_layers lo)
    | None => opt_layers lo
    end
  else if decide (opt_type lo = "shortcut") then
    (opt_count lo - 1)%Z :: opt_from lo
  else if decide (opt_count lo = 0%Z) then []
  else [(opt_count lo - 1)%Z].

(** The first half of an iteration: the position of the layer and what it
    is called on, from the outputs so far and the number of layers. *)
Definition step_plan (output : list tensor) (n_layers : nat) (x : tensor)
    (lo : layer_option) : option (nat * YOLOv4Model.arg) :=
  pos ← YOLOv4Model.py_pos n_layers (opt_count lo);
  if decide (opt_type lo = "route") then
    match opt_groups lo with
    | Some _ =>
        index ← opt_layers lo !! 0%nat;
        src ← py_index output index;
        Some (pos, YOLOv4Model.One src)
    | None =>
        if decide (length (opt_layers lo) = 1)%nat then
          index ← opt_layers lo !! 0%nat;
          src ← py_index output index;
          Some (pos, YOLOv4Model.One src)
        else
          srcs ← mapM (py_index output) (opt_layers lo);
          Some (pos, YOLOv4Model.Many srcs)
    end
  else if decide (opt_type lo = "shortcut") then
    prev ← py_index output (opt_count lo - 1);
    srcs ← mapM (py_index output) (opt_from lo);
    Some (pos, YOLOv4Model.Many (prev :: srcs))
  else if decide (opt_count lo = 0)%Z then Some (pos, YOLOv4Model.One x)
  else prev ← py_index output (opt_count lo - 1);
       Some (pos, YOLOv4Model.One prev).

(** The second half: a ["yolo"] entry adds [output[count]] to the returned
    list. *)
Definition step_finish (lo : layer_option) (st : YOLOv4Model.state)
    : option YOLOv4Model.state :=
  if decide (opt_type lo = "yolo") then
    out ← py_index (YOLOv4Model.st_output st) (opt_count lo);
    Some {| YOLOv4Model.st_layers := YOLOv4Model.st_layers st;
            YOLOv4Model.st_output := YOLOv4Model.st_output st;
            YOLOv4Model.st_return_val := YOLOv4Model.st_return_val st ++ [out] |}
  else Some st.

(** ** The list that [call] returns *)







(** * Properties *)

(** ** Lists *)

Section ListFacts.
Context {A : Type}.
Implicit Types l v : list A.
Implicit Types ls : list (list A).

Lemma reshape_join ls : reshape (length <$> ls) (mjoin ls) = ls.
Proof.
  induction ls as [|l ls IH]; [done|]. csimpl.
  by rewrite take_app_length, drop_app_length, IH.
Qed.

Lemma fmap_length_const n ls :
  Forall (λ l, length l = n) ls → length <$> ls = replicate (length ls) n.
Proof. induction 1 as [|l ls Hl _ IH]; csimpl; [done|]. by rewrite Hl, IH. Qed.

(** Cutting a concatenation of equally long rows gives the rows back. *)
Lemma take_chunks_join n ls :
  Forall (λ l, length l = n) ls → take_chunks (length ls) n (mjoin ls) = ls.
Proof.
  intros Hn. unfold take_chunks.
  rewrite <- (fmap_length_const n ls Hn). apply reshape_join.
Qed.

Lemma length_join_const n ls :
  Forall (λ l, length l = n) ls → length (mjoin ls) = (length ls * n)%nat.
Proof. intros Hn. rewrite length_join. by apply sum_list_fmap_same. Qed.

Lemma lookup_reshape_replicate m n v i :
  (i < m)%nat →
  reshape (replicate m n) v !! i = Some (take n (drop (i * n) v)).
Proof.
  revert v i. induction m as [|m IH]; intros v i Hi; [lia|].
  destruct i as [|i]; simpl; [done|].
  rewrite IH by lia. by rewrite drop_drop.
Qed.

Lemma length_take_chunks m n v : length (take_chunks m n v) = m.
Proof. unfold take_chunks. by rewrite length_reshape, length_replicate. Qed.

Lemma zip_with_imap_same {B C D} (h : B → C → D) (f : nat → A → B)
    (g : nat → A → C) l :
  zip_with h (imap f l) (imap g l) = imap (λ i a, h (f i a) (g i a)) l.
Proof.
  revert f g. induction l as [|a l IH]; intros f g; [done|].
  simpl. f_equal. apply IH.
Qed.

Lemma py_index_nonneg l (i : nat) : py_index l (Z.of_nat i) = l !! i.
Proof.
  unfold py_index. rewrite (proj2 (Z.leb_le _ _)) by lia.
  by rewrite Nat2Z.id.
Qed.
End ListFacts.

(** ** Tensors *)

Lemma imap_const' {A B} (f : A → B) (l : list A) : imap (λ _, f) l = f <$> l.
Proof. apply (imap_const f). Qed.

Lemma map_cells4_imap_cells f t : map_cells4 f t = imap_cells (λ _ _, f) t.
Proof.
  unfold map_cells4, imap_cells. apply list_fmap_ext; intros _ img _.
  rewrite <- imap_const'. apply imap_ext; intros y row _. simpl.
  by rewrite imap_const'.
Qed.

Lemma map_cells4_compose f g t :
  map_cells4 f (map_cells4 g t) = map_cells4 (f ∘ g) t.
Proof.
  unfold map_cells4. rewrite <- list_fmap_compose.
  apply list_fmap_ext; intros _ img _. simpl.
  rewrite <- list_fmap_compose. apply list_fmap_ext; intros _ row _. simpl.
  by rewrite <- list_fmap_compose.
Qed.

Lemma map_cells4_id t : map_cells4 (λ v, v) t = t.
Proof.
  unfold map_cells4. rewrite <- (list_fmap_id t) at 2.
  apply list_fmap_ext; intros _ img _.
  rewrite <- (list_fmap_id img) at 2.
  apply list_fmap_ext; intros _ row _. apply (list_fmap_id row).
Qed.

Lemma imap_cells_ext B H W C f g t :
  has_shape4 B H W C t →
  (∀ y cx v, (y < H)%nat → (cx < W)%nat → length v = C → f y cx v = g y cx v) →
  imap_cells f t = imap_cells g t.
Proof.
  intros [_ Ht] Hfg. unfold imap_cells.
  apply list_fmap_ext; intros b img Hb.
  rewrite Forall_lookup in Ht. destruct (Ht _ _ Hb) as [HH Himg].
  apply imap_ext; intros y row Hy. simpl.
  rewrite Forall_lookup in Himg. destruct (Himg _ _ Hy) as [HW Hrow].
  apply imap_ext; intros cx v Hv.
  rewrite Forall_lookup in Hrow.
  apply Hfg; [apply lookup_lt_Some in Hy; lia|apply lookup_lt_Some in Hv; lia|eauto].
Qed.

Lemma has_shape4_imap_cells B H W C C' f t :
  has_shape4 B H W C t →
  (∀ y cx v, (y < H)%nat → (cx < W)%nat → length v = C → length (f y cx v) = C') →
  has_shape4 B H W C' (imap_cells f t).
Proof.
  intros [HB Ht] Hf. split; [unfold imap_cells; by rewrite length_fmap|].
  unfold imap_cells. rewrite Forall_fmap.
  eapply Forall_impl; [exact Ht|]. intros img [HH Himg]. simpl.
  split; [by rewrite length_imap|].
  rewrite Forall_lookup. intros y row'.
  rewrite list_lookup_imap. intros Hy.
  destruct (img !! y) as [row|] eqn:Hrow; [|done]. simplify_eq/=.
  rewrite Forall_lookup in Himg. destruct (Himg _ _ Hrow) as [HW Hvs].
  split; [by rewrite length_imap|].
  rewrite Forall_lookup. intros cx v'. rewrite list_lookup_imap. intros Hcx.
  destruct (row !! cx) as [v|] eqn:Hv; [|done]. simplify_eq/=.
  rewrite Forall_lookup in Hvs.
  apply Hf; [apply lookup_lt_Some in Hrow; lia|apply lookup_lt_Some in Hv; lia|eauto].
Qed.

Lemma shape4_has_shape B H W C t :
  has_shape4 B H W C t → (1 ≤ B)%nat → (1 ≤ H)%nat → (1 ≤ W)%nat →
  shape4 t = (B, H, W, C).
Proof.
  intros [HB Ht] ? ? ?. unfold shape4, hd_nil.
  destruct t as [|img t]; simpl in *; [lia|].
  apply Forall_cons in Ht as [[HH Himg] _].
  destruct img as [|row img]; simpl in *; [lia|].
  apply Forall_cons in Himg as [[HW Hrow] _].
  destruct row as [|v row]; simpl in *; [lia|].
  apply Forall_cons in Hrow as [Hv _]. by rewrite HB, HH, HW, Hv.
Qed.

Lemma shape4_imap_cells_outer f t :
  (shape4 (imap_cells f t)).1 = (shape4 t).1.
Proof.
  unfold shape4, imap_cells, hd_nil. simpl.
  rewrite length_fmap.
  destruct t as [|img t]; simpl; [done|]. rewrite length_imap.
  destruct img as [|row img]; simpl; [done|]. by rewrite length_imap.
Qed.

Lemma cat_last_imap_cells f g t :
  cat_last (imap_cells f t) (imap_cells g t)
  = Some (imap_cells (λ y cx v, f y cx v ++ g y cx v) t).
Proof.
  unfold cat_last. rewrite !shape4_imap_cells_outer.
  rewrite decide_True by done. f_equal.
  unfold imap_cells. rewrite zip_with_fmap_l, zip_with_fmap_r, zip_with_diag.
  apply list_fmap_ext; intros _ img _.
  rewrite zip_with_imap_same. apply imap_ext; intros y row _. simpl.
  by rewrite zip_with_imap_same.
Qed.

Lemma bcast_eq_length {A B C} (f : A → B → option C) xs ys :
  length xs = length ys → bcast f xs ys = mapM (λ p, f p.1 p.2) (zip xs ys).
Proof. intros Hl. unfold bcast. by rewrite decide_True. Qed.

Lemma bcast_imap_seq {A B C D} (F : B → C → option D) (f : nat → A → B)
    (g : nat → C) (r : nat → A → D) (l : list A) n :
  length l = n →
  (∀ i a, l !! i = Some a → F (f i a) (g i) = Some (r i a)) →
  bcast F (imap f l) (g <$> seq 0 n) = Some (imap r l).
Proof.
  intros Hn HF. rewrite bcast_eq_length
    by (by rewrite length_imap, length_fmap, length_seq).
  subst n. apply mapM_Some.
  assert (∀ j (f' : nat → A → B) (r' : nat → A → D),
    (∀ i a, l !! i = Some a → F (f' i a) (g (j + i)%nat) = Some (r' i a)) →
    Forall2 (λ p y, F p.1 p.2 = Some y)
      (zip (imap f' l) (g <$> seq j (length l))) (imap r' l)) as Hgen.
  { clear. induction l as [|a l IH]; intros j f' r' HF; simpl; constructor.
    - specialize (HF 0%nat a eq_refl). simpl. by rewrite Nat.add_0_r in HF.
    - apply (IH (S j)). intros i b Hb. specialize (HF (S i) b Hb).
      simpl. by rewrite Nat.add_succ_r in HF. }
  apply (Hgen 0%nat). intros i a. apply HF.
Qed.

Lemma add_grid_imap_cells B H W C f t :
  has_shape4 B H W C t →
  add_grid (imap_cells f t) (grid_table H W)
  = Some (imap_cells (λ y cx v,
            zip_with Rplus (f y cx v) [INR cx / INR W; INR y / INR H]) t).
Proof.
  intros [_ Ht]. unfold add_grid, imap_cells.
  apply mapM_Some, Forall2_fmap, Forall_Forall2_diag.
  eapply Forall_impl; [exact Ht|]. intros img [HH Himg]. simpl.
  unfold grid_table. apply bcast_imap_seq; [done|].
  intros y row Hy. rewrite Forall_lookup in Himg.
  destruct (Himg _ _ Hy) as [HW _].
  apply bcast_imap_seq; [done|]. by intros.
Qed.

Lemma join_imap_cells_flat f (t : tensor4) :
  flat4 (imap_cells f t)
  = mjoin (mjoin ((λ img : list (list (list R)),
             mjoin (imap (λ y (row : list (list R)), imap (λ cx v, f y cx v) row) img)) <$> t)).
Proof.
  unfold flat4, imap_cells. f_equal.
  induction t as [|img t IH]; [done|]. csimpl.
  rewrite join_app. by rewrite IH.
Qed.

Lemma tf_reshape_imap_cells B H W C K f t :
  has_shape4 B H W C t →
  (∀ y cx v, (y < H)%nat → (cx < W)%nat → length v = C → length (f y cx v) = K) →
  (1 ≤ H)%nat → (1 ≤ W)%nat → (1 ≤ K)%nat →
  tf_reshape (imap_cells f t) ((H * W)%nat, K)
  = Some ((λ img : list (list (list R)),
             mjoin (imap (λ y (row : list (list R)), imap (λ cx v, f y cx v) row) img)) <$> t).
Proof.
  intros Ht Hf ? ? ?.
  pose proof (has_shape4_imap_cells _ _ _ _ _ _ _ Ht Hf) as [HB Hs].
  unfold tf_reshape. rewrite join_imap_cells_flat.
  set (boxes := (λ img : list (list (list R)), mjoin _) <$> t).
  assert (Forall (λ bs : list (list R), length bs = (H * W)%nat
                   ∧ Forall (λ v, length v = K) bs) boxes) as Hboxes.
  { unfold boxes. rewrite Forall_fmap. destruct Ht as [_ Ht].
    unfold imap_cells in Hs. rewrite Forall_fmap in Hs.
    eapply Forall_impl; [exact Hs|]. intros img [HH Himg]. simpl in *.
    split.
    - rewrite (length_join_const W); [by rewrite HH|].
      eapply Forall_impl; [exact Himg|]. by intros row [? _].
    - apply Forall_join. eapply Forall_impl; [exact Himg|]. by intros row [_ ?]. }
  assert (length boxes = B) as HlB.
  { unfold boxes. rewrite length_fmap. by destruct Ht. }
  assert (Forall (λ v : list R, length v = K) (mjoin boxes)) as HK.
  { apply Forall_join. eapply Forall_impl; [exact Hboxes|]. by intros bs [_ ?]. }
  assert (length (mjoin boxes) = (B * (H * W))%nat) as HlN.
  { rewrite (length_join_const (H * W)); [by rewrite HlB|].
    eapply Forall_impl; [exact Hboxes|]. by intros bs [? _]. }
  assert (length (mjoin (mjoin boxes)) = (B * (H * W * K))%nat) as Hlen.
  { rewrite (length_join_const K) by done. rewrite HlN. lia. }
  rewrite decide_False by nia.
  rewrite Hlen. rewrite decide_True by (apply Nat.Div0.mod_mul).
  rewrite Nat.div_mul by nia. f_equal.
  rewrite <- HlN at 1. rewrite take_chunks_join by done.
  rewrite <- HlB. apply take_chunks_join.
  eapply Forall_impl; [exact Hboxes|]. by intros bs [? _].
Qed.

Lemma map_cells4_ext f g t :
  (∀ v, f v = g v) → map_cells4 f t = map_cells4 g t.
Proof.
  intros Hfg. unfold map_cells4.
  apply list_fmap_ext; intros _ img _.
  apply list_fmap_ext; intros _ row _.
  apply list_fmap_ext; intros _ v _. apply Hfg.
Qed.

Lemma map_elems4_id t : map_elems4 (λ v, v) t = t.
Proof.
  unfold map_elems4. rewrite <- (map_cells4_id t) at 2.
  apply map_cells4_ext. intros v. apply (list_fmap_id v).
Qed.

Lemma channels4_map_cells B H W C K F x :
  has_shape4 B H W C x → (1 ≤ B)%nat → (1 ≤ H)%nat → (1 ≤ W)%nat →
  (∀ v, length v = C → length (F v) = K) →
  channels4 (map_cells4 F x) = K.
Proof.
  intros Hx ? ? ? HF. unfold channels4.
  rewrite map_cells4_imap_cells.
  rewrite (shape4_has_shape B H W K); [done| |done..].
  eapply has_shape4_imap_cells; [exact Hx|]. intros. by apply HF.
Qed.

Lemma split_sizes_num3 K : split_sizes (Num 3) (3 * K) = Some [K; K; K].
Proof.
  unfold split_sizes. rewrite decide_True by lia.
  change (Z.to_nat 3) with 3%nat.
  rewrite decide_True by (rewrite Nat.mul_comm; apply Nat.Div0.mod_mul).
  rewrite (Nat.mul_comm 3 K), Nat.div_mul by lia. done.
Qed.

Lemma split_sizes_2_2_rest K :
  (4 ≤ K)%nat → split_sizes (Sizes [2; 2; -1]%Z) K = Some [2; 2; K - 4]%nat.
Proof.
  intros HK. unfold split_sizes.
  rewrite decide_True by (repeat constructor; lia).
  change (sum_known [2; 2; -1]%Z) with 4%Z.
  change (length (filter (λ s, s = (-1)%Z) [2; 2; -1]%Z)) with 1%nat.
  rewrite decide_False by lia. rewrite decide_True by lia.
  rewrite decide_True by lia. simpl. do 3 f_equal. 
  repeat case_decide; try lia. f_equal. lia.
Qed.

Lemma tf_split4_map_cells B H W C K F x spec sizes :
  has_shape4 B H W C x → (1 ≤ B)%nat → (1 ≤ H)%nat → (1 ≤ W)%nat →
  (∀ v, length v = C → length (F v) = K) →
  split_sizes spec K = Some sizes →
  tf_split4 (map_cells4 F x) spec
  = Some (imap (λ k _, map_cells4 (λ v, part_of sizes k (F v)) x) sizes).
Proof.
  intros Hx ? ? ? HF Hs. unfold tf_split4.
  erewrite channels4_map_cells by done. rewrite Hs. simpl. f_equal.
  apply imap_ext; intros k _ _. apply map_cells4_compose.
Qed.

Lemma length_part_of sizes k s v :
  sizes !! k = Some s → length v = sum_list sizes → length (part_of sizes k v) = s.
Proof.
  unfold part_of. revert k v.
  induction sizes as [|s' sizes IH]; intros k v Hk Hv; [done|].
  destruct k as [|k]; simpl in *.
  - simplify_eq. rewrite length_take. lia.
  - apply IH; [done|]. rewrite length_drop. lia.
Qed.

Lemma scale_xy_fn forced s xy :
  scale_xy forced s xy = map_elems4 (scale_fn forced s) xy.
Proof.
  unfold scale_xy, scale_fn. destruct forced; [done|].
  destruct (Req_dec_T s 1); [|done]. by rewrite map_elems4_id.
Qed.

Lemma build_geometry_of h B H W F :
  (1 ≤ H)%nat → (1 ≤ W)%nat →
  build h [B; H; W; F] = Some (set_geometry h (geometry_of H W F)).
Proof. intros ? ?. unfold build. by rewrite decide_False by lia. Qed.

Lemma length_cell_raw forced h H W K a i y cx v :
  (4 ≤ K)%nat → (i < 3)%nat → length v = (3 * K)%nat →
  length (cell_raw forced h H W K a i y cx v) = K.
Proof.
  intros HK Hi Hv. unfold cell_raw.
  assert (∀ u : list R, length u = (3 * K)%nat →
            length (part_of [K; K; K] i u) = K) as H3.
  { intros u Hu. apply length_part_of; [|simpl; lia].
    destruct i as [|[|[|]]]; simpl; done || lia. }
  assert (length (sigmoid <$> v) = (3 * K)%nat) as Hsv by by rewrite length_fmap.
  cbv zeta. rewrite !length_app, !length_zip_with, !length_fmap.
  rewrite (length_part_of _ 0 2) by (simpl; rewrite ?H3; done || lia).
  rewrite (length_part_of _ 1 2) by (simpl; rewrite ?H3; done || lia).
  rewrite (length_part_of _ 2 (K - 4)) by (simpl; rewrite ?H3; done || lia).
  simpl. lia.
Qed.

Lemma decode_anchor_raw forced h B H W K x i a :
  has_shape4 B H W (3 * K) x →
  (1 ≤ B)%nat → (1 ≤ H)%nat → (1 ≤ W)%nat → (4 ≤ K)%nat → (i < 3)%nat →
  _anchors h !! i = Some a →
  decode_anchor forced h (geometry_of H W (3 * K))
    (imap (λ k _, map_cells4 (λ v, part_of [K; K; K] k v) x) [K; K; K])
    (imap (λ k _, map_cells4 (λ v, part_of [K; K; K] k (sigmoid <$> v)) x) [K; K; K])
    i
  = Some (boxes_of forced h H W K a i <$> x).
Proof.
  intros Hx ? ? ? HK Hi Ha. unfold decode_anchor.
  assert (∀ u : list R, length u = (3 * K)%nat →
            length (part_of [K; K; K] i u) = K) as H3.
  { intros u Hu. apply length_part_of; [|simpl; lia].
    destruct i as [|[|[|]]]; simpl; done || lia. }
  rewrite !list_lookup_imap.
  assert ([K; K; K] !! i = Some K) as ->
    by (destruct i as [|[|[|]]]; simpl; done || lia).
  cbn [fmap option_fmap option_map mbind option_bind].
  erewrite (tf_split4_map_cells B H W (3 * K) K); [|done..| |by apply split_sizes_2_2_rest].
  2:{ intros v Hv. apply H3. by rewrite ?length_fmap. }
  cbn [mbind option_bind].
  erewrite (tf_split4_map_cells B H W (3 * K) K); [|done..| |by apply split_sizes_2_2_rest].
  2:{ intros v Hv. apply H3. by rewrite ?length_fmap. }
  cbn [mbind option_bind imap compose]. rewrite Ha. cbn [mbind option_bind].
  rewrite scale_xy_fn. unfold mul_pair, map_elems4.
  rewrite !map_cells4_compose, !(map_cells4_imap_cells _ x).
  cbn [compose _grid_coord _inver_grid_wh _return_shape geometry_of fst snd].
  erewrite add_grid_imap_cells by done.
  cbn [mbind option_bind tf_concat_last foldl].
  rewrite cat_last_imap_cells. cbn [mbind option_bind].
  rewrite cat_last_imap_cells.
  cbn [_return_shape geometry_of mbind option_bind].
  rewrite (Nat.mul_comm 3 K), Nat.div_mul by lia.
  erewrite tf_reshape_imap_cells; [|done| |done|done|lia].
  - done.
  - intros y cx v _ _ Hv.
    apply (length_cell_raw forced h H W K a i y cx v); [done..|lia].
Qed.

Lemma tf_split4_plain B H W C x spec sizes :
  has_shape4 B H W C x → (1 ≤ B)%nat → (1 ≤ H)%nat → (1 ≤ W)%nat →
  split_sizes spec C = Some sizes →
  tf_split4 x spec
  = Some (imap (λ k _, map_cells4 (λ v, part_of sizes k v) x) sizes).
Proof.
  intros Hx ? ? ? Hs. unfold tf_split4, channels4.
  rewrite (shape4_has_shape B H W C) by done. cbn [snd]. by rewrite Hs.
Qed.

Lemma has_shape3_join_imap B H W C K f t :
  has_shape4 B H W C t →
  (∀ y cx v, (y < H)%nat → (cx < W)%nat → length v = C → length (f y cx v) = K) →
  has_shape3 B (H * W) K
    ((λ img : list (list (list R)),
        mjoin (imap (λ y (row : list (list R)), imap (λ cx v, f y cx v) row) img)) <$> t).
Proof.
  intros Ht Hf.
  pose proof (has_shape4_imap_cells _ _ _ _ _ _ _ Ht Hf) as [HB Hs].
  split; [rewrite length_fmap; by destruct Ht|].
  rewrite Forall_fmap. unfold imap_cells in Hs. rewrite Forall_fmap in Hs.
  eapply Forall_impl; [exact Hs|]. intros img [HH Himg]. simpl in *. split.
  - rewrite (length_join_const W); [by rewrite HH|].
    eapply Forall_impl; [exact Himg|]. by intros row [? _].
  - apply Forall_join. eapply Forall_impl; [exact Himg|]. by intros row [_ ?].
Qed.

Lemma shape3_has_shape B N K t :
  has_shape3 B N K t → (1 ≤ B)%nat → (1 ≤ N)%nat → shape3 t = (B, N, K).
Proof.
  intros [HB Ht] ? ?. unfold shape3, hd_nil.
  destruct t as [|bs t]; simpl in *; [lia|].
  apply Forall_cons in Ht as [[HN Hbs] _].
  destruct bs as [|v bs]; simpl in *; [lia|].
  apply Forall_cons in Hbs as [Hv _]. by rewrite HB, HN, Hv.
Qed.

Lemma has_shape3_zip_app B N M K (a b : list (list (list R))) :
  has_shape3 B N K a → has_shape3 B M K b →
  has_shape3 B (N + M) K (zip_with app a b).
Proof.
  intros [Ha Hsa] [Hb Hsb]. split; [rewrite length_zip_with; lia|].
  clear Ha Hb. revert b Hsb.
  induction Hsa as [|x a [Hx Hxs] _ IH]; intros b Hsb; [constructor|].
  destruct Hsb as [|y b [Hy Hys] Hsb]; simpl; constructor.
  - split; [rewrite length_app; lia|]. by apply Forall_app.
  - by apply IH.
Qed.

Lemma cat_axis1_has_shape B N M K a b :
  has_shape3 B N K a → has_shape3 B M K b →
  (1 ≤ B)%nat → (1 ≤ N)%nat → (1 ≤ M)%nat →
  cat_axis1 a b = Some (zip_with app a b).
Proof.
  intros Ha Hb ? ? ?. unfold cat_axis1, channels3.
  rewrite (shape3_has_shape B N K a), (shape3_has_shape B M K b) by done.
  rewrite decide_True; [done|]. destruct Ha as [-> _], Hb as [-> _]. done.
Qed.

Lemma zip_with_fmap_same {A B C D} (h : B → C → D) (f : A → B) (g : A → C) l :
  zip_with h (f <$> l) (g <$> l) = (λ a, h (f a) (g a)) <$> l.
Proof. by rewrite zip_with_fmap_l, zip_with_fmap_r, zip_with_diag. Qed.

Lemma has_shape3_boxes_of forced h B H W K a i x :
  has_shape4 B H W (3 * K) x → (4 ≤ K)%nat → (i < 3)%nat →
  has_shape3 B (H * W) K (boxes_of forced h H W K a i <$> x).
Proof.
  intros Hx ? ?. apply (has_shape3_join_imap B H W (3 * K) K); [done|].
  intros. by apply length_cell_raw.
Qed.

(** The output of [call], cell by cell and before simplification. *)
Lemma call_with_raw forced h B H W K x a0 a1 a2 :
  has_shape4 B H W (3 * K) x →
  (1 ≤ B)%nat → (1 ≤ H)%nat → (1 ≤ W)%nat → (4 ≤ K)%nat →
  _anchors h !! 0%nat = Some a0 →
  _anchors h !! 1%nat = Some a1 →
  _anchors h !! 2%nat = Some a2 →
  call_with forced (set_geometry h (geometry_of H W (3 * K))) x
  = Some ((λ img, (boxes_of forced h H W K a0 0 img
                   ++ boxes_of forced h H W K a1 1 img)
                  ++ boxes_of forced h H W K a2 2 img) <$> x).
Proof.
  intros Hx ? ? ? HK Ha0 Ha1 Ha2. unfold call_with.
  rewrite (tf_split4_plain B H W (3 * K) x (Num 3) [K; K; K])
    by (done || apply split_sizes_num3).
  cbn [mbind option_bind]. unfold map_elems4 at 1.
  rewrite (tf_split4_map_cells B H W (3 * K) (3 * K) _ x (Num 3) [K; K; K]);
    [|done..| |apply split_sizes_num3].
  2:{ intros v Hv. by rewrite length_fmap. }
  cbn [mbind option_bind built set_geometry seq mapM].
  set (h' := set_geometry h (geometry_of H W (3 * K))).
  rewrite (decode_anchor_raw forced h' B H W K x 0 a0) by (done || lia).
  rewrite (decode_anchor_raw forced h' B H W K x 1 a1) by (done || lia).
  rewrite (decode_anchor_raw forced h' B H W K x 2 a2) by (done || lia).
  cbn [mbind option_bind mret option_ret tf_concat_axis1 foldl].
  change (boxes_of forced h') with (boxes_of forced h).
  assert (1 ≤ H * W)%nat by nia.
  erewrite cat_axis1_has_shape;
    [|apply has_shape3_boxes_of; done || lia
     |apply has_shape3_boxes_of; done || lia|done..].
  cbn [mbind option_bind].
  erewrite cat_axis1_has_shape;
    [|apply has_shape3_zip_app; apply has_shape3_boxes_of; done || lia
     |apply has_shape3_boxes_of; done || lia|done|lia|done].
  by rewrite !zip_with_fmap_same.
Qed.

Lemma part_of_thirds K i (u : list R) :
  (i < 3)%nat → part_of [K; K; K] i u = py_slice (i * K) ((i + 1) * K) u.
Proof.
  intros Hi. unfold part_of, py_slice.
  change [K; K; K] with (replicate 3 K).
  rewrite lookup_reshape_replicate by done. simpl. f_equal. lia.
Qed.

Lemma py_slice_fmap {A B} (f : A → B) lo hi (v : list A) :
  py_slice lo hi (f <$> v) = f <$> py_slice lo hi v.
Proof. unfold py_slice. by rewrite fmap_take, fmap_drop. Qed.

Lemma length_py_slice_thirds {A} K i (v : list A) :
  (i < 3)%nat → length v = (3 * K)%nat →
  length (py_slice (i * K) ((i + 1) * K) v) = K.
Proof. intros. unfold py_slice. rewrite length_take, length_drop. nia. Qed.

Lemma cell_raw_decoded forced h H W K a i y cx v :
  (4 ≤ K)%nat → (i < 3)%nat → length v = (3 * K)%nat →
  cell_raw forced h H W K a i y cx v
  = decoded_box (scale_fn forced (_scale_x_y h)) H W a (_inver_image_wh h) y cx
      (py_slice (i * K) ((i + 1) * K) v).
Proof.
  intros HK Hi Hv. unfold cell_raw. cbv zeta.
  rewrite !part_of_thirds by done. rewrite py_slice_fmap.
  pose proof (length_py_slice_thirds K i v Hi Hv) as Hc.
  destruct (py_slice (i * K) ((i + 1) * K) v) as [|rx [|ry [|rw [|rh rest]]]];
    simpl in Hc; try lia.
  unfold part_of. simpl. do 4 f_equal.
  change (list_fmap R R sigmoid rest) with (sigmoid <$> rest).
  rewrite drop_0, take_ge; [done|]. rewrite length_fmap. lia.
Qed.

Lemma lookup_boxes_of forced h H W K a i img y cx v row :
  Forall (λ row : list (list R), length row = W) img →
  img !! y = Some row → row !! cx = Some v →
  boxes_of forced h H W K a i img !! (y * W + cx)%nat
  = Some (cell_raw forced h H W K a i y cx v).
Proof.
  intros HW Hy Hcx. unfold boxes_of.
  apply (join_lookup_Some_same_length' W).
  - rewrite Forall_lookup. intros y' row'. rewrite list_lookup_imap.
    destruct (img !! y') as [r|] eqn:Hr; [|done]. intros; simplify_eq/=.
    rewrite length_imap. rewrite Forall_lookup in HW. eauto.
  - apply lookup_lt_Some in Hcx. rewrite Forall_lookup in HW.
    by rewrite <- (HW _ _ Hy).
  - eexists. rewrite list_lookup_imap, Hy. split; [done|]. simpl.
    by rewrite list_lookup_imap, Hcx.
Qed.

Lemma length_boxes_of forced h H W K a i img :
  length img = H → Forall (λ row : list (list R), length row = W) img →
  length (boxes_of forced h H W K a i img) = (H * W)%nat.
Proof.
  intros HH HW. unfold boxes_of. rewrite (length_join_const W).
  - by rewrite length_imap, HH.
  - rewrite Forall_lookup. intros y' row'. rewrite list_lookup_imap.
    destruct (img !! y') as [r|] eqn:Hr; [|done]. intros; simplify_eq/=.
    rewrite length_imap. rewrite Forall_lookup in HW. eauto.
Qed.

(** The box of anchor slot [i] at cell [(y, cx)] sits at index
    [i * (H * W) + y * W + cx] of its image. *)
Lemma lookup_call_boxes forced h H W K a0 a1 a2 img i y cx row v :
  length img = H → Forall (λ row : list (list R), length row = W) img →
  img !! y = Some row → row !! cx = Some v → (i < 3)%nat →
  ((boxes_of forced h H W K a0 0 img ++ boxes_of forced h H W K a1 1 img)
    ++ boxes_of forced h H W K a2 2 img) !! (i * (H * W) + (y * W + cx))%nat
  = Some (cell_raw forced h H W K (nth i [a0; a1; a2] a0) i y cx v).
Proof.
  intros HH HW Hy Hcx Hi.
  assert (y * W + cx < H * W)%nat as Hlt.
  { rewrite Forall_lookup in HW. pose proof (HW _ _ Hy).
    apply lookup_lt_Some in Hy, Hcx. nia. }
  assert (∀ a j, length (boxes_of forced h H W K a j img) = (H * W)%nat) as Hlen
    by (intros; by apply length_boxes_of).
  destruct i as [|[|[|]]]; [| | |lia]; simpl nth.
  - rewrite Nat.mul_0_l, Nat.add_0_l.
    rewrite lookup_app_l by (rewrite length_app, !Hlen; lia).
    rewrite lookup_app_l by (rewrite Hlen; lia).
    by eapply lookup_boxes_of.
  - rewrite lookup_app_l by (rewrite length_app, !Hlen; lia).
    rewrite lookup_app_r by (rewrite Hlen; lia). rewrite Hlen.
    replace (1 * (H * W) + (y * W + cx) - H * W)%nat with (y * W + cx)%nat by lia.
    by eapply lookup_boxes_of.
  - rewrite lookup_app_r by (rewrite length_app, !Hlen; lia).
    rewrite length_app, !Hlen.
    replace (2 * (H * W) + (y * W + cx) - (H * W + H * W))%nat
      with (y * W + cx)%nat by lia.
    by eapply lookup_boxes_of.
Qed.

(** ** Real arithmetic *)

Lemma sigmoid_bounds r : 0 < sigmoid r < 1.
Proof.
  unfold sigmoid. pose proof (exp_pos (- r)) as He.
  assert (0 < 1 + exp (- r)) as Hd by lra.
  split.
  - apply Rdiv_lt_0_compat; lra.
  - apply (Rmult_lt_reg_r (1 + exp (- r))); [done|].
    unfold Rdiv. rewrite Rmult_assoc, Rinv_l by lra. lra.
Qed.

Lemma Rdiv_eq_reg a b c : c ≠ 0 → a / c = b / c → a = b.
Proof.
  intros Hc Hab. apply (Rmult_eq_reg_r (/ c)); [done|].
  by apply Rinv_neq_0_compat.
Qed.

(** [sigma / n + i / n] stays within the cell [i] of an axis of [n] cells. *)
Lemma cell_offset_bounds (s : R) (i n : nat) :
  0 < s < 1 → (i < n)%nat →
  INR i / INR n < s * (1 / INR n) + INR i / INR n < (INR i + 1) / INR n
  ∧ 0 <= INR i / INR n ∧ (INR i + 1) / INR n <= 1.
Proof.
  intros Hs Hi.
  assert (0 < INR n) as Hn by (apply lt_0_INR; lia).
  assert (0 < / INR n) as Hinv by by apply Rinv_0_lt_compat.
  assert (INR i + 1 <= INR n) as Hle.
  { rewrite <- S_INR. apply le_INR. lia. }
  pose proof (pos_INR i) as Hi0.
  unfold Rdiv. repeat split.
  - nra.
  - nra.
  - nra.
  - apply (Rmult_le_reg_r (INR n)); [done|].
    rewrite Rmult_assoc, Rinv_l by lra. lra.
Qed.

(** ** The grid geometry *)

Lemma grid_table_lookup H W y x :
  (y < H)%nat → (x < W)%nat →
  (row ← grid_table H W !! y; row !! x) = Some (INR x / INR W, INR y / INR H).
Proof.
  intros Hy Hx. unfold grid_table.
  rewrite list_lookup_fmap, lookup_seq_lt by done. simpl.
  by rewrite list_lookup_fmap, lookup_seq_lt by done.
Qed.

Lemma grid_table_rows H W :
  length (grid_table H W) = H
  ∧ Forall (λ row, length row = W) (grid_table H W).
Proof.
  unfold grid_table. split; [by rewrite length_fmap, length_seq|].
  rewrite Forall_fmap. apply Forall_forall. intros y _. simpl.
  by rewrite length_fmap, length_seq.
Qed.

Lemma grid_table_NoDup H W :
  (1 ≤ H)%nat → (1 ≤ W)%nat → NoDup (mjoin (grid_table H W)).
Proof.
  intros HH HW. destruct (grid_table_rows H W) as [_ Hrows].
  apply NoDup_alt. intros i j p.
  rewrite !(join_lookup_Some_same_length W) by done.
  intros (y1 & r1 & x1 & Hr1 & Hp1 & ->) (y2 & r2 & x2 & Hr2 & Hp2 & ->).
  unfold grid_table in Hr1, Hr2.
  rewrite list_lookup_fmap in Hr1, Hr2.
  destruct (seq 0 H !! y1) as [y1'|] eqn:Hy1; [|done].
  destruct (seq 0 H !! y2) as [y2'|] eqn:Hy2; [|done].
  apply lookup_seq in Hy1 as [-> Hy1], Hy2 as [-> Hy2]. simplify_eq/=.
  rewrite list_lookup_fmap in Hp1, Hp2.
  destruct (seq 0 W !! x1) as [x1'|] eqn:Hx1; [|done].
  destruct (seq 0 W !! x2) as [x2'|] eqn:Hx2; [|done].
  apply lookup_seq in Hx1 as [-> Hx1], Hx2 as [-> Hx2]. simplify_eq/=.
  assert (INR W ≠ 0) by (apply not_0_INR; lia).
  assert (INR H ≠ 0) by (apply not_0_INR; lia).
  match goal with
  | Hx : INR _ / INR W = INR _ / INR W, Hy : INR _ / INR H = INR _ / INR H |- _ =>
      apply Rdiv_eq_reg, INR_eq in Hx; [|done];
      apply Rdiv_eq_reg, INR_eq in Hy; [|done]
  end.
  by subst.
Qed.

Lemma shape_list_has_shape B H W C x :
  has_shape4 B H W C x → (1 ≤ B)%nat → (1 ≤ H)%nat → (1 ≤ W)%nat →
  shape_list x = [B; H; W; C].
Proof.
  intros. unfold shape_list. by rewrite (shape4_has_shape B H W C).
Qed.

Lemma cell_at_shape B H W C x b y cx v :
  has_shape4 B H W C x → cell_at x b y cx = Some v →
  (b < B)%nat ∧ (y < H)%nat ∧ (cx < W)%nat ∧ length v = C.
Proof.
  intros [HB Hx]. unfold cell_at.
  destruct (x !! b) as [img|] eqn:Hb; [|done]. simpl.
  destruct (img !! y) as [row|] eqn:Hy; [|done]. simpl. intros Hv.
  rewrite Forall_lookup in Hx. destruct (Hx _ _ Hb) as [HH Himg].
  rewrite Forall_lookup in Himg. destruct (Himg _ _ Hy) as [HW Hrow].
  rewrite Forall_lookup in Hrow.
  apply lookup_lt_Some in Hb, Hy. pose proof (lookup_lt_Some _ _ _ Hv).
  repeat split; try lia. eauto.
Qed.

Lemma cell_at_is_Some B H W C x b y cx :
  has_shape4 B H W C x → (b < B)%nat → (y < H)%nat → (cx < W)%nat →
  is_Some (cell_at x b y cx).
Proof.
  intros [HB Hx] Hb Hy Hcx. unfold cell_at.
  destruct (lookup_lt_is_Some_2 x b) as [img Himg]; [lia|]. rewrite Himg. simpl.
  rewrite Forall_lookup in Hx. destruct (Hx _ _ Himg) as [HH Hrows].
  destruct (lookup_lt_is_Some_2 img y) as [row Hrow]; [lia|]. rewrite Hrow. simpl.
  rewrite Forall_lookup in Hrows. destruct (Hrows _ _ Hrow) as [HW _].
  apply lookup_lt_is_Some_2. lia.
Qed.

(** [call] on a well-shaped input: the output exists, has the shape
    [(B, 3 * H * W, K)], and every box is the decoded box of one cell and
    one anchor slot. *)
Lemma call_with_decoded forced h B H W K x :
  has_shape4 B H W (3 * K) x →
  (1 ≤ B)%nat → (1 ≤ H)%nat → (1 ≤ W)%nat → (4 ≤ K)%nat →
  length (_anchors h) = 3%nat →
  ∃ out,
    call_with forced (set_geometry h (geometry_of H W (3 * K))) x = Some out
    ∧ has_shape3 B (3 * (H * W)) K out
    ∧ (∀ b y cx v i a,
         cell_at x b y cx = Some v → (i < 3)%nat → _anchors h !! i = Some a →
         box_at out b (i * (H * W) + y * W + cx)
         = Some (decoded_box (scale_fn forced (_scale_x_y h)) H W a
                   (_inver_image_wh h) y cx (py_slice (i * K) ((i + 1) * K) v)))
    ∧ (∀ b n box,
         box_at out b n = Some box →
         ∃ y cx v i a,
           cell_at x b y cx = Some v ∧ (i < 3)%nat ∧ _anchors h !! i = Some a
           ∧ n = (i * (H * W) + y * W + cx)%nat).
Proof.
  intros Hx HB HH HW HK Hanch.
  destruct (_anchors h) as [|a0 [|a1 [|a2 [|]]]] eqn:Ha; try discriminate.
  clear Hanch.
  eexists. split.
  { apply (call_with_raw forced h B H W K x a0 a1 a2); try done; by rewrite Ha. }
  set (f := λ img, (boxes_of forced h H W K a0 0 img ++ _) ++ _).
  assert (has_shape3 B (3 * (H * W)) K (f <$> x)) as Hout.
  { replace (3 * (H * W))%nat with (H * W + H * W + H * W)%nat by lia.
    assert (f <$> x
            = zip_with app
                (zip_with app (boxes_of forced h H W K a0 0 <$> x)
                   (boxes_of forced h H W K a1 1 <$> x))
                (boxes_of forced h H W K a2 2 <$> x)) as ->
      by by rewrite !zip_with_fmap_same.
    repeat apply has_shape3_zip_app; apply has_shape3_boxes_of; done || lia. }
  assert (∀ b y cx v i a,
    cell_at x b y cx = Some v → (i < 3)%nat → [a0; a1; a2] !! i = Some a →
    box_at (f <$> x) b (i * (H * W) + y * W + cx)
    = Some (decoded_box (scale_fn forced (_scale_x_y h)) H W a
              (_inver_image_wh h) y cx (py_slice (i * K) ((i + 1) * K) v))) as Hfwd.
  { intros b y cx v i a Hv Hi Hai.
    destruct (cell_at_shape _ _ _ _ _ _ _ _ _ Hx Hv) as (_ & _ & _ & Hlen).
    unfold cell_at in Hv. unfold box_at. rewrite list_lookup_fmap.
    destruct (x !! b) as [img|] eqn:Hb; [|done]. simpl in *.
    destruct (img !! y) as [row|] eqn:Hy; [|done]. simpl in *.
    destruct Hx as [_ Hx]. rewrite Forall_lookup in Hx.
    destruct (Hx _ _ Hb) as [Himg Hrows].
    unfold f. rewrite <- Nat.add_assoc.
    erewrite lookup_call_boxes; [|done| |done..].
    2:{ eapply Forall_impl; [exact Hrows|]. by intros r [? _]. }
    rewrite cell_raw_decoded by done. do 3 f_equal.
    destruct i as [|[|[|]]]; simpl in Hai |- *; by simplify_eq || lia. }
  split; [done|]. split; [done|].
  intros b n box Hbox.
  assert (b < B ∧ n < 3 * (H * W))%nat as [Hb Hn].
  { unfold box_at in Hbox. destruct ((f <$> x) !! b) as [bs|] eqn:Hbs; [|done].
    simpl in Hbox. destruct Hout as [Hl Hall].
    rewrite Forall_lookup in Hall. destruct (Hall _ _ Hbs) as [Hlb _].
    apply lookup_lt_Some in Hbs, Hbox. lia. }
  assert (0 < H * W)%nat as HHW by nia.
  set (i := (n `div` (H * W))%nat). set (r := (n `mod` (H * W))%nat).
  assert (n = i * (H * W) + r)%nat as Hnir
    by (unfold i, r; rewrite (Nat.div_mod_eq n (H * W)) at 1; lia).
  assert (r < H * W)%nat as Hr by (apply Nat.mod_upper_bound; lia).
  assert (i < 3)%nat as Hi by (apply Nat.Div0.div_lt_upper_bound; lia).
  set (y := (r `div` W)%nat). set (cx := (r `mod` W)%nat).
  assert (r = y * W + cx)%nat as Hryc
    by (unfold y, cx; rewrite (Nat.div_mod_eq r W) at 1; lia).
  assert (cx < W)%nat as Hcx by (apply Nat.mod_upper_bound; lia).
  assert (y < H)%nat as Hy by (apply Nat.Div0.div_lt_upper_bound; lia).
  destruct (cell_at_is_Some _ _ _ _ _ b y cx Hx Hb Hy Hcx) as [v Hv].
  destruct (lookup_lt_is_Some_2 [a0; a1; a2] i) as [a Hai]; [simpl; lia|].
  exists y, cx, v, i, a. repeat split; [done..|lia].
Qed.

(** ** Element-wise maps commute with splitting *)

Lemma reshape_fmap {A B} (f : A → B) sizes (v : list A) :
  reshape sizes (f <$> v) = (λ p : list A, f <$> p) <$> reshape sizes v.
Proof.
  revert v. induction sizes as [|s sizes IH]; intros v; [done|].
  csimpl. by rewrite <- fmap_take, <- fmap_drop, IH.
Qed.

Lemma part_of_fmap f sizes k v :
  part_of sizes k (f <$> v) = f <$> part_of sizes k v.
Proof.
  unfold part_of. rewrite reshape_fmap, list_lookup_fmap.
  by destruct (reshape sizes v !! k).
Qed.

Lemma hd_nil_fmap {A B} (f : list A → list B) (l : list (list A)) :
  f [] = [] → hd_nil (f <$> l) = f (hd_nil l).
Proof. intros Hf. by destruct l. Qed.

Lemma channels4_map_elems f x : channels4 (map_elems4 f x) = channels4 x.
Proof.
  unfold channels4, shape4, map_elems4, map_cells4. cbn [snd].
  rewrite !hd_nil_fmap by done. by rewrite length_fmap.
Qed.

Lemma tf_split4_map_elems f x spec :
  tf_split4 (map_elems4 f x) spec
  = (λ parts : list tensor4, map_elems4 f <$> parts) <$> tf_split4 x spec.
Proof.
  unfold tf_split4. rewrite channels4_map_elems.
  destruct (split_sizes spec (channels4 x)) as [sizes|]; [|done].
  cbn [mbind option_bind fmap option_fmap option_map]. f_equal.
  rewrite fmap_imap. apply imap_ext; intros k s _. simpl.
  unfold map_elems4. rewrite !map_cells4_compose.
  apply map_cells4_ext; intros v. apply part_of_fmap.
Qed.

(** ** The scale correction at scale 1 *)

Lemma map_elems4_ext f g t :
  (∀ r, f r = g r) → map_elems4 f t = map_elems4 g t.
Proof.
  intros Hfg. unfold map_elems4. apply map_cells4_ext; intros v.
  apply list_fmap_ext; intros _ r _. apply Hfg.
Qed.

Lemma scale_xy_one forced xy : scale_xy forced 1 xy = xy.
Proof.
  unfold scale_xy. destruct forced.
  - rewrite <- (map_elems4_id xy) at 2. apply map_elems4_ext; intros r. lra.
  - by destruct (Req_dec_T 1 1).
Qed.

Lemma scale_fn_one forced r : scale_fn forced 1 r = r.
Proof.
  unfold scale_fn. destruct forced; [lra|]. by destruct (Req_dec_T 1 1).
Qed.

Lemma decode_anchor_forced_one h g raw_split sig_split i :
  _scale_x_y h = 1 →
  decode_anchor true h g raw_split sig_split i
  = decode_anchor false h g raw_split sig_split i.
Proof.
  intros Hs. unfold decode_anchor. rewrite Hs.
  destruct (sig_split !! i) as [sig_i|]; [|done]. cbn [mbind option_bind].
  destruct (tf_split4 sig_i _) as [sig_parts|]; [|done]. cbn [mbind option_bind].
  destruct (raw_split !! i) as [raw_i|]; [|done]. cbn [mbind option_bind].
  destruct (tf_split4 raw_i _) as [raw_parts|]; [|done]. cbn [mbind option_bind].
  destruct sig_parts as [|xy [|? [|oc [|]]]]; try done.
  destruct raw_parts as [|? [|wh [|? [|]]]]; try done.
  by rewrite !scale_xy_one.
Qed.

Lemma call_forced_one h x :
  _scale_x_y h = 1 → call h x = call_forced_scale h x.
Proof.
  intros Hs. unfold call, call_forced_scale, call_with.
  destruct (tf_split4 x (Num 3)) as [raw_split|]; [|done]. cbn [mbind option_bind].
  destruct (tf_split4 (map_elems4 sigmoid x) (Num 3)) as [sig_split|]; [|done].
  cbn [mbind option_bind].
  destruct (built h) as [g|]; [|done]. cbn [mbind option_bind].
  erewrite (mapM_ext (decode_anchor true h g raw_split sig_split)); [done|].
  intros i. by apply decode_anchor_forced_one.
Qed.

(** ** One split or two *)

(** Reading [xy] and the scores from the split of the activated tensor is
    reading them from the split of the raw tensor and activating them. *)
Lemma decode_anchor_split_commute h g raw_split i :
  decode_anchor false h g raw_split
    ((λ part : tensor4, map_elems4 sigmoid part) <$> raw_split) i
  = decode_anchor_single h g raw_split i.
Proof.
  unfold decode_anchor, decode_anchor_single. rewrite list_lookup_fmap.
  destruct (raw_split !! i) as [raw_i|]; [|done].
  cbn [mbind option_bind fmap option_fmap option_map].
  rewrite tf_split4_map_elems.
  destruct (tf_split4 raw_i _) as [parts|]; [|done].
  cbn [mbind option_bind fmap option_fmap option_map].
  by destruct parts as [|xy [|wh [|oc [|]]]].
Qed.

Lemma init_fields config name h net :
  YOLOv3Head.__init__ config name = Some h →
  config_get config "net" = Some net →
  _inver_image_wh h = (1 / IZR (opt_width net), 1 / IZR (opt_height net))
  ∧ built h = None
  ∧ ∃ own, config_get config name = Some own
           ∧ _scale_x_y h = opt_scale_x_y own
           ∧ mapM (py_index (opt_anchors own)) (opt_mask own) = Some (_anchors h).
Proof.
  unfold YOLOv3Head.__init__. intros Hh Hnet.
  destruct (config_get config name) as [own|]; [|done].
  cbn [mbind option_bind] in Hh.
  destruct (mapM _ (opt_mask own)) as [anchors|] eqn:Hm; [|done].
  cbn [mbind option_bind] in Hh. rewrite Hnet in Hh.
  cbn [mbind option_bind] in Hh. unfold py_inv in Hh.
  repeat case_decide; try done. cbn [mbind option_bind] in Hh.
  simplify_eq. cbn. eauto 10.
Qed.

(** ** The decoded boxes of a head *)

Lemma init_head_416 : YOLOv3Head.__init__ config_416 "yolo_0" = Some head_416.
Proof. reflexivity. Qed.

Lemma raw_2x2_shape : has_shape4 1 2 2 (3 * 85) raw_2x2.
Proof.
  split; [done|]. repeat constructor.
Qed.

Lemma build_head_416 :
  build head_416 (shape_list raw_2x2) = Some head_416_built.
Proof. apply (build_geometry_of head_416 1 2 2 255); lia. Qed.

Lemma call_head_416_is_Some : is_Some (call head_416_built raw_2x2).
Proof.
  destruct (call_with_decoded false head_416 1 2 2 85 raw_2x2)
    as (out & Hcall & _); [apply raw_2x2_shape|lia..|done|].
  by exists out.
Qed.

(** C2: every box of the output of [call] is decoded from one cell and one
    anchor slot [i] (it is the box number [i * (H * W) + y * W + cx] of its
    image): [xy] is the (scale-corrected) sigmoid of the raw [xy] times the
    inverse grid size [(1 / W, 1 / H)] plus the grid coordinate
    [(cx / W, y / H)] of the cell, as [build] has stored them, and [wh] is
    [exp] of the raw [wh] times anchor [i] times the inverse image size
    [(1 / width, 1 / height)]. For a [(1, 2, 2, 255)] input, the anchors
    [(10,13), (16,30), (33,23)], scale 1 and a 416x416 image the output has
    shape [(1, 12, 85)], and its box for cell (0,0) and anchor 0 has [x, y]
    in [[0, 0.5]] and [w, h] equal to [exp rawW * 10 / 416] and
    [exp rawH * 13 / 416]. *)
Theorem head_decode_box config name h net B H W K x :
  YOLOv3Head.__init__ config name = Some h →
  config_get config "net" = Some net →
  length (_anchors h) = 3%nat →
  has_shape4 B H W (3 * K) x →
  (1 ≤ B)%nat → (1 ≤ H)%nat → (1 ≤ W)%nat → (4 ≤ K)%nat →
  ∃ h' out,
    build h (shape_list x) = Some h'
    ∧ (∃ g, built h' = Some g
            ∧ _inver_grid_wh g = (1 / INR W, 1 / INR H)
            ∧ ∀ y cx, (y < H)%nat → (cx < W)%nat →
                (row ← _grid_coord g !! y; row !! cx)
                = Some (INR cx / INR W, INR y / INR H))
    ∧ call h' x = Some out
    ∧ has_shape3 B (3 * (H * W)) K out
    ∧ (∀ b y cx v i a,
         cell_at x b y cx = Some v → (i < 3)%nat → _anchors h !! i = Some a →
         box_at out b (i * (H * W) + y * W + cx)
         = Some (decoded_box (scale_fn false (_scale_x_y h)) H W a
                   (1 / IZR (opt_width net), 1 / IZR (opt_height net)) y cx
                   (py_slice (i * K) ((i + 1) * K) v)))
    ∧ (B = 1%nat → H = 2%nat → W = 2%nat → K = 85%nat →
       _anchors h = [(10, 13); (16, 30); (33, 23)] → _scale_x_y h = 1 →
       opt_width net = 416%Z → opt_height net = 416%Z →
       has_shape3 1 12 85 out
       ∧ ∀ rx ry rw rh rest,
           cell_at x 0 0 0 = Some (rx :: ry :: rw :: rh :: rest) →
           ∃ bx by_ tail,
             box_at out 0 0
             = Some (bx :: by_ :: exp rw * 10 / 416 :: exp rh * 13 / 416 :: tail)
             ∧ 0 <= bx <= 0.5 ∧ 0 <= by_ <= 0.5).
Proof.
  intros Hinit Hnet Hanch Hx HB HH HW HK.
  destruct (init_fields _ _ _ _ Hinit Hnet) as (Hiwh & _ & _).
  destruct (call_with_decoded false h B H W K x Hx HB HH HW HK Hanch)
    as (out & Hcall & Hshape & Hfwd & _).
  exists (set_geometry h (geometry_of H W (3 * K))), out.
  split.
  { rewrite (shape_list_has_shape B H W (3 * K)) by done.
    by apply build_geometry_of. }
  split.
  { exists (geometry_of H W (3 * K)). split; [done|]. split; [done|].
    intros y cx Hy Hcx. by apply grid_table_lookup. }
  split; [done|]. split; [done|]. split.
  { intros b y cx v i a Hv Hi Ha. rewrite <- Hiwh. by apply Hfwd. }
  intros -> -> -> -> Ha Hs Hw Hh. split; [done|].
  intros rx ry rw rh rest Hcell.
  destruct (cell_at_shape _ _ _ _ _ _ _ _ _ Hx Hcell) as (_ & _ & _ & Hlen).
  specialize (Hfwd 0%nat 0%nat 0%nat _ 0%nat (10, 13) Hcell).
  rewrite Ha in Hfwd. specialize (Hfwd ltac:(lia) eq_refl).
  unfold py_slice in Hfwd.
  cbn [Nat.mul Nat.add Nat.sub drop take decoded_box fst snd] in Hfwd.
  rewrite Hfwd, Hs, Hiwh, Hw, Hh. cbn [fst snd].
  rewrite !scale_fn_one.
  replace (INR 0) with 0 by done. replace (INR 2) with 2 by (simpl; lra).
  replace (exp rw * 10 * (1 / 416)) with (exp rw * 10 / 416) by (unfold Rdiv; ring).
  replace (exp rh * 13 * (1 / 416)) with (exp rh * 13 / 416) by (unfold Rdiv; ring).
  eexists _, _, _. split.
  - reflexivity.
  - pose proof (sigmoid_bounds rx). pose proof (sigmoid_bounds ry). lra.
Qed.

Lemma head_decode_box_witness :
  ∃ out, call head_416_built raw_2x2 = Some out ∧ has_shape3 1 12 85 out.
Proof.
  destruct (head_decode_box config_416 "yolo_0" head_416 (net_option 416 416)
              1 2 2 85 raw_2x2)
    as (h' & out & Hb & _ & Hcall & Hshape & _);
    [reflexivity|reflexivity|reflexivity|apply raw_2x2_shape|lia..|].
  rewrite build_head_416 in Hb. injection Hb as <-.
  by exists out.
Defined.

(** C1 (as amended): sigmoid is applied to the whole raw tensor before the
    splits, [xy] and the objectness/class scores are read from the split of
    the activated tensor and [wh] from the split of the raw tensor with
    [exp] applied; sigmoid being element-wise, the result is the same as
    that of the variant that splits the raw tensor once and activates each
    part after the split. *)
Theorem call_dual_split_eq_single_split (h : YOLOv3Head.t) (x : tensor4) :
  call h x = call_single_split h x.
Proof.
  unfold call, call_with, call_single_split.
  rewrite tf_split4_map_elems.
  destruct (tf_split4 x (Num 3)) as [raw_split|]; [|done].
  cbn [mbind option_bind fmap option_fmap option_map].
  destruct (built h) as [g|]; [|done]. cbn [mbind option_bind].
  erewrite mapM_ext; [done|]. intros i. apply decode_anchor_split_commute.
Qed.

(** C1 as stated fails: on this input the two-split decode succeeds and
    returns the same tensor as the single-split variant. *)
Lemma call_same_as_single_split_example :
  is_Some (call head_416_built raw_2x2)
  ∧ call head_416_built raw_2x2 = call_single_split head_416_built raw_2x2.
Proof.
  split; [apply call_head_416_is_Some|].
  unfold call, call_with, call_single_split.
  rewrite tf_split4_map_elems.
  destruct (tf_split4 raw_2x2 (Num 3)) as [raw_split|]; [|done].
  cbn [mbind option_bind fmap option_fmap option_map built head_416_built
       set_geometry].
  erewrite mapM_ext; [done|]. intros i. apply decode_anchor_split_commute.
Qed.

(** C3: for a grid of [H >= 1] rows and [W >= 1] columns, [build]
    succeeds and the head then holds [H] rows of [W] pairs ([H * W] pairs
    in all), the pair at row [y] and column [x] being [(x / W, y / H)] and
    no pair occurring twice, and the inverse grid size [(1 / W, 1 / H)];
    what is stored depends on [H] and [W] only: any head built for a shape
    with the same [H] and [W] holds the same table and the same inverse
    size. *)
Theorem build_grid_geometry (h : YOLOv3Head.t) (B H W F : nat) :
  (1 ≤ H)%nat → (1 ≤ W)%nat →
  ∃ h' g,
    build h [B; H; W; F] = Some h'
    ∧ built h' = Some g
    ∧ length (_grid_coord g) = H
    ∧ Forall (λ row, length row = W) (_grid_coord g)
    ∧ length (mjoin (_grid_coord g)) = (H * W)%nat
    ∧ (∀ y x, (y < H)%nat → (x < W)%nat →
         (row ← _grid_coord g !! y; row !! x)
         = Some (INR x / INR W, INR y / INR H))
    ∧ NoDup (mjoin (_grid_coord g))
    ∧ _inver_grid_wh g = (1 / INR W, 1 / INR H)
    ∧ (∀ h2 B' F', ∃ h2' g',
         build h2 [B'; H; W; F'] = Some h2'
         ∧ built h2' = Some g'
         ∧ _grid_coord g' = _grid_coord g
         ∧ _inver_grid_wh g' = _inver_grid_wh g).
Proof.
  intros HH HW.
  exists (set_geometry h (geometry_of H W F)), (geometry_of H W F).
  destruct (grid_table_rows H W) as [Hlen Hrows].
  split; [by apply build_geometry_of|]. split; [done|].
  cbn [_grid_coord _inver_grid_wh geometry_of].
  split; [done|]. split; [done|].
  split; [by rewrite (length_join_const W), Hlen|].
  split; [intros; by apply grid_table_lookup|].
  split; [by apply grid_table_NoDup|]. split; [done|].
  intros h2 B' F'.
  exists (set_geometry h2 (geometry_of H W F')), (geometry_of H W F').
  split; [by apply build_geometry_of|done].
Qed.

Lemma build_grid_geometry_witness :
  ∃ h' g, build head_416 [1; 13; 13; 255]%nat = Some h'
          ∧ built h' = Some g
          ∧ length (mjoin (_grid_coord g)) = 169%nat
          ∧ NoDup (mjoin (_grid_coord g))
          ∧ _inver_grid_wh g = (1 / INR 13, 1 / INR 13).
Proof.
  destruct (build_grid_geometry head_416 1 13 13 255)
    as (h' & g & ? & ? & _ & _ & ? & _ & ? & ? & _); [lia..|].
  by exists h', g.
Defined.

(** C4 (as amended): with [scale_x_y = 1] the correction step is skipped,
    [xy] being used as the sigmoid returned it. With real numbers as
    elements, [call] returns what it returns when the branch is evaluated
    as [(xy - 0.5) * 1 + 0.5]: the two are equal as functions of the input.
    On float32 elements the skipped branch still leaves [xy] as it is, but
    the evaluated arithmetic is not the identity: it rounds, so the two
    are not equal bit for bit. *)
Theorem call_scale_one_exact_not_bitwise (h : YOLOv3Head.t) (x : tensor4) :
  _scale_x_y h = 1 →
  (∀ xy, scale_xy false (_scale_x_y h) xy = xy)
  ∧ call h x = call_forced_scale h x
  ∧ (∀ xy, scale_xy_f32 false float_one xy = xy)
  ∧ ∃ v, valid_binary float32.prec float32.emax v = true
         ∧ scale_xy_f32 true float_one [[[[v]]]] ≠ [[[[v]]]].
Proof.
  intros Hs. split; [intros xy; rewrite Hs; apply scale_xy_one|].
  split; [by apply call_forced_one|]. split; [done|].
  exists sigmoid_small_f32. split; by vm_compute.
Qed.

Lemma call_scale_one_exact_not_bitwise_witness :
  _scale_x_y head_416_built = 1
  ∧ call head_416_built raw_2x2 = call_forced_scale head_416_built raw_2x2.
Proof.
  split; [reflexivity|].
  by destruct (call_scale_one_exact_not_bitwise head_416_built raw_2x2)
    as (_ & ? & _).
Defined.

(** C4 as stated fails: on float32 elements, at scale [1.0], the
    evaluated arithmetic turns the value [9282611 * 2^-52] into [0.0] while
    the skipped branch keeps it, and the decoded [x] of the box of cell
    [(0, 0)] of a grid of width 2 differs accordingly (0 instead of
    [9282611 * 2^-53]). *)
Lemma forced_scale_rounds_in_float32 :
  valid_binary 53 1024 float_one = true
  ∧ valid_binary 53 1024 float_half = true
  ∧ valid_binary float32.prec float32.emax sigmoid_small_f32 = true
  ∧ scale_xy_f32 false float_one [[[[sigmoid_small_f32; sigmoid_small_f32]]]]
    = [[[[sigmoid_small_f32; sigmoid_small_f32]]]]
  ∧ scale_xy_f32 true float_one [[[[sigmoid_small_f32; sigmoid_small_f32]]]]
    = [[[[S754_zero false; S754_zero false]]]]
  ∧ scale_xy_f32 true float_one [[[[sigmoid_small_f32; sigmoid_small_f32]]]]
    ≠ scale_xy_f32 false float_one [[[[sigmoid_small_f32; sigmoid_small_f32]]]]
  ∧ decode_xy_f32 false float_one float_half (S754_zero false) sigmoid_small_f32
    = S754_finite false 9282611 (-53)
  ∧ decode_xy_f32 true float_one float_half (S754_zero false) sigmoid_small_f32
    = S754_zero false.
Proof. repeat split; by vm_compute. Qed.

(** C5: with [scale_x_y = 1], every box of the output of [call] starts
    with [x] and [y] in [[0, 1]]: the box belongs to a cell [(y, cx)] and
    [cx / W <= x <= (cx + 1) / W], [y / H <= y <= (y + 1) / H]. *)
Theorem decoded_xy_in_unit_interval (h : YOLOv3Head.t) B H W K (x : tensor4) :
  _scale_x_y h = 1 →
  length (_anchors h) = 3%nat →
  has_shape4 B H W (3 * K) x →
  (1 ≤ B)%nat → (1 ≤ H)%nat → (1 ≤ W)%nat → (4 ≤ K)%nat →
  ∃ h' out,
    build h (shape_list x) = Some h' ∧ call h' x = Some out
    ∧ ∀ b n box,
        box_at out b n = Some box →
        ∃ bx by_ rest (cy cx : nat),
          box = bx :: by_ :: rest
          ∧ (cy < H)%nat ∧ (cx < W)%nat
          ∧ INR cx / INR W <= bx <= (INR cx + 1) / INR W
          ∧ INR cy / INR H <= by_ <= (INR cy + 1) / INR H
          ∧ 0 <= bx <= 1 ∧ 0 <= by_ <= 1.
Proof.
  intros Hs Hanch Hx HB HH HW HK.
  destruct (call_with_decoded false h B H W K x Hx HB HH HW HK Hanch)
    as (out & Hcall & Hshape & Hfwd & Hbwd).
  exists (set_geometry h (geometry_of H W (3 * K))), out.
  split.
  { rewrite (shape_list_has_shape B H W (3 * K)) by done.
    by apply build_geometry_of. }
  split; [done|]. intros b n box Hbox.
  destruct (Hbwd b n box Hbox) as (cy & cx & v & i & a & Hv & Hi & Ha & ->).
  rewrite (Hfwd b cy cx v i a Hv Hi Ha) in Hbox.
  destruct (cell_at_shape _ _ _ _ _ _ _ _ _ Hx Hv) as (_ & Hcy & Hcx & Hlen).
  pose proof (length_py_slice_thirds K i v Hi Hlen) as Hc.
  destruct (py_slice (i * K) ((i + 1) * K) v) as [|rx [|ry [|rw [|rh rest]]]];
    simpl in Hc; try lia.
  cbn [decoded_box app] in Hbox. rewrite Hs, !scale_fn_one in Hbox.
  simplify_eq. eexists _, _, _, cy, cx. split; [done|].
  destruct (cell_offset_bounds (sigmoid rx) cx W (sigmoid_bounds rx) Hcx)
    as ([? ?] & ? & ?).
  destruct (cell_offset_bounds (sigmoid ry) cy H (sigmoid_bounds ry) Hcy)
    as ([? ?] & ? & ?).
  repeat split; done || lra.
Qed.

Lemma decoded_xy_in_unit_interval_witness :
  ∃ out, call head_416_built raw_2x2 = Some out
    ∧ ∀ b n box, box_at out b n = Some box →
        ∃ bx by_ rest, box = bx :: by_ :: rest ∧ 0 <= bx <= 1 ∧ 0 <= by_ <= 1.
Proof.
  destruct (decoded_xy_in_unit_interval head_416 1 2 2 85 raw_2x2)
    as (h' & out & Hb & Hcall & Hall);
    [reflexivity|reflexivity|apply raw_2x2_shape|lia..|].
  rewrite build_head_416 in Hb. injection Hb as <-.
  exists out. split; [done|]. intros b n box Hbox.
  destruct (Hall b n box Hbox) as (bx & by_ & rest & _ & _ & -> & _ & _ & _ & _ & ? & ?).
  by exists bx, by_, rest.
Defined.

(** ** Route with groups *)

Lemma split_sizes_num (g s : nat) :
  (1 ≤ g)%nat → split_sizes (Num (Z.of_nat g)) (g * s) = Some (replicate g s).
Proof.
  intros Hg. unfold split_sizes. rewrite decide_True by lia.
  rewrite Nat2Z.id.
  rewrite decide_True by (rewrite Nat.mul_comm; apply Nat.Div0.mod_mul).
  by rewrite (Nat.mul_comm g s), Nat.div_mul by lia.
Qed.

Lemma part_of_replicate g s k (v : list R) :
  (k < g)%nat → part_of (replicate g s) k v = py_slice (k * s) ((k + 1) * s) v.
Proof.
  intros Hk. unfold part_of, py_slice.
  rewrite lookup_reshape_replicate by done. simpl. f_equal. lia.
Qed.

Lemma imap_index_only {A B} (f : nat → B) (l : list A) :
  imap (λ k _, f k) l = f <$> seq 0 (length l).
Proof. apply (imap_seq_0 l f). Qed.

(** The parts of an even split are the consecutive channel slices. *)
Lemma tf_split4_even B H W g s x :
  has_shape4 B H W (g * s) x →
  (1 ≤ B)%nat → (1 ≤ H)%nat → (1 ≤ W)%nat → (1 ≤ g)%nat →
  tf_split4 x (Num (Z.of_nat g))
  = Some ((λ k, map_cells4 (py_slice (k * s) ((k + 1) * s)) x) <$> seq 0 g).
Proof.
  intros Hx ? ? ? Hg.
  rewrite (tf_split4_plain B H W (g * s) x _ (replicate g s))
    by (done || by apply split_sizes_num).
  f_equal. rewrite (imap_index_only (λ k, map_cells4 (λ v, part_of (replicate g s) k v) x)).
  rewrite length_replicate. apply list_fmap_ext; intros i k Hk.
  apply lookup_seq in Hk as [-> Hk]. apply map_cells4_ext; intros v.
  by apply part_of_replicate.
Qed.

Lemma cat_last_map_cells f g x :
  cat_last (map_cells4 f x) (map_cells4 g x) = Some (map_cells4 (λ v, f v ++ g v) x).
Proof.
  rewrite !map_cells4_imap_cells. apply cat_last_imap_cells.
Qed.

Lemma map_cells4_shape_ext B H W C f g x :
  has_shape4 B H W C x → (∀ v, length v = C → f v = g v) →
  map_cells4 f x = map_cells4 g x.
Proof.
  intros Hx Hfg. rewrite !map_cells4_imap_cells.
  apply (imap_cells_ext B H W C); [done|]. intros. by apply Hfg.
Qed.

Lemma concat_slices_prefix s x k n :
  foldl (λ acc u, acc ≫= λ a, cat_last a u)
    (Some (map_cells4 (take (k * s)) x))
    ((λ j, map_cells4 (py_slice (j * s) ((j + 1) * s)) x) <$> seq k n)
  = Some (map_cells4 (take ((k + n) * s)) x).
Proof.
  revert k. induction n as [|n IH]; intros k.
  - simpl. by rewrite Nat.add_0_r.
  - cbn [seq fmap list_fmap foldl mbind option_bind].
    rewrite cat_last_map_cells.
    erewrite (map_cells4_ext _ (take (S k * s))).
    + rewrite (IH (S k)). do 3 f_equal. lia.
    + intros v. unfold py_slice.
      replace ((k + 1) * s - k * s)%nat with s by lia.
      rewrite take_take_drop. f_equal. lia.
Qed.

(** Concatenating the parts of an even split gives the tensor back. *)
Lemma tf_concat_last_slices B H W g s x :
  has_shape4 B H W (g * s) x → (1 ≤ g)%nat →
  tf_concat_last ((λ k, map_cells4 (py_slice (k * s) ((k + 1) * s)) x) <$> seq 0 g)
  = Some x.
Proof.
  intros Hx Hg. destruct g as [|g]; [lia|].
  cbn [seq fmap list_fmap tf_concat_last].
  erewrite (map_cells4_ext _ (take (1 * s))).
  2:{ intros v. unfold py_slice. rewrite drop_0. f_equal. lia. }
  rewrite concat_slices_prefix.
  rewrite <- (map_cells4_id x) at 2. f_equal.
  apply (map_cells4_shape_ext B H W (S g * s)); [done|].
  intros v Hv. apply take_ge. lia.
Qed.

Lemma has_shape4_map_cells B H W C C' f x :
  has_shape4 B H W C x → (∀ v, length v = C → length (f v) = C') →
  has_shape4 B H W C' (map_cells4 f x).
Proof.
  intros Hx Hf. rewrite map_cells4_imap_cells.
  apply (has_shape4_imap_cells B H W C); [done|]. intros. by apply Hf.
Qed.

Lemma length_py_slice_part {A} s k g (v : list A) :
  (k < g)%nat → length v = (g * s)%nat →
  length (py_slice (k * s) ((k + 1) * s) v) = s.
Proof. intros. unfold py_slice. rewrite length_take, length_drop. nia. Qed.

Lemma split_and_get_even B H W (g s gid : nat) x :
  has_shape4 B H W (g * s) x →
  (1 ≤ B)%nat → (1 ≤ H)%nat → (1 ≤ W)%nat → (gid < g)%nat →
  _split_and_get (Z.of_nat g) (Z.of_nat gid) (T4 x)
  = Some (T4 (map_cells4 (py_slice (gid * s) ((gid + 1) * s)) x)).
Proof.
  intros Hx ? ? ? Hgid. unfold _split_and_get, tf_split.
  rewrite (tf_split4_even B H W g s) by (done || lia).
  cbn [fmap option_fmap option_map mbind option_bind].
  rewrite py_index_nonneg, !list_lookup_fmap, lookup_seq_lt by done.
  done.
Qed.

(** C7: a route with [groups] on a tensor whose channel depth [C] is a
    multiple of [groups]: the layer built for it is [_split_and_get]; the
    split has [groups] parts of [C / groups] channels that concatenate back
    to the tensor, and the part selected by [group_id] is the channel slice
    [[group_id * C/groups : (group_id + 1) * C/groups]]. *)
Theorem route_groups_slice B H W (groups s group_id : nat) (x : tensor4) :
  has_shape4 B H W (groups * s) x →
  (1 ≤ B)%nat → (1 ≤ H)%nat → (1 ≤ W)%nat → (group_id < groups)%nat →
  ((groups * s) `div` groups = s)%nat
  ∧ (∃ parts,
       tf_split4 x (Num (Z.of_nat groups)) = Some parts
       ∧ length parts = groups
       ∧ Forall (has_shape4 B H W s) parts
       ∧ tf_concat_last parts = Some x)
  ∧ _split_and_get (Z.of_nat groups) (Z.of_nat group_id) (T4 x)
    = Some (T4 (map_cells4 (py_slice (group_id * s) ((group_id + 1) * s)) x))
  ∧ has_shape4 B H W s
      (map_cells4 (py_slice (group_id * s) ((group_id + 1) * s)) x)
  ∧ (∀ config layers _l2 layer_name layer_option,
       opt_type layer_option = "route" →
       opt_groups layer_option = Some (Z.of_nat groups) →
       opt_group_id layer_option = Z.of_nat group_id →
       YOLOv4Model.init_step config (layers, _l2) (layer_name, layer_option)
       = Some (layers ++ [YOLOv4Model.SplitAndGet (Z.of_nat groups)
                            (Z.of_nat group_id)], _l2))
  ∧ (∀ conv cat add pool up,
       YOLOv4Model.apply_layer conv cat add pool up
         (YOLOv4Model.SplitAndGet (Z.of_nat groups) (Z.of_nat group_id))
         (YOLOv4Model.One (T4 x))
       = Some (YOLOv4Model.SplitAndGet (Z.of_nat groups) (Z.of_nat group_id),
               T4 (map_cells4 (py_slice (group_id * s) ((group_id + 1) * s)) x))).
Proof.
  intros Hx ? ? ? Hgid.
  assert (1 ≤ groups)%nat as Hg by lia.
  split; [rewrite Nat.mul_comm; apply Nat.div_mul; lia|].
  split.
  { eexists. split; [by apply (tf_split4_even B H W groups s)|].
    split; [by rewrite length_fmap, length_seq|].
    split; [|by apply (tf_concat_last_slices B H W)].
    rewrite Forall_fmap. apply Forall_forall. intros k Hk.
    apply list_elem_of_lookup in Hk as [i Hk]. apply lookup_seq in Hk as [-> Hk].
    apply (has_shape4_map_cells B H W (groups * s)); [done|].
    intros v Hv. by apply (length_py_slice_part s _ groups). }
  split; [by apply (split_and_get_even B H W groups s)|].
  split.
  { apply (has_shape4_map_cells B H W (groups * s)); [done|].
    intros v Hv. by apply (length_py_slice_part s _ groups). }
  split.
  { intros config layers _l2 layer_name lo Hty Hgr Hid.
    unfold YOLOv4Model.init_step. rewrite Hty, Hgr, Hid.
    rewrite decide_False by done. by rewrite decide_True. }
  intros conv cat add pool up. cbn [YOLOv4Model.apply_layer].
  by rewrite (split_and_get_even B H W groups s).
Qed.

Lemma route_groups_slice_witness :
  _split_and_get 2 1 (T4 feature_4) = Some (T4 [[[[3; 4]]]])
  ∧ tf_split4 feature_4 (Num 2) = Some [[[[[1; 2]]]]; [[[[3; 4]]]]].
Proof.
  destruct (route_groups_slice 1 1 1 2 2 1 feature_4)
    as (_ & (parts & Hsplit & _) & Hget & _);
    [split; [done|repeat constructor]|lia..|].
  split; [exact Hget|].
  rewrite (tf_split4_even 1 1 1 2 2); [done|split; [done|repeat constructor]|lia..].
Defined.

(** ** Validation of the head configuration *)

Lemma decode_anchor_no_anchor forced h g raw_split sig_split i :
  _anchors h !! i = None → decode_anchor forced h g raw_split sig_split i = None.
Proof.
  intros Ha. unfold decode_anchor. rewrite Ha.
  destruct (sig_split !! i) as [sig_i|]; [|done]. cbn [mbind option_bind].
  destruct (tf_split4 sig_i _) as [sig_parts|]; [|done]. cbn [mbind option_bind].
  destruct (raw_split !! i) as [raw_i|]; [|done]. cbn [mbind option_bind].
  destruct (tf_split4 raw_i _) as [raw_parts|]; [|done]. cbn [mbind option_bind].
  destruct sig_parts as [|xy [|? [|oc [|]]]]; try done.
  destruct raw_parts as [|? [|wh [|? [|]]]]; try done.
  by destruct (add_grid _ _).
Qed.

Lemma call_short_mask h x :
  (length (_anchors h) < 3)%nat → call h x = None.
Proof.
  intros Hlen. unfold call, call_with.
  destruct (tf_split4 x (Num 3)) as [raw_split|]; [|done]. cbn [mbind option_bind].
  destruct (tf_split4 _ (Num 3)) as [sig_split|]; [|done]. cbn [mbind option_bind].
  destruct (built h) as [g|]; [|done]. cbn [mbind option_bind].
  assert (mapM (decode_anchor false h g raw_split sig_split) (seq 0 3) = None) as ->;
    [|done].
  apply mapM_None. apply Exists_exists.
  exists (length (_anchors h)). split.
  - apply list_elem_of_lookup. exists (length (_anchors h)).
    by apply lookup_seq_lt.
  - apply decode_anchor_no_anchor. by apply lookup_ge_None.
Qed.

Lemma split_sizes_num_indivisible (n C : nat) :
  (C `mod` n ≠ 0)%nat → split_sizes (Num (Z.of_nat n)) C = None.
Proof.
  intros HC. unfold split_sizes. case_decide; [|done].
  rewrite Nat2Z.id. by rewrite decide_False.
Qed.

Lemma call_indivisible B H W C h x :
  has_shape4 B H W C x → (1 ≤ B)%nat → (1 ≤ H)%nat → (1 ≤ W)%nat →
  (C `mod` 3 ≠ 0)%nat →
  tf_split4 x (Num 3) = None ∧ call h x = None.
Proof.
  intros Hx ? ? ? HC.
  assert (tf_split4 x (Num 3) = None) as Hsplit.
  { unfold tf_split4, channels4. rewrite (shape4_has_shape B H W C) by done.
    cbn [snd]. change (Num 3) with (Num (Z.of_nat 3)).
    by rewrite (split_sizes_num_indivisible 3 C). }
  split; [done|]. unfold call, call_with. by rewrite Hsplit.
Qed.

Lemma mapM_length {A B} (f : A → option B) l k :
  mapM f l = Some k → length k = length l.
Proof. intros Hm. apply mapM_Some in Hm. by apply Forall2_length in Hm. Qed.

Lemma call_is_Some_three_anchors h B H W K x :
  has_shape4 B H W (3 * K) x →
  (1 ≤ B)%nat → (1 ≤ H)%nat → (1 ≤ W)%nat → (4 ≤ K)%nat →
  (3 ≤ length (_anchors h))%nat →
  is_Some (call (set_geometry h (geometry_of H W (3 * K))) x).
Proof.
  intros Hx ? ? ? ? Hlen.
  destruct (_anchors h) as [|a0 [|a1 [|a2 rest]]] eqn:Ha; simpl in Hlen; try lia.
  eexists. apply (call_with_raw false h B H W K x a0 a1 a2); try done;
    by rewrite Ha.
Qed.

(** C6 as stated fails: a head whose mask selects four anchors is built and
    decodes a raw tensor without any error. *)
Lemma head_four_anchors_accepted :
  ∃ h h',
    YOLOv3Head.__init__ config_mask4 "yolo_0" = Some h
    ∧ length (_anchors h) = 4%nat
    ∧ build h (shape_list raw_2x2) = Some h'
    ∧ is_Some (call h' raw_2x2).
Proof.
  exists head_mask4, (set_geometry head_mask4 (geometry_of 2 2 (3 * 85))).
  split; [reflexivity|]. split; [reflexivity|].
  split; [apply (build_geometry_of head_mask4 1 2 2 255); lia|].
  apply (call_is_Some_three_anchors head_mask4 1 2 2 85);
    [apply raw_2x2_shape|lia..|simpl; lia].
Qed.

(** C6 (as amended): neither [__init__] nor [build] checks the number of
    anchors or the channel count: [__init__] keeps one anchor per mask
    entry, whatever their number, and [build] accepts any channel count.
    The failures come from [call]: a channel count that is not a multiple
    of 3 is rejected by its first split, a mask of fewer than 3 entries
    makes it fail, and a mask of more than 3 entries is accepted. *)
Theorem head_configuration_unchecked config name own net anchors :
  config_get config name = Some own →
  config_get config "net" = Some net →
  opt_width net ≠ 0%Z → opt_height net ≠ 0%Z →
  mapM (py_index (opt_anchors own)) (opt_mask own) = Some anchors →
  ∃ h,
    YOLOv3Head.__init__ config name = Some h
    ∧ _anchors h = anchors
    ∧ length (_anchors h) = length (opt_mask own)
    ∧ ∀ B H W C x,
        has_shape4 B H W C x → (1 ≤ B)%nat → (1 ≤ H)%nat → (1 ≤ W)%nat →
        ∃ h',
          build h (shape_list x) = Some h'
          ∧ ((C `mod` 3 ≠ 0)%nat → tf_split4 x (Num 3) = None ∧ call h' x = None)
          ∧ ((length (opt_mask own) < 3)%nat → call h' x = None)
          ∧ ((3 ≤ length (opt_mask own))%nat → (C `mod` 3 = 0)%nat →
             (12 ≤ C)%nat → is_Some (call h' x)).
Proof.
  intros Hown Hnet Hw Hh Hmask.
  eexists. split.
  { unfold YOLOv3Head.__init__. rewrite Hown. cbn [mbind option_bind].
    change (mapM (λ mask, py_index (opt_anchors own) mask) (opt_mask own))
      with (mapM (py_index (opt_anchors own)) (opt_mask own)).
    rewrite Hmask. cbn [mbind option_bind]. rewrite Hnet.
    cbn [mbind option_bind]. unfold py_inv. rewrite !decide_False by done.
    reflexivity. }
  cbn [_anchors]. split; [done|].
  assert (length anchors = length (opt_mask own)) as Hlen
    by by apply mapM_length in Hmask.
  split; [done|].
  intros B H W C x Hx HB HH HW.
  eexists. split.
  { rewrite (shape_list_has_shape B H W C) by done. by apply build_geometry_of. }
  split; [intros HC; by apply (call_indivisible B H W C)|].
  split.
  { intros Hshort. apply call_short_mask. cbn [_anchors set_geometry]. lia. }
  intros Hlong HC HC12.
  assert (C = 3 * (C `div` 3))%nat as HCK.
  { rewrite (Nat.div_mod_eq C 3) at 1. lia. }
  set (K := (C `div` 3)%nat) in *. rewrite HCK in Hx |- *.
  apply (call_is_Some_three_anchors _ B H W K); try done; [lia|].
  cbn [_anchors]. lia.
Qed.

Lemma head_configuration_unchecked_witness :
  ∃ h, YOLOv3Head.__init__ config_mask4 "yolo_0" = Some h
       ∧ length (_anchors h) = 4%nat.
Proof.
  destruct (head_configuration_unchecked config_mask4 "yolo_0"
              (yolo_option 0 [(10, 13); (16, 30); (33, 23); (30, 61)] [0; 1; 2; 3]%Z 1)
              (net_option 416 416)
              [(10, 13); (16, 30); (33, 23); (30, 61)])
    as (h & Hinit & _ & Hlen & _);
    [reflexivity|reflexivity|done|done|reflexivity|].
  by exists h.
Defined.

(** ** The tflite front end *)


Lemma reshape_candidate_eq c B H rest :
  wf c → shape c = B :: H :: rest → (1 ≤ B)%nat →
  reshape_candidate c
  = if decide (H * H * 3 = 0)%nat then None
    else if decide ((H * numel rest) `mod` (H * H * 3) = 0)%nat
         then Some {| shape := [1; H * H * 3; (H * numel rest) `div` (H * H * 3)]%nat;
                      data := first_data c |}
         else None.
Proof.
  intros Hwf Hs HB. unfold reshape_candidate, first, first_data. rewrite Hs.
  cbn [lookup list_lookup mbind option_bind tail].
  rewrite decide_False by lia. cbn [mbind option_bind].
  unfold np_reshape. cbn [data].
  assert (length (take (numel (H :: rest)) (data c)) = (H * numel rest)%nat) as ->.
  { rewrite length_take. unfold wf in Hwf. rewrite Hwf, Hs.
    change (numel (B :: H :: rest)) with (B * numel (H :: rest))%nat.
    change (numel (H :: rest)) with (H * numel rest)%nat. nia. }
  done.
Qed.

Lemma square_mod H W K :
  (1 ≤ H)%nat →
  (H * (W * (3 * K))) `mod` (H * H * 3) = (3 * H * ((W * K) `mod` H))%nat
  ∧ (H * (W * (3 * K))) `div` (H * H * 3) = ((W * K) `div` H)%nat.
Proof.
  intros HH.
  replace (H * (W * (3 * K)))%nat with (3 * H * (W * K))%nat by lia.
  replace (H * H * 3)%nat with (3 * H * H)%nat by lia.
  split.
  - apply Nat.Div0.mul_mod_distr_l.
  - apply Nat.Div0.div_mul_cancel_l. lia.
Qed.

(** C10: [predict] reshapes an output of shape [(B, H, W, ...)] with
    [W * 3 * K] elements per row of cells to [(1, H * H * 3, -1)]: the
    number of candidates is always [H * H * 3]. On a square grid this is
    the [(1, H * W * 3, K)] array of the candidates; on a grid with
    [H <> W] the reshape is rejected (when [H] does not divide [W * K]) or
    gives an array with the wrong number of rows of the wrong length. *)
Theorem reshape_candidate_assumes_square (c : ndarray) B H W K rest :
  wf c → shape c = B :: H :: rest → numel rest = (W * (3 * K))%nat →
  (1 ≤ B)%nat → (1 ≤ H)%nat → (1 ≤ W)%nat → (1 ≤ K)%nat →
  (reshape_candidate c = None ↔ (W * K) `mod` H ≠ 0)%nat
  ∧ (∀ r, reshape_candidate c = Some r →
       ∃ k', shape r = [1; H * H * 3; k']%nat ∧ (H * k' = W * K)%nat
             ∧ data r = first_data c)
  ∧ (H = W →
       reshape_candidate c
       = Some {| shape := [1; H * W * 3; K]%nat; data := first_data c |})
  ∧ (H ≠ W → ∀ r, reshape_candidate c = Some r →
       rows r = (H * H * 3)%nat ∧ rows r ≠ (H * W * 3)%nat
       ∧ shape r !! 2%nat ≠ Some K).
Proof.
  intros Hwf Hs Hn HB HH HW HK.
  rewrite (reshape_candidate_eq c B H rest Hwf Hs HB), Hn.
  destruct (square_mod H W K HH) as [-> ->].
  rewrite decide_False by nia.
  pose proof (Nat.div_mod_eq (W * K) H) as Hdm.
  assert (∀ r, (if decide (3 * H * ((W * K) `mod` H) = 0)%nat
                then Some {| shape := [1; H * H * 3; (W * K) `div` H]%nat;
                             data := first_data c |}
                else None) = Some r →
          ((W * K) `mod` H = 0)%nat
          ∧ r = {| shape := [1; H * H * 3; (W * K) `div` H]%nat;
                   data := first_data c |}) as Hinv.
  { intros r Hr. case_decide; [|done]. split; [nia|congruence]. }
  split.
  { case_decide; split; try done; intros; nia. }
  split.
  { intros r Hr. destruct (Hinv r Hr) as [Hm ->].
    eexists. split; [done|]. split; [|done]. lia. }
  split.
  { intros <-. rewrite (Nat.mul_comm H K).
    rewrite Nat.Div0.mod_mul, Nat.mul_0_r, decide_True by done.
    by rewrite Nat.div_mul by lia. }
  intros Hne r Hr. destruct (Hinv r Hr) as [Hm ->].
  unfold rows. cbn. split; [done|]. split; [nia|].
  intros [= HK']. rewrite Hm in Hdm. nia.
Qed.

Lemma reshape_candidate_assumes_square_witness :
  reshape_candidate candidate_2x3 = None.
Proof.
  destruct (reshape_candidate_assumes_square candidate_2x3 1 2 3 1 [3; 3]%nat)
    as [Hnone _]; [reflexivity|reflexivity|reflexivity|lia..|].
  apply Hnone. by vm_compute.
Defined.

Lemma slab_0_head_output k a : is_head_output k a → slab 0 a = data a.
Proof.
  intros [Hwf Hs]. unfold slab. rewrite Hs. rewrite drop_0.
  apply take_ge. unfold wf in Hwf. rewrite Hwf, Hs. simpl. lia.
Qed.




(** Concatenation along axis 1 of arrays of shape [(1, n_i, k)]: the rows
    of the arrays, in the order of the list, with the elements untouched. *)
Lemma np_concatenate_head_outputs k (arrays : list ndarray) :
  arrays ≠ [] → Forall (is_head_output k) arrays →
  np_concatenate arrays
  = Some {| shape := [1; sum_list (rows <$> arrays); k]%nat;
            data := mjoin (data <$> arrays) |}.
Proof.
  intros Hne Hall. unfold np_concatenate.
  destruct arrays as [|a0 arrays']; [done|]. set (arrays := a0 :: arrays') in *.
  assert (is_head_output k a0) as [Hwf0 Hs0] by by apply Forall_cons in Hall as [? _].
  rewrite Hs0. rewrite decide_True.
  2:{ eapply Forall_impl; [exact Hall|]. intros a [_ Hs]. by rewrite Hs. }
  f_equal. f_equal. cbn [seq fmap list_fmap mjoin list_join].
  rewrite app_nil_r. f_equal.
  apply list_fmap_ext; intros i a Ha.
  apply (slab_0_head_output k). rewrite Forall_lookup in Hall. eauto.
Qed.

Lemma reshape_candidate_square k c :
  (1 ≤ k)%nat → is_square_output k c →
  reshape_candidate c
  = Some {| shape := [1; rows c * rows c * 3; k]%nat; data := first_data c |}.
Proof.
  intros Hk (Hwf & B & g & rest & Hs & Hn & HB & Hg).
  rewrite (reshape_candidate_eq c B g rest Hwf Hs HB), Hn.
  destruct (square_mod g g k Hg) as [-> ->].
  rewrite decide_False by nia. rewrite (Nat.mul_comm g k).
  rewrite Nat.Div0.mod_mul, Nat.mul_0_r, decide_True by done.
  rewrite Nat.div_mul by lia. unfold rows. by rewrite Hs.
Qed.

Lemma is_head_output_reshaped k c :
  is_square_output k c →
  is_head_output k
    {| shape := [1; rows c * rows c * 3; k]%nat; data := first_data c |}.
Proof.
  intros (Hwf & B & g & rest & Hs & Hn & HB & Hg). split; [|done].
  unfold wf, first_data, rows. cbn [shape data]. rewrite Hs.
  cbn [tail lookup list_lookup default numel foldr].
  rewrite length_take. unfold wf in Hwf. rewrite Hwf, Hs.
  cbn [numel foldr]. fold (numel rest). rewrite Hn. unfold Datatypes.id. nia.
Qed.

Import YOLOv4Model.

(** ** The walk over the layer graph *)

Lemma with_layers_fields a b :
  with_layers a [] = with_layers b [] →
  opt_type a = opt_type b ∧ opt_count a = opt_count b
  ∧ opt_activation a = opt_activation b ∧ opt_filters a = opt_filters b
  ∧ opt_pad a = opt_pad b ∧ opt_size a = opt_size b
  ∧ opt_stride a = opt_stride b ∧ opt_groups a = opt_groups b
  ∧ opt_group_id a = opt_group_id b ∧ opt_from a = opt_from b
  ∧ opt_anchors a = opt_anchors b ∧ opt_mask a = opt_mask b
  ∧ opt_scale_x_y a = opt_scale_x_y b ∧ opt_width a = opt_width b
  ∧ opt_height a = opt_height b ∧ opt_decay a = opt_decay b.
Proof. unfold with_layers. intros [=]. by repeat split. Qed.

Lemma route_variant_with_layers lo i extra extra' :
  opt_type lo = "route" → is_Some (opt_groups lo) →
  route_variant (with_layers lo (i :: extra)) (with_layers lo (i :: extra')).
Proof. intros. right. by repeat split. Qed.

Lemma config_get_variant (c1 c2 : YOLOConfig) name :
  Forall2 (λ p q, p.1 = q.1 ∧ route_variant p.2 q.2) c1 c2 →
  option_Forall2 (λ a b, with_layers a [] = with_layers b [])
    (config_get c1 name) (config_get c2 name).
Proof.
  induction 1 as [|[k1 v1] [k2 v2] c1 c2 [Hk Hv] _ IH]; simpl in *; [constructor|].
  subst k2. case_decide; [|done]. constructor.
  destruct Hv as [->|(_ & _ & ? & _)]; done.
Qed.

Lemma head_init_variant (c1 c2 : YOLOConfig) name :
  Forall2 (λ p q, p.1 = q.1 ∧ route_variant p.2 q.2) c1 c2 →
  YOLOv3Head.__init__ c1 name = YOLOv3Head.__init__ c2 name.
Proof.
  intros Hc. unfold YOLOv3Head.__init__.
  destruct (config_get_variant c1 c2 name Hc) as [own1 own2 Hown|]; [|done].
  cbn [mbind option_bind].
  destruct (with_layers_fields _ _ Hown)
    as (_ & _ & _ & _ & _ & _ & _ & _ & _ & _ & -> & -> & -> & _).
  destruct (mapM _ (opt_mask own2)); [|done]. cbn [mbind option_bind].
  destruct (config_get_variant c1 c2 "net" Hc) as [net1 net2 Hnet|]; [|done].
  cbn [mbind option_bind].
  destruct (with_layers_fields _ _ Hnet)
    as (_ & _ & _ & _ & _ & _ & _ & _ & _ & _ & _ & _ & _ & -> & -> & _).
  done.
Qed.

Lemma init_step_variant (c1 c2 : YOLOConfig) acc name a b :
  Forall2 (λ p q, p.1 = q.1 ∧ route_variant p.2 q.2) c1 c2 →
  route_variant a b →
  init_step c1 acc (name, a) = init_step c2 acc (name, b).
Proof.
  intros Hc Hab. unfold init_step. destruct acc as [layers _l2].
  rewrite (head_init_variant c1 c2 name Hc).
  assert (config_get c1 "net" ≫= (λ net, Some (layers, Some (opt_decay net)))
          = config_get c2 "net" ≫= (λ net, Some (layers, Some (opt_decay net)))) as Hnet.
  { destruct (config_get_variant c1 c2 "net" Hc) as [n1 n2 Hn|]; [|done].
    cbn [mbind option_bind].
    by destruct (with_layers_fields _ _ Hn)
      as (_ & _ & _ & _ & _ & _ & _ & _ & _ & _ & _ & _ & _ & _ & _ & ->). }
  destruct Hab as [->|(Hty & [g Hg] & Hab & _)].
  { by rewrite Hnet. }
  destruct (with_layers_fields _ _ Hab)
    as (Ht & _ & _ & _ & _ & _ & _ & Hgr & Hid & _).
  rewrite <- Ht, <- Hgr, <- Hid, Hty, Hg.
  rewrite decide_False by done. by rewrite decide_True.
Qed.

Lemma init_loop_variant (c1 c2 items1 items2 : YOLOConfig) acc :
  Forall2 (λ p q, p.1 = q.1 ∧ route_variant p.2 q.2) c1 c2 →
  Forall2 (λ p q, p.1 = q.1 ∧ route_variant p.2 q.2) items1 items2 →
  init_loop c1 items1 acc = init_loop c2 items2 acc.
Proof.
  intros Hc Hitems. revert acc.
  induction Hitems as [|[k1 v1] [k2 v2] items1 items2 [Hk Hv] _ IH]; intros acc;
    [done|].
  simpl in Hk, Hv. subst k2. cbn [init_loop].
  rewrite (init_step_variant c1 c2 acc k1 v1 v2 Hc Hv).
  destruct (init_step c2 acc (k1, v2)) as [acc'|]; [|done].
  cbn [mbind option_bind]. apply IH.
Qed.

Section RouteFacts.
Variable YOLOConv2D : conv_args → arg → option tensor.
Variable keras_Concatenate : string → arg → option tensor.
Variable keras_Add : string → arg → option tensor.
Variable keras_MaxPooling2D : string → Z → Z → arg → option tensor.
Variable keras_UpSampling2D : string → arg → option tensor.

Local Abbreviation run_layer :=
  (YOLOv4Model.run_layer YOLOConv2D keras_Concatenate keras_Add
     keras_MaxPooling2D keras_UpSampling2D).
Local Abbreviation call_step :=
  (YOLOv4Model.call_step YOLOConv2D keras_Concatenate keras_Add
     keras_MaxPooling2D keras_UpSampling2D).
Local Abbreviation call_loop :=
  (YOLOv4Model.call_loop YOLOConv2D keras_Concatenate keras_Add
     keras_MaxPooling2D keras_UpSampling2D).
Local Abbreviation call :=
  (YOLOv4Model.call YOLOConv2D keras_Concatenate keras_Add
     keras_MaxPooling2D keras_UpSampling2D).

(** What the walk does at a grouped route. *)
Lemma call_step_grouped_route x st lo :
  opt_type lo = "route" → is_Some (opt_groups lo) →
  call_step x st lo
  = if decide (opt_count lo = (-1)%Z) then Some st
    else pos ← py_pos (length (st_layers st)) (opt_count lo);
         index ← opt_layers lo !! 0%nat;
         src ← py_index (st_output st) index;
         run_layer st pos (One src).
Proof.
  intros Hty [g Hg]. unfold YOLOv4Model.call_step.
  destruct (decide (opt_count lo = (-1)%Z)); [done|].
  rewrite Hty, Hg. by destruct (py_pos _ _).
Qed.

Lemma call_step_variant x st a b :
  route_variant a b → call_step x st a = call_step x st b.
Proof.
  intros [->|(Hty & Hg & Hab & Hl)]; [done|].
  destruct (with_layers_fields _ _ Hab)
    as (Ht & Hc & _ & _ & _ & _ & _ & Hgr & _).
  rewrite !call_step_grouped_route; try done; [|congruence..].
  by rewrite Hc, Hl.
Qed.

Lemma call_loop_variant x options1 options2 st :
  Forall2 route_variant options1 options2 →
  call_loop x options1 st = call_loop x options2 st.
Proof.
  intros Ho. revert st.
  induction Ho as [|a b options1 options2 Hab _ IH]; intros st; [done|].
  cbn [YOLOv4Model.call_loop].
  rewrite (call_step_variant x st a b Hab).
  destruct (call_step x st b) as [st'|]; [|done].
  cbn [mbind option_bind]. apply IH.
Qed.

Lemma model_variant (c1 c2 : YOLOConfig) x :
  Forall2 (λ p q, p.1 = q.1 ∧ route_variant p.2 q.2) c1 c2 →
  (m ← __init__ c1; r ← call m x; Some (_model_layers r.1, r.2))
  = (m ← __init__ c2; r ← call m x; Some (_model_layers r.1, r.2)).
Proof.
  intros Hc. unfold __init__.
  rewrite (init_loop_variant c1 c2 c1 c2 _ Hc Hc).
  destruct (init_loop c2 c2 _) as [acc|]; [|done]. cbn [mbind option_bind].
  unfold YOLOv4Model.call. cbn [_model_config _model_layers].
  assert (Forall2 route_variant (snd <$> c1) (snd <$> c2)) as Ho.
  { apply Forall2_fmap. eapply Forall2_impl; [exact Hc|]. by intros p q [_ ?]. }
  pose proof (call_loop_variant x _ _
    {| st_layers := acc.1; st_output := []; st_return_val := [] |} Ho) as Hl.
  rewrite Hl.
  match goal with |- (?m ≫= _) ≫= _ = _ => by destruct m end.
Qed.
End RouteFacts.

(** C9: at a route with [groups], the walk calls the layer on
    [output[layers[0]]] alone; the source layers listed after the first one
    change neither the layers nor the returned list of the model. *)
Theorem grouped_route_reads_first_source
    (conv : conv_args → arg → option tensor)
    (cat add : string → arg → option tensor)
    (pool : string → Z → Z → arg → option tensor)
    (up : string → arg → option tensor)
    (pre post : YOLOConfig) (name : string) (lo : layer_option)
    (i : Z) (extra extra' : list Z) (x : tensor) :
  opt_type lo = "route" → is_Some (opt_groups lo) →
  (∀ st,
     call_step conv cat add pool up x st (with_layers lo (i :: extra))
     = if decide (opt_count lo = (-1)%Z) then Some st
       else pos ← py_pos (length (st_layers st)) (opt_count lo);
            src ← py_index (st_output st) i;
            run_layer conv cat add pool up st pos (One src))
  ∧ (m ← __init__ (pre ++ (name, with_layers lo (i :: extra)) :: post);
     r ← call conv cat add pool up m x; Some (_model_layers r.1, r.2))
    = (m ← __init__ (pre ++ (name, with_layers lo (i :: extra')) :: post);
       r ← call conv cat add pool up m x; Some (_model_layers r.1, r.2)).
Proof.
  intros Hty Hg. split.
  - intros st. by rewrite call_step_grouped_route.
  - apply model_variant. apply Forall2_app.
    + apply Forall_Forall2_diag, Forall_forall. intros p _. split; [done|by left].
    + constructor.
      * split; [done|]. by apply route_variant_with_layers.
      * apply Forall_Forall2_diag, Forall_forall. intros p _. split; [done|by left].
Qed.

Lemma grouped_route_reads_first_source_witness :
  run_model (config_route [0; 7]%Z) (T4 feature_4)
  = run_model (config_route [0]%Z) (T4 feature_4)
  ∧ is_Some (run_model (config_route [0]%Z) (T4 feature_4)).
Proof.
  split.
  - apply (grouped_route_reads_first_source (λ _, pass_one) (λ _, pass_first)
             (λ _, pass_first) (λ _ _ _, pass_one) (λ _, pass_one)
             [("net", net_option 416 416); ("conv_0", conv_option 0)] []
             "route_1" (route_option 1 [] (Some 2%Z) 1) 0 [7%Z] [] (T4 feature_4));
      [reflexivity|by eexists].
  - eexists. vm_compute. reflexivity.
Defined.

(** * Further properties *)

(** ** Python indexing *)

Lemma py_index_is_Some {A} (l : list A) (i : Z) :
  is_Some (py_index l i)
  ↔ (- Z.of_nat (length l) ≤ i < Z.of_nat (length l))%Z.
Proof.
  unfold py_index. destruct (Z.leb_spec 0 i) as [Hi|Hi].
  - rewrite lookup_lt_is_Some. lia.
  - destruct (Z.leb_spec (- Z.of_nat (length l)) i) as [Hn|Hn].
    + rewrite lookup_lt_is_Some. lia.
    + split; [by intros [? ?]|lia].
Qed.

Lemma py_index_None {A} (l : list A) (i : Z) :
  py_index l i = None
  ↔ ¬ (- Z.of_nat (length l) ≤ i < Z.of_nat (length l))%Z.
Proof. rewrite <- py_index_is_Some, eq_None_not_Some. done. Qed.

Lemma py_index_mod {A} (l : list A) (i : Z) :
  (- Z.of_nat (length l) ≤ i < Z.of_nat (length l))%Z →
  py_index l i = l !! Z.to_nat (i `mod` Z.of_nat (length l)).
Proof.
  intros Hi. unfold py_index. destruct (Z.leb_spec 0 i) as [H0|H0].
  - by rewrite Z.mod_small by lia.
  - rewrite (proj2 (Z.leb_le _ _)) by lia. f_equal. f_equal.
    apply Z.mod_unique with (-1)%Z; lia.
Qed.

(** X1: [YOLOv3Head.__init__] raises exactly when the configuration has
    no entry under the name of the head or no ["net"] entry, when an entry
    of the mask lies outside the index range of the anchors (a negative
    entry counts from the end), or when the width or the height of the
    network is 0. *)
Theorem head_init_raises_iff (config : YOLOConfig) (name : string) :
  YOLOv3Head.__init__ config name = None
  ↔ config_get config name = None
    ∨ config_get config "net" = None
    ∨ (∃ own, config_get config name = Some own
         ∧ Exists (λ m, ¬ (- Z.of_nat (length (opt_anchors own)) ≤ m
                           < Z.of_nat (length (opt_anchors own)))%Z)
             (opt_mask own))
    ∨ (∃ net, config_get config "net" = Some net
         ∧ (opt_width net = 0 ∨ opt_height net = 0)%Z).
Proof.
  unfold YOLOv3Head.__init__.
  destruct (config_get config name) as [own|]; cbn [mbind option_bind];
    [|by split; [left|]].
  destruct (mapM _ (opt_mask own)) as [anchors|] eqn:Hm; cbn [mbind option_bind].
  - assert (¬ Exists (λ m, ¬ (- Z.of_nat (length (opt_anchors own)) ≤ m
                           < Z.of_nat (length (opt_anchors own)))%Z)
             (opt_mask own)) as Hall.
    { intros Hex. assert (mapM (λ mask, py_index (opt_anchors own) mask)
                            (opt_mask own) = None) as Hn; [|congruence].
      apply mapM_None. eapply Exists_impl; [exact Hex|].
      intros m Hm'. by apply py_index_None. }
    destruct (config_get config "net") as [net|]; cbn [mbind option_bind];
      [|by split; [right; left|]].
    unfold py_inv.
    destruct (decide (opt_width net = 0%Z)) as [Hw|Hw]; cbn [mbind option_bind].
    { split; [|done]. intros _. right; right; right. eauto. }
    destruct (decide (opt_height net = 0%Z)) as [Hh|Hh]; cbn [mbind option_bind].
    { split; [|done]. intros _. right; right; right. eauto. }
    split; [done|].
    intros [?|[?|[(own' & ? & ?)|(net' & ? & [?|?])]]]; simplify_eq; done.
  - split; [|done]. intros _. right; right; left. exists own. split; [done|].
    apply mapM_None in Hm. eapply Exists_impl; [exact Hm|].
    intros m Hm'. by apply py_index_None.
Qed.

(** X2: the anchors of a head are those that the mask selects, in the
    order of the mask: one anchor per mask entry, entry [m] selecting
    [anchors[m]], counted from the end of the list when [m] is negative. *)
Theorem head_anchors_follow_mask (config : YOLOConfig) (name : string)
    (h : YOLOv3Head.t) (own : layer_option) :
  YOLOv3Head.__init__ config name = Some h →
  config_get config name = Some own →
  length (_anchors h) = length (opt_mask own)
  ∧ ∀ i m, opt_mask own !! i = Some m →
      (- Z.of_nat (length (opt_anchors own)) ≤ m
       < Z.of_nat (length (opt_anchors own)))%Z
      ∧ is_Some (_anchors h !! i)
      ∧ _anchors h !! i
        = opt_anchors own !! Z.to_nat (m `mod` Z.of_nat (length (opt_anchors own))).
Proof.
  unfold YOLOv3Head.__init__. intros Hh Hown. rewrite Hown in Hh.
  cbn [mbind option_bind] in Hh.
  destruct (mapM _ (opt_mask own)) as [anchors|] eqn:Hm; [|done].
  cbn [mbind option_bind] in Hh.
  destruct (config_get config "net") as [net|]; [|done].
  cbn [mbind option_bind] in Hh.
  destruct (py_inv (opt_width net)); [|done]. cbn [mbind option_bind] in Hh.
  destruct (py_inv (opt_height net)); [|done]. cbn [mbind option_bind] in Hh.
  simplify_eq. cbn [_anchors].
  apply mapM_Some in Hm. split; [symmetry; by eapply Forall2_length|].
  intros i m Hi.
  destruct (Forall2_lookup_l _ _ _ _ _ Hm Hi) as (a & Ha & Hpy).
  assert (- Z.of_nat (length (opt_anchors own)) ≤ m
          < Z.of_nat (length (opt_anchors own)))%Z as Hr
    by (apply py_index_is_Some; by rewrite Hpy).
  split; [done|]. split; [by rewrite Ha|].
  by rewrite Ha, <- Hpy, py_index_mod.
Qed.

Lemma head_anchors_follow_mask_witness :
  ∃ h, YOLOv3Head.__init__ config_mask_neg "yolo_0" = Some h
       ∧ _anchors h !! 0%nat = anchors_416 !! 2%nat
       ∧ _anchors h !! 2%nat = anchors_416 !! 0%nat.
Proof.
  destruct (YOLOv3Head.__init__ config_mask_neg "yolo_0") as [h|] eqn:Hh;
    [|by vm_compute in Hh].
  exists h. split; [done|].
  destruct (head_anchors_follow_mask config_mask_neg "yolo_0" h
              (yolo_option 0 anchors_416 [-1; 0; 0]%Z 1) Hh eq_refl)
    as [_ Hsel].
  split.
  - by destruct (Hsel 0%nat (-1)%Z eq_refl) as (_ & _ & ->).
  - by destruct (Hsel 2%nat 0%Z eq_refl) as (_ & _ & ->).
Defined.

(** ** When a head decodes *)

Lemma split_sizes_2_2_rest_short K :
  (K < 4)%nat → split_sizes (Sizes [2; 2; -1]%Z) K = None.
Proof.
  intros HK. unfold split_sizes.
  rewrite decide_True by (repeat constructor; lia).
  change (sum_known [2; 2; -1]%Z) with 4%Z.
  change (length (filter (λ s, s = (-1)%Z) [2; 2; -1]%Z)) with 1%nat.
  rewrite decide_False by lia. rewrite decide_True by lia.
  by rewrite decide_False by lia.
Qed.

Lemma tf_split4_map_cells_None B H W C K F x spec :
  has_shape4 B H W C x → (1 ≤ B)%nat → (1 ≤ H)%nat → (1 ≤ W)%nat →
  (∀ v, length v = C → length (F v) = K) →
  split_sizes spec K = None →
  tf_split4 (map_cells4 F x) spec = None.
Proof.
  intros Hx ? ? ? HF Hs. unfold tf_split4.
  erewrite channels4_map_cells by done. by rewrite Hs.
Qed.

Lemma call_few_channels forced h B H W K x :
  has_shape4 B H W (3 * K) x →
  (1 ≤ B)%nat → (1 ≤ H)%nat → (1 ≤ W)%nat → (K < 4)%nat →
  call_with forced h x = None.
Proof.
  intros Hx ? ? ? HK. unfold call_with.
  rewrite (tf_split4_plain B H W (3 * K) x (Num 3) [K; K; K])
    by (done || apply split_sizes_num3).
  cbn [mbind option_bind]. unfold map_elems4 at 1.
  rewrite (tf_split4_map_cells B H W (3 * K) (3 * K) _ x (Num 3) [K; K; K]);
    [|done..| |apply split_sizes_num3].
  2:{ intros v Hv. by rewrite length_fmap. }
  cbn [mbind option_bind].
  destruct (built h) as [g|]; [|done]. cbn [mbind option_bind].
  assert (decode_anchor forced h g
            (imap (λ k _, map_cells4 (λ v, part_of [K; K; K] k v) x) [K; K; K])
            (imap (λ k _, map_cells4 (λ v, part_of [K; K; K] k (sigmoid <$> v)) x)
               [K; K; K]) 0 = None) as Hd.
  { unfold decode_anchor. cbn [imap lookup list_lookup mbind option_bind].
    rewrite (tf_split4_map_cells_None B H W (3 * K) K
               (λ v, part_of [K; K; K] 0 (sigmoid <$> v)));
      [done|exact Hx|done|done|done| |by apply split_sizes_2_2_rest_short].
    intros v Hv. apply length_part_of with (s := K); [done|].
    rewrite length_fmap. simpl. lia. }
  cbn [seq mapM]. by rewrite Hd.
Qed.

(** X3: on a well-shaped input [(B, H, W, C)], a head built for that
    shape decodes without error exactly when [C] is a multiple of 3, each
    of the three anchor slots has at least 4 channels ([C >= 12]) and the
    mask has selected at least 3 anchors. *)
Theorem head_call_succeeds_iff (h h' : YOLOv3Head.t) B H W C (x : tensor4) :
  has_shape4 B H W C x → (1 ≤ B)%nat → (1 ≤ H)%nat → (1 ≤ W)%nat →
  build h (shape_list x) = Some h' →
  is_Some (YOLOv3Head.call h' x)
  ↔ (C `mod` 3 = 0 ∧ 12 ≤ C ∧ 3 ≤ length (_anchors h))%nat.
Proof.
  intros Hx HB HH HW Hb.
  rewrite (shape_list_has_shape B H W C) in Hb by done.
  rewrite build_geometry_of in Hb by done. injection Hb as <-.
  destruct (decide (C `mod` 3 = 0)%nat) as [HC|HC].
  2:{ destruct (call_indivisible B H W C (set_geometry h (geometry_of H W C)) x)
        as [_ ->]; try done.
      split; [by intros [? ?]|]. by intros [? _]. }
  assert (C = 3 * (C `div` 3))%nat as HCK.
  { rewrite (Nat.div_mod_eq C 3) at 1. lia. }
  set (K := (C `div` 3)%nat) in *. clearbody K. subst C.
  destruct (decide (4 ≤ K)%nat) as [HK|HK].
  2:{ unfold YOLOv3Head.call.
      rewrite (call_few_channels false _ B H W K) by (done || lia).
      split; [by intros [? ?]|]. intros (_ & ? & _). lia. }
  destruct (decide (3 ≤ length (_anchors h))%nat) as [Ha|Ha].
  - split; [intros _; repeat split; done || lia|]. intros _.
    by apply (call_is_Some_three_anchors h B H W K).
  - rewrite call_short_mask by (cbn [_anchors set_geometry]; lia).
    split; [by intros [? ?]|]. intros (_ & _ & ?). lia.
Qed.

Lemma head_call_succeeds_iff_witness :
  is_Some (YOLOv3Head.call head_416_built raw_2x2)
  ↔ (255 `mod` 3 = 0 ∧ 12 ≤ 255 ∧ 3 ≤ length (_anchors head_416))%nat.
Proof.
  apply (head_call_succeeds_iff head_416 head_416_built 1 2 2 255 raw_2x2);
    [apply raw_2x2_shape|lia..|apply build_head_416].
Defined.

Lemma py_index_elem_of {A} (l : list A) i a : py_index l i = Some a → a ∈ l.
Proof.
  unfold py_index. repeat case_match; try done; apply list_elem_of_lookup_2.
Qed.

Lemma build_of_shape h B H W C x :
  has_shape4 B H W C x → (1 ≤ B)%nat → (1 ≤ H)%nat → (1 ≤ W)%nat →
  build h (shape_list x) = Some (set_geometry h (geometry_of H W C)).
Proof.
  intros. rewrite (shape_list_has_shape B H W C) by done.
  by apply build_geometry_of.
Qed.

(** X4: with anchors that are not negative and a positive image size,
    every decoded box is [x, y, w, h] followed by [K - 4] scores, with [w]
    and [h] not negative and every score between 0 and 1. *)
Theorem head_boxes_size_and_scores config name h own net B H W K (x : tensor4) :
  YOLOv3Head.__init__ config name = Some h →
  config_get config name = Some own →
  config_get config "net" = Some net →
  (0 < opt_width net)%Z → (0 < opt_height net)%Z →
  Forall (λ a, 0 <= a.1 ∧ 0 <= a.2) (opt_anchors own) →
  length (opt_mask own) = 3%nat →
  has_shape4 B H W (3 * K) x →
  (1 ≤ B)%nat → (1 ≤ H)%nat → (1 ≤ W)%nat → (4 ≤ K)%nat →
  ∃ h' out,
    build h (shape_list x) = Some h' ∧ YOLOv3Head.call h' x = Some out
    ∧ ∀ b n box,
        box_at out b n = Some box →
        ∃ bx by_ bw bh scores,
          box = [bx; by_; bw; bh] ++ scores
          ∧ 0 <= bw ∧ 0 <= bh
          ∧ length scores = (K - 4)%nat
          ∧ Forall (λ p, 0 <= p <= 1) scores.
Proof.
  intros Hinit Hown Hnet Hw Hh Hpos Hmask Hx HB HH HW HK.
  destruct (init_fields _ _ _ _ Hinit Hnet) as (Hiwh & _ & own' & Hown' & _ & Hm).
  rewrite Hown in Hown'. injection Hown' as <-.
  assert (length (_anchors h) = 3%nat) as Hanch
    by (by rewrite (mapM_length _ _ _ Hm)).
  destruct (call_with_decoded false h B H W K x Hx HB HH HW HK Hanch)
    as (out & Hcall & Hshape & Hfwd & Hbwd).
  exists (set_geometry h (geometry_of H W (3 * K))), out.
  split; [by apply (build_of_shape h B)|]. split; [done|].
  intros b n box Hbox.
  destruct (Hbwd b n box Hbox) as (cy & cx & v & i & a & Hv & Hi & Ha & ->).
  rewrite (Hfwd b cy cx v i a Hv Hi Ha) in Hbox.
  destruct (cell_at_shape _ _ _ _ _ _ _ _ _ Hx Hv) as (_ & Hcy & Hcx & Hlen).
  pose proof (length_py_slice_thirds K i v Hi Hlen) as Hc.
  destruct (py_slice (i * K) ((i + 1) * K) v) as [|rx [|ry [|rw [|rh rest]]]];
    simpl in Hc; try lia.
  cbn [decoded_box] in Hbox. injection Hbox as <-.
  eexists _, _, _, _, _. split; [reflexivity|].
  assert (0 <= a.1 ∧ 0 <= a.2) as [Ha1 Ha2].
  { apply mapM_Some in Hm.
    destruct (Forall2_lookup_r _ _ _ _ _ Hm Ha) as (m & _ & Hpy).
    apply py_index_elem_of in Hpy.
    rewrite Forall_forall in Hpos. by apply Hpos. }
  rewrite Hiwh. cbn [fst snd].
  assert (0 < 1 / IZR (opt_width net)).
  { apply Rdiv_lt_0_compat; [lra|]. by apply IZR_lt. }
  assert (0 < 1 / IZR (opt_height net)).
  { apply Rdiv_lt_0_compat; [lra|]. by apply IZR_lt. }
  pose proof (exp_pos rw). pose proof (exp_pos rh).
  split; [apply Rmult_le_pos; [apply Rmult_le_pos|]; done || lra|].
  split; [apply Rmult_le_pos; [apply Rmult_le_pos|]; done || lra|].
  split; [rewrite length_fmap; lia|].
  rewrite Forall_fmap. apply Forall_forall. intros r _.
  pose proof (sigmoid_bounds r). simpl. lra.
Qed.

Lemma head_boxes_size_and_scores_witness :
  ∃ out, YOLOv3Head.call head_416_built raw_2x2 = Some out
    ∧ ∀ b n box, box_at out b n = Some box →
        ∃ bx by_ bw bh scores,
          box = [bx; by_; bw; bh] ++ scores ∧ 0 <= bw ∧ 0 <= bh.
Proof.
  destruct (head_boxes_size_and_scores config_416 "yolo_0" head_416
              (yolo_option 0 anchors_416 [0; 1; 2]%Z 1) (net_option 416 416)
              1 2 2 85 raw_2x2)
    as (h' & out & Hb & Hcall & Hall);
    [reflexivity|reflexivity|reflexivity|done|done| |reflexivity
    |apply raw_2x2_shape|lia..|].
  { unfold anchors_416. cbn [opt_anchors yolo_option].
    repeat (constructor; [cbn [fst snd]; lra|]). constructor. }
  rewrite build_head_416 in Hb. injection Hb as <-.
  exists out. split; [done|]. intros b n box Hbox.
  destruct (Hall b n box Hbox) as (bx & by_ & bw & bh & sc & -> & ? & ? & _).
  by exists bx, by_, bw, bh, sc.
Defined.





(** ** A centre outside the image *)

Lemma sigmoid_neg_small (t : R) : 0 < t → sigmoid (- t) < 1 / (2 + t).
Proof.
  intros Ht. unfold sigmoid. rewrite Ropp_involutive.
  assert (1 + t < exp t) as He by (apply exp_ineq1; lra).
  unfold Rdiv. rewrite !Rmult_1_l.
  apply Rinv_lt_contravar; nra.
Qed.

Lemma one_cell_shape r : has_shape4 1 1 1 (3 * 4) (one_cell r).
Proof. split; [done|]. repeat constructor. Qed.

(** X6: with [scale_x_y > 1] the centre of a box can leave the image:
    some raw tensor decodes to a box whose [x] is negative. *)
Theorem head_scaled_centre_leaves_image (h : YOLOv3Head.t) :
  1 < _scale_x_y h →
  length (_anchors h) = 3%nat →
  ∃ r h' out bx rest,
    build h (shape_list (one_cell r)) = Some h'
    ∧ YOLOv3Head.call h' (one_cell r) = Some out
    ∧ box_at out 0 0 = Some (bx :: rest)
    ∧ bx < 0.
Proof.
  intros Hs Hanch. set (s := _scale_x_y h) in *.
  set (t := 2 * s / (s - 1)).
  assert (0 < t) as Ht.
  { unfold t. apply Rdiv_lt_0_compat; lra. }
  destruct (call_with_decoded false h 1 1 1 4 (one_cell (- t)))
    as (out & Hcall & _ & Hfwd & _);
    [apply one_cell_shape|lia..|done|].
  destruct (_anchors h) as [|a [|? [|? [|]]]] eqn:Ha; try discriminate.
  specialize (Hfwd 0%nat 0%nat 0%nat _ 0%nat a eq_refl ltac:(lia) eq_refl).
  exists (- t), (set_geometry h (geometry_of 1 1 (3 * 4))), out.
  eexists _, _. split; [apply (build_of_shape h 1 1 1); [apply one_cell_shape|lia..]|].
  split; [done|].
  unfold py_slice in Hfwd.
  cbn [Nat.mul Nat.add Nat.sub drop take decoded_box fst snd replicate app] in Hfwd.
  split; [exact Hfwd|].
  fold s. unfold scale_fn. destruct (Req_dec_T s 1) as [?|_]; [lra|].
  replace (INR 0) with 0 by done. replace (INR 1) with 1 by done.
  pose proof (sigmoid_neg_small t Ht) as Hsig.
  pose proof (sigmoid_bounds (- t)) as [Hpos _].
  assert (1 / (2 + t) <= (s - 1) / (2 * s)) as Hle.
  { unfold t. rewrite <- (Rinv_div (2 * s) (s - 1)). unfold Rdiv at 1.
    rewrite Rmult_1_l. apply Rinv_le_contravar.
    - apply Rdiv_lt_0_compat; lra.
    - fold t. unfold t. lra. }
  assert (sigmoid (- t) < (s - 1) / (2 * s)) as Hlt by lra.
  assert ((sigmoid (- t) - 0.5) * s + 0.5 < 0) as Hneg.
  { apply (Rmult_lt_compat_r s) in Hlt; [|lra].
    replace ((s - 1) / (2 * s) * s) with ((s - 1) / 2) in Hlt by (field; lra).
    lra. }
  unfold Rdiv. rewrite Rinv_1. lra.
Qed.

Lemma head_scaled_centre_leaves_image_witness :
  ∃ r h' out bx rest,
    build head_scale_2 (shape_list (one_cell r)) = Some h'
    ∧ YOLOv3Head.call h' (one_cell r) = Some out
    ∧ box_at out 0 0 = Some (bx :: rest)
    ∧ bx < 0.
Proof.
  apply (head_scaled_centre_leaves_image head_scale_2); [cbn; lra|reflexivity].
Defined.

(** X7: [call] decodes the images of a batch independently of each
    other: the boxes of image [b] are those that the same head returns for
    the batch that holds this image alone. *)
Theorem head_call_per_image (h : YOLOv3Head.t) B H W K (x : tensor4) :
  length (_anchors h) = 3%nat →
  has_shape4 B H W (3 * K) x →
  (1 ≤ B)%nat → (1 ≤ H)%nat → (1 ≤ W)%nat → (4 ≤ K)%nat →
  ∃ h' out,
    build h (shape_list x) = Some h' ∧ YOLOv3Head.call h' x = Some out
    ∧ length out = B
    ∧ ∀ b img, x !! b = Some img →
        ∃ boxes, out !! b = Some boxes
                 ∧ build h (shape_list [img]) = Some h'
                 ∧ YOLOv3Head.call h' [img] = Some [boxes].
Proof.
  intros Hanch Hx HB HH HW HK.
  destruct (_anchors h) as [|a0 [|a1 [|a2 [|]]]] eqn:Ha; try discriminate.
  exists (set_geometry h (geometry_of H W (3 * K))). eexists.
  split; [by apply (build_of_shape h B)|].
  split.
  { apply (call_with_raw false h B H W K x a0 a1 a2); try done; by rewrite Ha. }
  split; [rewrite length_fmap; by destruct Hx|].
  intros b img Hb. eexists. split; [by rewrite list_lookup_fmap, Hb|].
  assert (has_shape4 1 H W (3 * K) [img]) as Himg.
  { split; [done|]. constructor; [|constructor].
    destruct Hx as [_ Hx]. rewrite Forall_lookup in Hx. by apply (Hx b). }
  split; [by apply (build_of_shape h 1)|].
  unfold YOLOv3Head.call.
  by rewrite (call_with_raw false h 1 H W K [img] a0 a1 a2)
    by (done || lia || by rewrite Ha).
Qed.

Lemma head_call_per_image_witness :
  ∃ out boxes,
    YOLOv3Head.call head_416_built (raw_2x2 ++ raw_2x2) = Some out
    ∧ out !! 1%nat = Some boxes
    ∧ YOLOv3Head.call head_416_built raw_2x2 = Some [boxes].
Proof.
  destruct (head_call_per_image head_416 2 2 2 85 (raw_2x2 ++ raw_2x2))
    as (h' & out & Hb & Hcall & _ & Himg);
    [reflexivity|split; [done|repeat constructor]|lia..|].
  destruct (Himg 1%nat _ eq_refl) as (boxes & Hout & Hb' & Hcall').
  change (build head_416 (shape_list raw_2x2) = Some h') in Hb'.
  rewrite build_head_416 in Hb'. injection Hb' as <-.
  by exists out, boxes.
Defined.

Lemma sigmoid_0 : sigmoid 0 = 1 / 2.
Proof. unfold sigmoid. rewrite Ropp_0, exp_0. lra. Qed.

Lemma scale_fn_half forced s : scale_fn forced s (1 / 2) = 1 / 2.
Proof.
  unfold scale_fn. destruct forced; [lra|].
  destruct (Req_dec_T s 1); lra.
Qed.

(** X8: where the [K] raw values of an anchor slot are all 0, the
    decoded box sits in the middle of its cell, has the size of the anchor
    relative to the image, and has all its scores equal to 1/2, whatever the
    scale. *)
Theorem head_zero_logits (h : YOLOv3Head.t) B H W K (x : tensor4) :
  length (_anchors h) = 3%nat →
  has_shape4 B H W (3 * K) x →
  (1 ≤ B)%nat → (1 ≤ H)%nat → (1 ≤ W)%nat → (4 ≤ K)%nat →
  ∃ h' out,
    build h (shape_list x) = Some h' ∧ YOLOv3Head.call h' x = Some out
    ∧ ∀ b y cx v i a,
        cell_at x b y cx = Some v → (i < 3)%nat → _anchors h !! i = Some a →
        py_slice (i * K) ((i + 1) * K) v = replicate K 0 →
        box_at out b (i * (H * W) + y * W + cx)
        = Some ([(INR cx + 1 / 2) / INR W; (INR y + 1 / 2) / INR H;
                 a.1 * (_inver_image_wh h).1; a.2 * (_inver_image_wh h).2]
                ++ replicate (K - 4) (1 / 2)).
Proof.
  intros Hanch Hx HB HH HW HK.
  destruct (call_with_decoded false h B H W K x Hx HB HH HW HK Hanch)
    as (out & Hcall & Hshape & Hfwd & _).
  exists (set_geometry h (geometry_of H W (3 * K))), out.
  split; [by apply (build_of_shape h B)|]. split; [done|].
  intros b y cx v i a Hv Hi Ha Hzero.
  rewrite (Hfwd b y cx v i a Hv Hi Ha), Hzero.
  destruct K as [|[|[|[|K]]]]; try lia.
  cbn [replicate decoded_box]. rewrite fmap_replicate.
  rewrite !sigmoid_0, !scale_fn_half, exp_0.
  replace (S (S (S (S K))) - 4)%nat with K by lia.
  replace (1 / 2 * (1 / INR W) + INR cx / INR W) with ((INR cx + 1 / 2) / INR W)
    by (unfold Rdiv; ring).
  replace (1 / 2 * (1 / INR H) + INR y / INR H) with ((INR y + 1 / 2) / INR H)
    by (unfold Rdiv; ring).
  by rewrite !Rmult_1_l.
Qed.

Lemma head_zero_logits_witness :
  ∃ out,
    YOLOv3Head.call head_416_built raw_2x2 = Some out
    ∧ box_at out 0 0
      = Some ([(INR 0 + 1 / 2) / INR 2; (INR 0 + 1 / 2) / INR 2;
               10 * (1 / 416); 13 * (1 / 416)] ++ replicate 81 (1 / 2)).
Proof.
  destruct (head_zero_logits head_416 1 2 2 85 raw_2x2)
    as (h' & out & Hb & Hcall & Hall);
    [reflexivity|apply raw_2x2_shape|lia..|].
  rewrite build_head_416 in Hb. injection Hb as <-.
  exists out. split; [done|].
  apply (Hall 0%nat 0%nat 0%nat (replicate 255 0) 0%nat (10, 13));
    [reflexivity|lia|reflexivity|reflexivity].
Defined.

(** ** A head called on a grid other than the one it was built for *)

Lemma bcast_mismatch {A B C} (f : A → B → option C) xs ys :
  length xs ≠ length ys → (2 ≤ length xs)%nat → (2 ≤ length ys)%nat →
  bcast f xs ys = None.
Proof.
  intros Hne Hx Hy. unfold bcast. rewrite decide_False by done.
  destruct xs as [|? [|? ?]], ys as [|? [|? ?]]; simpl in *; lia || done.
Qed.

Lemma bcast_head_None {A B C} (f : A → B → option C) x xs y ys :
  length xs = length ys → f x y = None → bcast f (x :: xs) (y :: ys) = None.
Proof.
  intros Hl Hf. rewrite bcast_eq_length by (simpl; lia).
  cbn [zip zip_with mapM fst snd]. by rewrite Hf.
Qed.

Lemma add_grid_mismatch B' H' W' C H W f x :
  has_shape4 B' H' W' C x → (1 ≤ B')%nat →
  (2 ≤ H)%nat → (2 ≤ W)%nat → (2 ≤ H')%nat → (2 ≤ W')%nat →
  (H', W') ≠ (H, W) →
  add_grid (map_cells4 f x) (grid_table H W) = None.
Proof.
  intros [HB Hx] ? ? ? ? ? Hne.
  destruct x as [|img x]; simpl in HB; [lia|].
  apply Forall_cons in Hx as [[Himg Hrows] _].
  unfold add_grid, map_cells4. rewrite fmap_cons. cbn [mapM].
  match goal with
  | |- (?m ≫= _) = None => assert (m = None) as ->; [|done]
  end.
  destruct (grid_table_rows H W) as [Hgl Hgr].
  destruct (decide (H' = H)) as [->|HH].
  - assert (W' ≠ W) by congruence.
    destruct img as [|row img]; simpl in Himg; [lia|].
    destruct (grid_table H W) as [|grow grid]; simpl in Hgl; [lia|].
    apply Forall_cons in Hrows as [[Hrow _] _].
    apply Forall_cons in Hgr as [Hgrow _].
    rewrite fmap_cons. apply bcast_head_None.
    + rewrite length_fmap. lia.
    + apply bcast_mismatch; rewrite ?length_fmap; lia.
  - apply bcast_mismatch; rewrite ?length_fmap; lia.
Qed.

Lemma tf_split4_lookup t spec parts k p :
  tf_split4 t spec = Some parts → parts !! k = Some p →
  ∃ f, p = map_cells4 f t.
Proof.
  unfold tf_split4. intros Hs Hk.
  destruct (split_sizes spec (channels4 t)) as [sizes|]; [|done].
  cbn [mbind option_bind] in Hs. simplify_eq.
  rewrite list_lookup_imap in Hk.
  destruct (sizes !! k); [|done]. simplify_eq/=. eauto.
Qed.

(** X9: a head keeps the geometry of the grid it was built for: called
    on a feature map with another grid (all grid dimensions being at least
    2) it fails, the stored coordinate table not broadcasting against the
    input. *)
Theorem head_rejects_other_grid (h0 h : YOLOv3Head.t) B0 H W F B' H' W' C
    (x : tensor4) :
  build h0 [B0; H; W; F] = Some h →
  has_shape4 B' H' W' C x → (1 ≤ B')%nat →
  (2 ≤ H)%nat → (2 ≤ W)%nat → (2 ≤ H')%nat → (2 ≤ W')%nat →
  (H', W') ≠ (H, W) →
  YOLOv3Head.call h x = None ∧ YOLOv3Head.apply h (T4 x) = None.
Proof.
  intros Hb Hx HB HH HW HH' HW' Hne.
  rewrite build_geometry_of in Hb by lia. injection Hb as <-.
  assert (YOLOv3Head.call (set_geometry h0 (geometry_of H W F)) x = None) as Hcall.
  2:{ split; [done|]. unfold YOLOv3Head.apply.
      cbn [built set_geometry mbind option_bind]. by rewrite Hcall. }
  unfold YOLOv3Head.call, call_with.
  destruct (tf_split4 x (Num 3)) as [raw_split|]; [|done]. cbn [mbind option_bind].
  destruct (tf_split4 (map_elems4 sigmoid x) (Num 3)) as [sig_split|] eqn:Hsig;
    [|done].
  cbn [mbind option_bind built set_geometry].
  match goal with
  | |- (?m ≫= _) = None => assert (m = None) as ->; [|done]
  end.
  cbn [seq mapM].
  match goal with
  | |- (?m ≫= _) = None => assert (m = None) as ->; [|done]
  end.
  unfold decode_anchor.
  destruct (sig_split !! 0%nat) as [sig_i|] eqn:Hi; [|done].
  cbn [mbind option_bind].
  destruct (tf_split4 sig_i _) as [sig_parts|] eqn:Hparts; [|done].
  cbn [mbind option_bind].
  destruct (raw_split !! 0%nat) as [raw_i|]; [|done]. cbn [mbind option_bind].
  destruct (tf_split4 raw_i _) as [raw_parts|]; [|done]. cbn [mbind option_bind].
  destruct sig_parts as [|xy [|? [|oc [|]]]]; try done.
  destruct raw_parts as [|? [|wh [|? [|]]]]; try done.
  destruct (tf_split4_lookup _ _ _ _ _ Hsig Hi) as [f1 ->].
  destruct (tf_split4_lookup _ _ _ 0%nat xy Hparts eq_refl) as [f2 ->].
  rewrite scale_xy_fn. unfold mul_pair, map_elems4.
  rewrite !map_cells4_compose.
  cbn [_grid_coord _inver_grid_wh geometry_of].
  by rewrite (add_grid_mismatch B' H' W' C H W _ x).
Qed.

Lemma head_rejects_other_grid_witness :
  YOLOv3Head.apply head_416_built (T4 raw_3x3) = None.
Proof.
  apply (head_rejects_other_grid head_416 head_416_built 1 2 2 255 1 3 3 255 raw_3x3);
    [apply (build_geometry_of head_416 1 2 2 255); lia
    |split; [done|repeat constructor]|lia..|].
  by intros [= ? ?].
Defined.

(** ** What a head reads of its configuration *)

Lemma decode_anchor_same_fields forced h1 h2 g raw_split sig_split i :
  _scale_x_y h1 = _scale_x_y h2 →
  _inver_image_wh h1 = _inver_image_wh h2 →
  _anchors h1 !! i = _anchors h2 !! i →
  decode_anchor forced h1 g raw_split sig_split i
  = decode_anchor forced h2 g raw_split sig_split i.
Proof. intros Hs Hi Ha. unfold decode_anchor. by rewrite Hs, Hi, Ha. Qed.

(** X10: [call] reads the first three anchors only: two heads that
    agree on them, on the scale, on the inverse image size and on the
    geometry return the same result on every input. *)
Theorem head_reads_three_anchors (h1 h2 : YOLOv3Head.t) (x : tensor4) :
  take 3 (_anchors h1) = take 3 (_anchors h2) →
  _scale_x_y h1 = _scale_x_y h2 →
  _inver_image_wh h1 = _inver_image_wh h2 →
  built h1 = built h2 →
  YOLOv3Head.call h1 x = YOLOv3Head.call h2 x.
Proof.
  intros Ha Hs Hi Hb. unfold YOLOv3Head.call, call_with. rewrite Hb.
  destruct (tf_split4 x (Num 3)) as [raw_split|]; [|done]. cbn [mbind option_bind].
  destruct (tf_split4 _ (Num 3)) as [sig_split|]; [|done]. cbn [mbind option_bind].
  destruct (built h2) as [g|]; [|done]. cbn [mbind option_bind seq mapM].
  assert (∀ i, (i < 3)%nat → _anchors h1 !! i = _anchors h2 !! i) as Hlook.
  { intros i Hlt. rewrite <- (lookup_take_lt (_anchors h1) 3 i) by done.
    rewrite Ha. by apply lookup_take_lt. }
  by rewrite !(decode_anchor_same_fields false h1 h2) by (done || apply Hlook; lia).
Qed.

Lemma head_reads_three_anchors_witness :
  YOLOv3Head.call (set_geometry head_mask4 (geometry_of 2 2 255)) raw_2x2
  = YOLOv3Head.call head_416_built raw_2x2.
Proof.
  apply (head_reads_three_anchors
           (set_geometry head_mask4 (geometry_of 2 2 255)) head_416_built raw_2x2);
    reflexivity.
Defined.

(** ** Route with groups: when the split succeeds *)

Lemma tf_split4_num_None B H W C x (n : Z) :
  has_shape4 B H W C x → (1 ≤ B)%nat → (1 ≤ H)%nat → (1 ≤ W)%nat →
  ¬ ((0 < n)%Z ∧ (C `mod` Z.to_nat n = 0)%nat) →
  tf_split4 x (Num n) = None.
Proof.
  intros Hx ? ? ? Hn. unfold tf_split4, channels4.
  rewrite (shape4_has_shape B H W C) by done. cbn [snd]. unfold split_sizes.
  destruct (decide (0 < n)%Z); [|done].
  destruct (decide (C `mod` Z.to_nat n = 0)%nat); [tauto|done].
Qed.

(** X11: on a feature map with [C] channels, [_split_and_get groups
    group_id] succeeds exactly when [groups] is positive and divides [C] and
    [-groups <= group_id < groups]; it then returns the channel slice of
    group [group_id mod groups], a negative [group_id] counting from the
    last group. *)
Theorem split_and_get_succeeds_iff B H W C (x : tensor4) (groups group_id : Z) :
  has_shape4 B H W C x → (1 ≤ B)%nat → (1 ≤ H)%nat → (1 ≤ W)%nat →
  (is_Some (_split_and_get groups group_id (T4 x))
   ↔ (0 < groups)%Z ∧ (C `mod` Z.to_nat groups = 0)%nat
     ∧ (- groups ≤ group_id < groups)%Z)
  ∧ ((0 < groups)%Z → (C `mod` Z.to_nat groups = 0)%nat →
     (- groups ≤ group_id < groups)%Z →
     let s := (C `div` Z.to_nat groups)%nat in
     let k := Z.to_nat (group_id `mod` groups) in
     _split_and_get groups group_id (T4 x)
     = Some (T4 (map_cells4 (py_slice (k * s) ((k + 1) * s)) x))).
Proof.
  intros Hx HB HH HW.
  destruct (decide ((0 < groups)%Z ∧ (C `mod` Z.to_nat groups = 0)%nat))
    as [[Hg HC]|Hbad].
  2:{ unfold _split_and_get, tf_split.
      rewrite (tf_split4_num_None B H W C) by done.
      cbn [fmap option_fmap option_map mbind option_bind].
      split; [|tauto]. split; [by intros [? ?]|tauto]. }
  set (g := Z.to_nat groups). set (s := (C `div` g)%nat).
  assert (C = g * s)%nat as HCs.
  { unfold s. rewrite (Nat.div_mod_eq C g) at 1. fold g in HC. lia. }
  assert (groups = Z.of_nat g) as Hgg by (unfold g; lia).
  assert (1 ≤ g)%nat as Hg1 by (unfold g; lia).
  assert (_split_and_get groups group_id (T4 x)
          = py_index ((λ k, T4 (map_cells4 (py_slice (k * s) ((k + 1) * s)) x))
                        <$> seq 0 g) group_id) as Heq.
  { unfold _split_and_get, tf_split. rewrite Hgg.
    rewrite (tf_split4_even B H W g s) by (done || by rewrite <- HCs).
    cbn [fmap option_fmap option_map mbind option_bind].
    by rewrite <- list_fmap_compose. }
  rewrite Heq. split.
  - rewrite py_index_is_Some, length_fmap, length_seq. split.
    + intros ?. repeat split; done || lia.
    + intros (_ & _ & ?). lia.
  - intros _ _ Hid. cbv zeta. fold g. fold s.
    rewrite py_index_mod by (rewrite length_fmap, length_seq; lia).
    rewrite length_fmap, length_seq, <- Hgg.
    rewrite list_lookup_fmap, lookup_seq_lt; [done|].
    pose proof (Z.mod_pos_bound group_id groups Hg). lia.
Qed.

Lemma split_and_get_succeeds_iff_witness :
  _split_and_get 2 (-1) (T4 feature_4) = Some (T4 [[[[3; 4]]]])
  ∧ ¬ is_Some (_split_and_get 2 2 (T4 feature_4))
  ∧ ¬ is_Some (_split_and_get 3 0 (T4 feature_4)).
Proof.
  assert (has_shape4 1 1 1 4 feature_4) as Hs
    by (split; [done|repeat constructor]).
  split; [|split].
  - destruct (split_and_get_succeeds_iff 1 1 1 4 feature_4 2 (-1) Hs)
      as [_ Hget]; [lia..|].
    rewrite Hget; [done|lia|done|lia].
  - destruct (split_and_get_succeeds_iff 1 1 1 4 feature_4 2 2 Hs)
      as [Hiff _]; [lia..|].
    rewrite Hiff. lia.
  - destruct (split_and_get_succeeds_iff 1 1 1 4 feature_4 3 0 Hs)
      as [Hiff _]; [lia..|].
    rewrite Hiff. intros (_ & Hm & _). by vm_compute in Hm.
Defined.

(** ** The layers that [__init__] builds *)

Lemma not_layer_type ty :
  ty ≠ "convolutional" → ty ≠ "route" → ty ≠ "shortcut" → ty ≠ "maxpool" →
  ty ≠ "upsample" → ty ≠ "yolo" → ty ∉ layer_types.
Proof.
  intros ? ? ? ? ? ? Hin. unfold layer_types in Hin.
  repeat (apply elem_of_cons in Hin as [?|Hin]; [done|]).
  by apply elem_of_nil in Hin.
Qed.

Lemma init_step_spec config layers _l2 name lo acc' :
  init_step config (layers, _l2) (name, lo) = Some acc' →
  ∃ new,
    acc'.1 = layers ++ new
    ∧ layer_type <$> new
      = (if decide (opt_type lo ∈ layer_types) then [opt_type lo] else [])
    ∧ (∀ a, Conv2D a ∈ new → conv_kernel_regularizer a = _l2)
    ∧ (∀ h, Head h ∈ new → YOLOv3Head.__init__ config name = Some h)
    ∧ (if decide (opt_type lo = "net")
       then ∃ net, config_get config "net" = Some net
                   ∧ acc'.2 = Some (opt_decay net)
       else acc'.2 = _l2).
Proof.
  unfold init_step. intros Hs.
  destruct (decide (opt_type lo = "convolutional")) as [Hty|N1].
  { simplify_eq. eexists [_]. rewrite Hty. cbn.
    repeat split; try done.
    - intros a Ha. apply list_elem_of_singleton in Ha. by simplify_eq.
    - intros h Hh. apply list_elem_of_singleton in Hh. done. }
  destruct (decide (opt_type lo = "route")) as [Hty|N2].
  { rewrite Hty. cbn [decide].
    assert (∀ l, layer_type l = "route" → (∀ a, l ≠ Conv2D a) → (∀ h, l ≠ Head h) →
              Some (layers ++ [l], _l2) = Some acc' →
              ∃ new, acc'.1 = layers ++ new
                ∧ layer_type <$> new = [ "route" ]
                ∧ (∀ a, Conv2D a ∈ new → conv_kernel_regularizer a = _l2)
                ∧ (∀ h, Head h ∈ new → YOLOv3Head.__init__ config name = Some h)
                ∧ acc'.2 = _l2) as Hgen.
    { intros l Hl Hc Hh Heq. simplify_eq. exists [l]. cbn. rewrite Hl.
      repeat split; try done.
      - intros a Ha. apply list_elem_of_singleton in Ha. by destruct (Hc a).
      - intros h Ha. apply list_elem_of_singleton in Ha. by destruct (Hh h). }
    destruct (opt_groups lo); [|case_decide]; refine (Hgen _ _ _ _ Hs); done. }
  destruct (decide (opt_type lo = "shortcut")) as [Hty|N3].
  { simplify_eq. eexists [_]. rewrite Hty. cbn.
    repeat split; try done.
    - intros a Ha. apply list_elem_of_singleton in Ha. done.
    - intros h Hh. apply list_elem_of_singleton in Hh. done. }
  destruct (decide (opt_type lo = "maxpool")) as [Hty|N4].
  { simplify_eq. eexists [_]. rewrite Hty. cbn.
    repeat split; try done.
    - intros a Ha. apply list_elem_of_singleton in Ha. done.
    - intros h Hh. apply list_elem_of_singleton in Hh. done. }
  destruct (decide (opt_type lo = "upsample")) as [Hty|N5].
  { simplify_eq. eexists [_]. rewrite Hty. cbn.
    repeat split; try done.
    - intros a Ha. apply list_elem_of_singleton in Ha. done.
    - intros h Hh. apply list_elem_of_singleton in Hh. done. }
  destruct (decide (opt_type lo = "yolo")) as [Hty|N6].
  { destruct (YOLOv3Head.__init__ config name) as [h|] eqn:Hh; [|done].
    cbn [mbind option_bind] in Hs. simplify_eq. eexists [_]. rewrite Hty. cbn.
    repeat split; try done.
    - intros a Ha. apply list_elem_of_singleton in Ha. done.
    - intros h' Hh'. apply list_elem_of_singleton in Hh'. by simplify_eq. }
  rewrite (decide_False (P := opt_type lo ∈ layer_types))
    by by apply not_layer_type.
  destruct (decide (opt_type lo = "net")) as [Hty|N7].
  - destruct (config_get config "net") as [net|]; [|done].
    cbn [mbind option_bind] in Hs. simplify_eq. exists []. cbn.
    rewrite app_nil_r. repeat split; try done; [by intros ? ?%elem_of_nil..|].
    eauto.
  - simplify_eq. exists []. cbn. rewrite app_nil_r.
    repeat split; try done; by intros ? ?%elem_of_nil.
Qed.

Lemma init_loop_app config items1 items2 acc :
  init_loop config (items1 ++ items2) acc
  = init_loop config items1 acc ≫= init_loop config items2.
Proof.
  revert acc. induction items1 as [|item items1 IH]; intros acc; [done|].
  cbn [app init_loop]. destruct (init_step config acc item); [|done].
  cbn [mbind option_bind]. apply IH.
Qed.

Lemma init_loop_spec config items layers _l2 acc' :
  init_loop config items (layers, _l2) = Some acc' →
  ∃ new,
    acc'.1 = layers ++ new
    ∧ layer_type <$> new = (λ p, opt_type p.2) <$> layer_entries items
    ∧ (∀ h, Head h ∈ new →
         ∃ name lo, (name, lo) ∈ items ∧ opt_type lo = "yolo"
                    ∧ YOLOv3Head.__init__ config name = Some h)
    ∧ (Forall (λ p, opt_type p.2 ≠ "net") items →
       acc'.2 = _l2 ∧ ∀ a, Conv2D a ∈ new → conv_kernel_regularizer a = _l2)
    ∧ (∀ net, config_get config "net" = Some net → _l2 = Some (opt_decay net) →
       acc'.2 = _l2 ∧ ∀ a, Conv2D a ∈ new → conv_kernel_regularizer a = _l2)
    ∧ (Exists (λ p, opt_type p.2 = "net") items →
       ∃ net, config_get config "net" = Some net ∧ acc'.2 = Some (opt_decay net)).
Proof.
  revert layers _l2. induction items as [|[name lo] items IH]; intros layers _l2 Hl.
  { cbn in Hl. simplify_eq. exists []. cbn. rewrite app_nil_r.
    repeat split; try done; try by intros ? ?%elem_of_nil.
    by intros ?%Exists_nil. }
  cbn [init_loop] in Hl.
  destruct (init_step config (layers, _l2) (name, lo)) as [[layers1 l21]|] eqn:Hs;
    [|done].
  cbn [mbind option_bind] in Hl.
  destruct (init_step_spec _ _ _ _ _ _ Hs) as (new1 & Hn1 & Ht1 & Hc1 & Hh1 & Hl1).
  destruct (IH _ _ Hl) as (new2 & Hn2 & Ht2 & Hh2 & Hno2 & Hnet2 & Hex2).
  cbn [fst snd] in *. subst layers1.
  exists (new1 ++ new2). split; [by rewrite Hn2, app_assoc|].
  split.
  { rewrite fmap_app, Ht1, Ht2. unfold layer_entries. rewrite filter_cons.
    cbn [snd]. by destruct (decide (opt_type lo ∈ layer_types)). }
  split.
  { intros h [Hh|Hh]%elem_of_app.
    - exists name, lo. split; [by left|]. split; [|by apply Hh1].
      destruct (decide (opt_type lo ∈ layer_types)) as [Hin|Hin].
      + apply (list_elem_of_fmap_2 layer_type) in Hh. rewrite Ht1 in Hh.
        apply list_elem_of_singleton in Hh. done.
      + apply (list_elem_of_fmap_2 layer_type) in Hh. rewrite Ht1 in Hh.
        by apply elem_of_nil in Hh.
    - destruct (Hh2 h Hh) as (n' & lo' & ? & ? & ?).
      exists n', lo'. split; [by right|done]. }
  split.
  { intros [Hlo Hitems]%Forall_cons. cbn [snd] in Hlo.
    rewrite decide_False in Hl1 by done. subst l21.
    destruct (Hno2 Hitems) as [-> Hc2]. split; [done|].
    intros a [Ha|Ha]%elem_of_app; auto. }
  split.
  { intros net Hnet Hl2.
    assert (l21 = _l2) as ->.
    { destruct (decide (opt_type lo = "net")); [|done].
      destruct Hl1 as (net' & Hnet' & ->). congruence. }
    destruct (Hnet2 net Hnet Hl2) as [-> Hc2]. split; [done|].
    intros a [Ha|Ha]%elem_of_app; auto. }
  intros [Hlo|Hitems]%Exists_cons.
  - cbn [snd] in Hlo. rewrite decide_True in Hl1 by done.
    destruct Hl1 as (net & Hnet & ->). exists net. split; [done|].
    by destruct (Hnet2 net Hnet eq_refl) as [-> _].
  - by apply Hex2.
Qed.

Lemma head_init_unbuilt config name h :
  YOLOv3Head.__init__ config name = Some h → built h = None.
Proof.
  unfold YOLOv3Head.__init__. intros Hinit.
  repeat (match type of Hinit with
          | (?m ≫= _) = Some _ =>
              destruct m; [|done]; cbn [mbind option_bind] in Hinit
          end).
  by simplify_eq.
Qed.

Lemma init_step_layer_for config layers _l2 name lo acc' :
  init_step config (layers, _l2) (name, lo) = Some acc' →
  ∃ new, acc'.1 = layers ++ new
         ∧ Forall2 (layer_for config) (layer_entries [(name, lo)]) new.
Proof.
  unfold init_step, layer_entries. rewrite filter_cons, filter_nil. cbn [snd].
  intros Hs.
  destruct (decide (opt_type lo = "convolutional")) as [Hty|N1].
  { simplify_eq. eexists [_]. split; [done|]. rewrite Hty. cbn.
    repeat constructor. by rewrite Hty. }
  destruct (decide (opt_type lo = "route")) as [Hty|N2].
  { destruct (opt_groups lo) eqn:Hg; [|case_decide]; simplify_eq;
      eexists [_]; (split; [done|]); rewrite Hty; cbn;
      (constructor; [|constructor]); cbn; by rewrite ?Hty, ?Hg. }
  destruct (decide (opt_type lo = "shortcut")) as [Hty|N3].
  { simplify_eq. eexists [_]. split; [done|]. rewrite Hty. cbn.
    repeat constructor. by rewrite Hty. }
  destruct (decide (opt_type lo = "maxpool")) as [Hty|N4].
  { simplify_eq. eexists [_]. split; [done|]. rewrite Hty. cbn.
    repeat constructor. by rewrite Hty. }
  destruct (decide (opt_type lo = "upsample")) as [Hty|N5].
  { simplify_eq. eexists [_]. split; [done|]. rewrite Hty. cbn.
    repeat constructor. by rewrite Hty. }
  destruct (decide (opt_type lo = "yolo")) as [Hty|N6].
  { destruct (YOLOv3Head.__init__ config name) as [h|] eqn:Hh; [|done].
    cbn [mbind option_bind] in Hs. simplify_eq. eexists [_]. split; [done|].
    rewrite Hty. cbn. repeat constructor; [by rewrite Hty| |done].
    by eapply head_init_unbuilt. }
  rewrite (decide_False (P := opt_type lo ∈ layer_types))
    by by apply not_layer_type.
  destruct (decide (opt_type lo = "net")) as [Hty|N7].
  - destruct (config_get config "net") as [net|]; [|done].
    cbn [mbind option_bind] in Hs. simplify_eq. exists [].
    split; [by rewrite app_nil_r|constructor].
  - simplify_eq. exists []. split; [by rewrite app_nil_r|constructor].
Qed.

Lemma init_loop_layer_for config items layers _l2 acc' :
  init_loop config items (layers, _l2) = Some acc' →
  ∃ new, acc'.1 = layers ++ new
         ∧ Forall2 (layer_for config) (layer_entries items) new.
Proof.
  revert layers _l2. induction items as [|[name lo] items IH]; intros layers _l2 Hl.
  { cbn in Hl. simplify_eq. exists []. split; [by rewrite app_nil_r|constructor]. }
  cbn [init_loop] in Hl.
  destruct (init_step config (layers, _l2) (name, lo)) as [[layers1 l21]|] eqn:Hs;
    [|done].
  cbn [mbind option_bind] in Hl.
  destruct (init_step_layer_for _ _ _ _ _ _ Hs) as (new1 & Hn1 & Hf1).
  destruct (IH _ _ Hl) as (new2 & Hn2 & Hf2).
  cbn [fst] in Hn1. subst layers1.
  exists (new1 ++ new2). split; [by rewrite Hn2, app_assoc|].
  change ((name, lo) :: items) with ([(name, lo)] ++ items).
  unfold layer_entries in *. rewrite filter_app. by apply Forall2_app.
Qed.

(** X12: [YOLOv4Model.__init__] builds one layer per entry of the six
    layer types, in the order of the configuration and each from its own
    entry; entries of any other type build nothing. An entry whose [count]
    is its rank among the entries of those types finds its own layer at
    [_model_layers[count]]. *)
Theorem model_init_layers (config : YOLOConfig) (m : YOLOv4Model.t) :
  YOLOv4Model.__init__ config = Some m →
  _model_config m = config
  ∧ Forall2 (layer_for config) (layer_entries config) (_model_layers m)
  ∧ length (_model_layers m) = length (layer_entries config)
  ∧ ∀ i name lo,
      layer_entries config !! i = Some (name, lo) →
      opt_count lo = Z.of_nat i →
      ∃ l, py_index (_model_layers m) (opt_count lo) = Some l
           ∧ layer_for config (name, lo) l.
Proof.
  unfold YOLOv4Model.__init__. intros Hm.
  destruct (init_loop config config ([], None)) as [acc|] eqn:Hl; [|done].
  cbn [mbind option_bind] in Hm. simplify_eq. cbn [_model_config _model_layers].
  destruct (init_loop_layer_for _ _ _ _ _ Hl) as (new & Hn & Hf).
  rewrite Hn. cbn [app]. split; [done|]. split; [done|].
  split; [symmetry; by eapply Forall2_length|].
  intros i name lo Hi Hc.
  destruct (Forall2_lookup_l _ _ _ _ _ Hf Hi) as (l & Hl' & Hfor).
  exists l. by rewrite Hc, py_index_nonneg.
Qed.

Lemma model_init_layers_witness :
  ∃ m h, YOLOv4Model.__init__ config_unknown = Some m
         ∧ length (_model_layers m) = 2%nat
         ∧ py_index (_model_layers m) 2 = None
         ∧ _model_layers m !! 1%nat = Some (Head h).
Proof.
  destruct (YOLOv4Model.__init__ config_unknown) as [m|] eqn:Hm;
    [|by vm_compute in Hm].
  destruct (model_init_layers config_unknown m Hm) as (_ & Hf & Hlen & _).
  change (layer_entries config_unknown)
    with [("conv_0", conv_option 0);
          ("yolo_2", yolo_option 2 anchors_416 [0; 1; 2]%Z 1)] in Hf, Hlen.
  destruct (_model_layers m) as [|l0 [|l1 [|? ?]]] eqn:HL; try discriminate.
  apply Forall2_cons in Hf as [_ Hf]. apply Forall2_cons in Hf as [H1 _].
  destruct l1 as [| | | | | | |h]; try by destruct H1.
  exists m, h. rewrite HL. by repeat split.
Defined.

(** X13: the regulariser of a convolution depends on where the entry
    of type ["net"] stands: the convolutions listed before it are built
    without regulariser, those listed after it with the L2 decay of
    [config["net"]]. *)
Theorem model_init_regulariser (pre post : YOLOConfig) (name : string)
    (lo : layer_option) (m : YOLOv4Model.t) :
  opt_type lo = "net" →
  Forall (λ p, opt_type p.2 ≠ "net") pre →
  YOLOv4Model.__init__ (pre ++ (name, lo) :: post) = Some m →
  ∃ net L1 L2,
    config_get (pre ++ (name, lo) :: post) "net" = Some net
    ∧ _model_layers m = L1 ++ L2
    ∧ layer_type <$> L1 = (λ p, opt_type p.2) <$> layer_entries pre
    ∧ layer_type <$> L2 = (λ p, opt_type p.2) <$> layer_entries post
    ∧ (∀ a, Conv2D a ∈ L1 → conv_kernel_regularizer a = None)
    ∧ (∀ a, Conv2D a ∈ L2 → conv_kernel_regularizer a = Some (opt_decay net)).
Proof.
  intros Hty Hpre. set (config := pre ++ (name, lo) :: post).
  unfold YOLOv4Model.__init__. intros Hm.
  destruct (init_loop config config ([], None)) as [acc|] eqn:Hl; [|done].
  cbn [mbind option_bind] in Hm. simplify_eq. cbn [_model_layers].
  unfold config at 2 in Hl. rewrite init_loop_app in Hl.
  destruct (init_loop config pre ([], None)) as [[layers1 l1]|] eqn:Hl1; [|done].
  cbn [mbind option_bind init_loop] in Hl.
  destruct (init_step config (layers1, l1) (name, lo)) as [[layers2 l2]|] eqn:Hs;
    [|done].
  cbn [mbind option_bind] in Hl.
  destruct (init_loop_spec _ _ _ _ _ Hl1) as (new1 & Hn1 & Ht1 & _ & Hno1 & _).
  destruct (Hno1 Hpre) as [Hl1None Hc1]. cbn [fst snd] in *. subst layers1 l1.
  destruct (init_step_spec _ _ _ _ _ _ Hs) as (new2 & Hn2 & Ht2 & _ & _ & Hnet).
  cbn [fst snd] in *. rewrite Hty in Ht2, Hnet. cbn in Ht2.
  apply fmap_nil_inv in Ht2. subst new2. rewrite app_nil_r in Hn2. subst layers2.
  rewrite decide_True in Hnet by done. destruct Hnet as (net & Hnet & ->).
  destruct (init_loop_spec _ _ _ _ _ Hl) as (new3 & Hn3 & Ht3 & _ & _ & Hc3 & _).
  destruct (Hc3 net Hnet eq_refl) as [_ Hc3'].
  exists net, new1, new3. by rewrite Hn3.
Qed.

Lemma model_init_regulariser_witness :
  ∃ m, YOLOv4Model.__init__ config_net_second = Some m
    ∧ ∃ a b, _model_layers m = [Conv2D a; Conv2D b]
             ∧ conv_kernel_regularizer a = None
             ∧ conv_kernel_regularizer b = Some 0.0005.
Proof.
  destruct (YOLOv4Model.__init__ config_net_second) as [m|] eqn:Hm;
    [|by vm_compute in Hm].
  exists m. split; [done|].
  destruct (model_init_regulariser [("conv_0", conv_option 0)]
              [("conv_1", conv_option 1)] "net" (net_option 416 416) m)
    as (net & L1 & L2 & Hnet & HL & Ht1 & Ht2 & Hc1 & Hc2);
    [reflexivity|by repeat constructor|exact Hm|].
  injection Hnet as <-.
  destruct L1 as [|[a| | | | | | |] [|? ?]]; try discriminate.
  destruct L2 as [|[b| | | | | | |] [|? ?]]; try discriminate.
  exists a, b. split; [done|].
  split; [apply Hc1; by left|apply Hc2; by left].
Defined.

Lemma init_step_None config acc name lo :
  (opt_type lo = "yolo" ∧ YOLOv3Head.__init__ config name = None)
  ∨ (opt_type lo = "net" ∧ config_get config "net" = None) →
  init_step config acc (name, lo) = None.
Proof.
  unfold init_step. destruct acc as [layers _l2].
  intros [[Hty Hbad]|[Hty Hbad]]; rewrite Hty; cbn; by rewrite Hbad.
Qed.

Lemma init_loop_None config items acc :
  Exists (λ p, (opt_type p.2 = "yolo" ∧ YOLOv3Head.__init__ config p.1 = None)
               ∨ (opt_type p.2 = "net" ∧ config_get config "net" = None)) items →
  init_loop config items acc = None.
Proof.
  revert acc. induction items as [|[name lo] items IH]; intros acc.
  { by intros ?%Exists_nil. }
  rewrite Exists_cons. cbn [init_loop fst snd]. intros [Hbad|Hrest].
  - by rewrite (init_step_None config acc name lo Hbad).
  - destruct (init_step config acc (name, lo)) as [acc'|]; [|done].
    cbn [mbind option_bind]. by apply IH.
Qed.

(** X14: [YOLOv4Model.__init__] fails whenever the head of some ["yolo"]
    entry cannot be built, or an entry of type ["net"] is met while the
    configuration has no ["net"] key: a head with a bad configuration is
    refused when the model is constructed, before any tensor is seen. *)
Theorem model_init_refuses_bad_head (config : YOLOConfig) :
  (∃ name lo, (name, lo) ∈ config ∧ opt_type lo = "yolo"
              ∧ YOLOv3Head.__init__ config name = None)
  ∨ ((∃ name lo, (name, lo) ∈ config ∧ opt_type lo = "net")
     ∧ config_get config "net" = None) →
  YOLOv4Model.__init__ config = None.
Proof.
  intros Hbad. unfold YOLOv4Model.__init__.
  rewrite init_loop_None; [done|]. apply Exists_exists.
  destruct Hbad as [(name & lo & Hin & Hty & Hh)|[(name & lo & Hin & Hty) Hnet]];
    exists (name, lo); (split; [done|]); [by left|by right].
Qed.

Lemma model_init_refuses_bad_head_witness :
  YOLOv3Head.__init__ config_mask_out "yolo_1" = None
  ∧ YOLOv4Model.__init__ config_mask_out = None.
Proof.
  assert (YOLOv3Head.__init__ config_mask_out "yolo_1" = None) as Hh
    by reflexivity.
  split; [done|].
  apply (model_init_refuses_bad_head config_mask_out). left.
  exists "yolo_1", (yolo_option 1 anchors_416 [0; 1; 3]%Z 1).
  split; [|done]. unfold config_mask_out. rewrite !elem_of_cons. auto.
Defined.

(** ** The walk, step by step *)

Lemma build_built h s h' : build h s = Some h' → is_Some (built h').
Proof.
  unfold build. intros Hb. repeat case_match; simplify_eq. by eexists.
Qed.

Lemma built_from_trans l1 l2 l3 :
  built_from l1 l2 → built_from l2 l3 → built_from l1 l3.
Proof.
  intros [->|(h & s & h' & -> & Hn & Hb & ->)]; [done|].
  intros [->|(h2 & s2 & h2' & [= <-] & Hn2 & _)].
  - right. eauto 10.
  - apply build_built in Hb as [? ?]. congruence.
Qed.

Lemma Forall2_built_from_trans L1 L2 L3 :
  Forall2 built_from L1 L2 → Forall2 built_from L2 L3 → Forall2 built_from L1 L3.
Proof.
  intros H12. revert L3. induction H12; intros L3 H23; inversion H23; subst;
    constructor; eauto using built_from_trans.
Qed.

Lemma Forall2_built_from_refl L : Forall2 built_from L L.
Proof. apply Forall_Forall2_diag, Forall_forall. intros l _. by left. Qed.

Section WalkFacts.
Variable YOLOConv2D : conv_args → arg → option tensor.
Variable keras_Concatenate : string → arg → option tensor.
Variable keras_Add : string → arg → option tensor.
Variable keras_MaxPooling2D : string → Z → Z → arg → option tensor.
Variable keras_UpSampling2D : string → arg → option tensor.

Local Abbreviation apply_layer :=
  (YOLOv4Model.apply_layer YOLOConv2D keras_Concatenate keras_Add
     keras_MaxPooling2D keras_UpSampling2D).
Local Abbreviation run_layer :=
  (YOLOv4Model.run_layer YOLOConv2D keras_Concatenate keras_Add
     keras_MaxPooling2D keras_UpSampling2D).
Local Abbreviation call_step :=
  (YOLOv4Model.call_step YOLOConv2D keras_Concatenate keras_Add
     keras_MaxPooling2D keras_UpSampling2D).
Local Abbreviation call_loop :=
  (YOLOv4Model.call_loop YOLOConv2D keras_Concatenate keras_Add
     keras_MaxPooling2D keras_UpSampling2D).

Lemma step_finish_other lo st :
  opt_type lo ≠ "yolo" → step_finish lo st = Some st.
Proof. intros Hty. unfold step_finish. by rewrite decide_False. Qed.

Lemma call_step_plan x st lo :
  call_step x st lo
  = if decide (opt_count lo = (-1)%Z) then Some st
    else p ← step_plan (st_output st) (length (st_layers st)) x lo;
         st1 ← run_layer st p.1 p.2;
         step_finish lo st1.
Proof.
  unfold YOLOv4Model.call_step, step_plan.
  destruct (decide (opt_count lo = (-1)%Z)); [done|].
  destruct (py_pos _ _) as [pos|]; [|done]. cbn [mbind option_bind].
  assert (∀ a, opt_type lo ≠ "yolo" →
            run_layer st pos a = run_layer st pos a ≫= step_finish lo) as Hother.
  { intros a Hty. destruct (YOLOv4Model.run_layer _ _ _ _ _ st pos a); [|done].
    cbn [mbind option_bind]. by rewrite step_finish_other. }
  destruct (decide (opt_type lo = "route")) as [Hty|Hr].
  { assert (opt_type lo ≠ "yolo") by (rewrite Hty; discriminate).
    destruct (opt_groups lo); [|case_decide];
      repeat (match goal with
              | |- context [?m ≫= _] =>
                  lazymatch m with
                  | _ !! _ => destruct m
                  | py_index _ _ => destruct m
                  | mapM _ _ => destruct m
                  end; cbn [mbind option_bind fst snd]; try done
              end); by apply Hother. }
  destruct (decide (opt_type lo = "shortcut")) as [Hty|Hs].
  { assert (opt_type lo ≠ "yolo") by (rewrite Hty; discriminate).
    repeat (match goal with
            | |- context [?m ≫= _] =>
                lazymatch m with
                | py_index _ _ => destruct m
                | mapM _ _ => destruct m
                end; cbn [mbind option_bind fst snd]; try done
            end); by apply Hother. }
  unfold step_finish.
  destruct (decide (opt_count lo = 0%Z)); cbn [mbind option_bind fst snd]; [done|].
  destruct (py_index _ _); [|done]. done.
Qed.

Lemma step_plan_arg_sources output n x lo p :
  step_plan output n x lo = Some p →
  Forall (λ i, (- Z.of_nat (length output) ≤ i < Z.of_nat (length output))%Z)
    (arg_sources lo).
Proof.
  unfold step_plan, arg_sources. intros Hp.
  assert (∀ l srcs, mapM (py_index output) l = Some srcs →
            Forall (λ i, (- Z.of_nat (length output) ≤ i
                          < Z.of_nat (length output))%Z) l) as HmapM.
  { intros l srcs Hm. apply mapM_Some in Hm. apply Forall_forall. intros i Hi.
    apply list_elem_of_lookup in Hi as [j Hj].
    destruct (Forall2_lookup_l _ _ _ _ _ Hm Hj) as (t & _ & Ht).
    apply py_index_is_Some. by rewrite Ht. }
  destruct (py_pos n _) as [pos|]; [|done]. cbn [mbind option_bind] in Hp.
  destruct (decide (opt_type lo = "route")).
  { destruct (opt_groups lo); [|case_decide].
    - destruct (opt_layers lo) as [|i rest]; [done|].
      cbn [lookup list_lookup mbind option_bind] in Hp.
      destruct (py_index output i) eqn:Hi; [|done].
      simpl. rewrite take_0. apply Forall_singleton. apply py_index_is_Some.
      by rewrite Hi.
    - destruct (opt_layers lo) as [|i [|]]; try done.
      cbn [lookup list_lookup mbind option_bind] in Hp.
      destruct (py_index output i) eqn:Hi; [|done].
      apply Forall_singleton. apply py_index_is_Some. by rewrite Hi.
    - destruct (mapM _ (opt_layers lo)) eqn:Hm; [|done]. by eapply HmapM. }
  destruct (decide (opt_type lo = "shortcut")).
  { destruct (py_index output (opt_count lo - 1)) eqn:Hi; [|done].
    cbn [mbind option_bind] in Hp.
    destruct (mapM _ (opt_from lo)) eqn:Hm; [|done].
    constructor; [|by eapply HmapM]. apply py_index_is_Some. by rewrite Hi. }
  destruct (decide (opt_count lo = 0%Z)); [constructor|].
  destruct (py_index output (opt_count lo - 1)) eqn:Hi; [|done].
  apply Forall_singleton. apply py_index_is_Some. by rewrite Hi.
Qed.

Lemma apply_layer_built_from f a r :
  apply_layer f a = Some r → built_from f r.1.
Proof.
  destruct f; cbn [YOLOv4Model.apply_layer]; intros Hr;
    try (left;
         repeat (match type of Hr with
                 | (?m ≫= _) = Some _ =>
                     destruct m; [|done]; cbn [mbind option_bind] in Hr
                 | match ?a with _ => _ end = Some _ => destruct a; [|done]
                 end); by simplify_eq).
  destruct a as [x|]; [|done].
  destruct (YOLOv3Head.apply h x) as [[h' out]|] eqn:Ha; [|done].
  cbn [mbind option_bind] in Hr. simplify_eq. cbn [fst].
  unfold YOLOv3Head.apply in Ha. destruct x as [x4|]; [|done].
  destruct (built h) eqn:Hb.
  - cbn [mbind option_bind] in Ha. destruct (YOLOv3Head.call h x4); [|done].
    cbn [mbind option_bind] in Ha. simplify_eq. by left.
  - destruct (build h (shape_list x4)) as [hb|] eqn:Hbuild; [|done].
    cbn [mbind option_bind] in Ha. destruct (YOLOv3Head.call hb x4); [|done].
    cbn [mbind option_bind] in Ha. simplify_eq. right. eauto 10.
Qed.

(** A layer that has been called answers the same call in the same way and
    does not change any more. *)
Lemma apply_layer_stable f a r :
  apply_layer f a = Some r →
  apply_layer r.1 a = Some r
  ∧ ∀ l, built_from r.1 l → l = r.1.
Proof.
  destruct f; cbn [YOLOv4Model.apply_layer]; intros Hr;
    try (repeat (match type of Hr with
                 | (?m ≫= _) = Some _ =>
                     destruct m eqn:?; [|done]; cbn [mbind option_bind] in Hr
                 | match ?a with _ => _ end = Some _ => destruct a; [|done]
                 end); simplify_eq; cbn [fst YOLOv4Model.apply_layer];
         split; [by simplify_option_eq|];
         by intros l [->|(? & ? & ? & ? & _)]).
  destruct a as [x|]; [|done].
  destruct (YOLOv3Head.apply h x) as [[h' out]|] eqn:Ha; [|done].
  cbn [mbind option_bind] in Hr. simplify_eq. cbn [fst YOLOv4Model.apply_layer].
  unfold YOLOv3Head.apply in Ha. destruct x as [x4|]; [|done].
  assert (is_Some (built h')
          ∧ ∃ o, out = T3 o ∧ YOLOv3Head.call h' x4 = Some o)
    as [[g Hg] (o & -> & Hc)].
  { destruct (built h) eqn:Hb.
    - cbn [mbind option_bind] in Ha.
      destruct (YOLOv3Head.call h x4) eqn:Hc; [|done].
      cbn [mbind option_bind] in Ha. simplify_eq. rewrite Hb. eauto.
    - destruct (build h (shape_list x4)) as [hb|] eqn:Hbuild; [|done].
      cbn [mbind option_bind] in Ha.
      destruct (YOLOv3Head.call hb x4) eqn:Hc; [|done].
      cbn [mbind option_bind] in Ha. simplify_eq.
      split; [by eapply build_built|eauto]. }
  split.
  - unfold YOLOv3Head.apply. rewrite Hg. cbn [mbind option_bind].
    rewrite Hc. done.
  - intros l [->|(h2 & s & h2' & [= <-] & Hn & _)]; [done|]. congruence.
Qed.

Lemma run_layer_spec st pos a st' :
  run_layer st pos a = Some st' →
  ∃ f r, st_layers st !! pos = Some f ∧ apply_layer f a = Some r
         ∧ st_layers st' = <[pos := r.1]> (st_layers st)
         ∧ st_output st' = st_output st ++ [r.2]
         ∧ st_return_val st' = st_return_val st.
Proof.
  unfold YOLOv4Model.run_layer. intros Hr.
  destruct (st_layers st !! pos) as [f|] eqn:Hf; [|done].
  cbn [mbind option_bind] in Hr.
  destruct (YOLOv4Model.apply_layer _ _ _ _ _ f a) as [r|] eqn:Ha; [|done].
  cbn [mbind option_bind] in Hr. simplify_eq. exists f, r. by cbn.
Qed.

Lemma step_finish_spec lo st st' :
  step_finish lo st = Some st' →
  st_layers st' = st_layers st ∧ st_output st' = st_output st.
Proof.
  unfold step_finish. case_decide; [|by intros [= <-]].
  destruct (py_index _ _); [|done]. by intros [= <-].
Qed.

Lemma Forall2_built_from_insert L pos f l' :
  L !! pos = Some f → built_from f l' → Forall2 built_from L (<[pos := l']> L).
Proof.
  intros Hf Hb. rewrite <- (list_insert_id L pos f Hf) at 1.
  apply Forall2_insert; [apply Forall2_built_from_refl|done].
Qed.

Lemma call_step_invariant x st lo st' :
  call_step x st lo = Some st' →
  Forall2 built_from (st_layers st) (st_layers st')
  ∧ length (st_output st')
    = (length (st_output st) + length (walked [lo]))%nat
  ∧ (opt_count lo ≠ (-1)%Z →
     Forall (λ i, (- Z.of_nat (length (st_output st)) ≤ i
                   < Z.of_nat (length (st_output st)))%Z) (arg_sources lo)).
Proof.
  rewrite call_step_plan. unfold walked. rewrite filter_cons, filter_nil.
  destruct (decide (opt_count lo = (-1)%Z)) as [Hc|Hc].
  { rewrite (decide_False (P := opt_count lo ≠ (-1)%Z)) by tauto.
    intros [= <-]. split; [apply Forall2_built_from_refl|]. cbn. split; [lia|done]. }
  rewrite (decide_True (P := opt_count lo ≠ (-1)%Z)) by done.
  intros Hs.
  destruct (step_plan _ _ x lo) as [[pos a]|] eqn:Hp; [|done].
  cbn [mbind option_bind fst snd] in Hs.
  destruct (YOLOv4Model.run_layer _ _ _ _ _ st pos a) as [st1|] eqn:Hr; [|done].
  cbn [mbind option_bind] in Hs.
  destruct (run_layer_spec _ _ _ _ Hr) as (f & r & Hf & Ha & HL & Ho & _).
  destruct (step_finish_spec _ _ _ Hs) as [-> ->].
  rewrite HL, Ho. split.
  { eapply Forall2_built_from_insert; [done|]. by eapply apply_layer_built_from. }
  split; [rewrite length_app; cbn; lia|]. intros _. by eapply step_plan_arg_sources.
Qed.

Lemma call_loop_app x options1 options2 st :
  call_loop x (options1 ++ options2) st
  = call_loop x options1 st ≫= call_loop x options2.
Proof.
  revert st. induction options1 as [|lo options1 IH]; intros st; [done|].
  cbn [app YOLOv4Model.call_loop].
  destruct (YOLOv4Model.call_step _ _ _ _ _ x st lo); [|done].
  cbn [mbind option_bind]. apply IH.
Qed.

Lemma call_loop_invariant x options st st' :
  call_loop x options st = Some st' →
  Forall2 built_from (st_layers st) (st_layers st')
  ∧ length (st_output st')
    = (length (st_output st) + length (walked options))%nat.
Proof.
  revert st. induction options as [|lo options IH]; intros st Hl.
  { cbn in Hl. simplify_eq. split; [apply Forall2_built_from_refl|cbn; lia]. }
  cbn [YOLOv4Model.call_loop] in Hl.
  destruct (YOLOv4Model.call_step _ _ _ _ _ x st lo) as [st1|] eqn:Hs; [|done].
  cbn [mbind option_bind] in Hl.
  destruct (call_step_invariant _ _ _ _ Hs) as (HL1 & Ho1 & _).
  destruct (IH _ Hl) as (HL2 & Ho2).
  split; [by eapply Forall2_built_from_trans|].
  rewrite Ho2, Ho1. unfold walked. rewrite !filter_cons, filter_nil.
  destruct (decide (opt_count lo ≠ (-1)%Z)); cbn; lia.
Qed.

Lemma call_loop_reads_earlier x pre lo post st st' :
  call_loop x (pre ++ lo :: post) st = Some st' →
  opt_count lo ≠ (-1)%Z →
  let n := Z.of_nat (length (st_output st) + length (walked pre)) in
  Forall (λ i, (- n ≤ i < n)%Z) (arg_sources lo).
Proof.
  intros Hl Hc. rewrite call_loop_app in Hl.
  destruct (call_loop x pre st) as [st1|] eqn:Hpre; [|done].
  cbn [mbind option_bind YOLOv4Model.call_loop] in Hl.
  destruct (YOLOv4Model.call_step _ _ _ _ _ x st1 lo) as [st2|] eqn:Hs; [|done].
  destruct (call_loop_invariant _ _ _ _ Hpre) as (_ & Ho).
  destruct (call_step_invariant _ _ _ _ Hs) as (_ & _ & Hsrc).
  cbv zeta. rewrite <- Ho. by apply Hsrc.
Qed.

Lemma call_step_yolo_read x st lo st' :
  call_step x st lo = Some st' →
  opt_count lo ≠ (-1)%Z → opt_type lo = "yolo" →
  (- (Z.of_nat (length (st_output st)) + 1) ≤ opt_count lo
   < Z.of_nat (length (st_output st)) + 1)%Z.
Proof.
  rewrite call_step_plan. intros Hs Hc Hty. rewrite decide_False in Hs by done.
  destruct (step_plan _ _ x lo) as [[pos a]|]; [|done].
  cbn [mbind option_bind fst snd] in Hs.
  destruct (YOLOv4Model.run_layer _ _ _ _ _ st pos a) as [st1|] eqn:Hr; [|done].
  cbn [mbind option_bind] in Hs.
  destruct (run_layer_spec _ _ _ _ Hr) as (f & r & _ & _ & _ & Ho & _).
  unfold step_finish in Hs. rewrite decide_True in Hs by done.
  destruct (py_index (st_output st1) (opt_count lo)) as [out|] eqn:Hout; [|done].
  assert (is_Some (py_index (st_output st1) (opt_count lo))) as Hsome by eauto.
  apply py_index_is_Some in Hsome. rewrite Ho, length_app in Hsome.
  cbn [length] in Hsome. lia.
Qed.

Lemma call_loop_yolo_read x pre lo post st st' :
  call_loop x (pre ++ lo :: post) st = Some st' →
  opt_count lo ≠ (-1)%Z → opt_type lo = "yolo" →
  let n := Z.of_nat (length (st_output st) + length (walked pre)) in
  (- (n + 1) ≤ opt_count lo < n + 1)%Z.
Proof.
  intros Hl Hc Hty. rewrite call_loop_app in Hl.
  destruct (call_loop x pre st) as [st1|] eqn:Hpre; [|done].
  cbn [mbind option_bind YOLOv4Model.call_loop] in Hl.
  destruct (YOLOv4Model.call_step _ _ _ _ _ x st1 lo) as [st2|] eqn:Hs; [|done].
  destruct (call_loop_invariant _ _ _ _ Hpre) as (_ & Ho).
  cbv zeta. rewrite <- Ho. by eapply call_step_yolo_read.
Qed.

(** A second walk, started from the layers that the first one leaves and
    from the same outputs, repeats the first one. *)
Lemma call_loop_repeat x options st1 st1' st2 :
  call_loop x options st1 = Some st1' →
  st_layers st2 = st_layers st1' →
  st_output st2 = st_output st1 →
  st_return_val st2 = st_return_val st1 →
  call_loop x options st2 = Some st1'.
Proof.
  revert st1 st2. induction options as [|lo options IH]; intros st1 st2 Hl HL Ho Hrv.
  { cbn in Hl |- *. simplify_eq. destruct st1', st2. cbn in *. by subst. }
  cbn [YOLOv4Model.call_loop] in Hl |- *.
  destruct (YOLOv4Model.call_step _ _ _ _ _ x st1 lo) as [st1m|] eqn:Hs; [|done].
  cbn [mbind option_bind] in Hl.
  destruct (call_loop_invariant _ _ _ _ Hl) as (Hrest & _).
  assert (∃ st2m, call_step x st2 lo = Some st2m
                  ∧ st_layers st2m = st_layers st1'
                  ∧ st_output st2m = st_output st1m
                  ∧ st_return_val st2m = st_return_val st1m)
    as (st2m & -> & ? & ? & ?).
  2:{ cbn [mbind option_bind]. by eapply IH. }
  destruct (call_step_invariant _ _ _ _ Hs) as (Hfirst & _).
  assert (length (st_layers st2) = length (st_layers st1)) as Hlen.
  { rewrite HL. apply Forall2_length in Hfirst, Hrest. congruence. }
  rewrite call_step_plan in Hs |- *. rewrite Ho, Hlen.
  destruct (decide (opt_count lo = (-1)%Z)).
  { simplify_eq. by exists st2. }
  destruct (step_plan _ _ x lo) as [[pos a]|]; [|done].
  cbn [mbind option_bind fst snd] in Hs |- *.
  destruct (YOLOv4Model.run_layer _ _ _ _ _ st1 pos a) as [st1r|] eqn:Hr; [|done].
  cbn [mbind option_bind] in Hs.
  destruct (run_layer_spec _ _ _ _ Hr) as (f & r & Hf & Ha & HLr & Hor & Hrvr).
  destruct (step_finish_spec _ _ _ Hs) as [HLm Hom].
  destruct (apply_layer_stable _ _ _ Ha) as [Hagain Hfixed].
  assert (st_layers st1' !! pos = Some r.1) as Hpos.
  { assert (st_layers st1m !! pos = Some r.1) as Hm.
    { rewrite HLm, HLr. apply list_lookup_insert_eq.
      by apply lookup_lt_Some in Hf. }
    destruct (Forall2_lookup_l _ _ _ _ _ Hrest Hm) as (l & Hl' & Hb).
    by rewrite Hl', (Hfixed l Hb). }
  unfold YOLOv4Model.run_layer at 1. rewrite HL, Hpos.
  cbn [mbind option_bind]. rewrite Hagain. cbn [mbind option_bind].
  rewrite list_insert_id by done. rewrite Ho, Hrv.
  unfold step_finish in Hs |- *. cbn [st_output st_layers st_return_val].
  rewrite Hor, Hrvr in Hs.
  destruct (decide (opt_type lo = "yolo")).
  - destruct (py_index _ (opt_count lo)); [|done].
    cbn [mbind option_bind] in Hs |- *. simplify_eq. eexists. by split.
  - simplify_eq. eexists. split; [done|]. cbn. by rewrite Hor, Hrvr.
Qed.
End WalkFacts.

Lemma call_model_416 conv cat add pool up :
  ∃ out,
    YOLOv3Head.call head_416_built raw_2x2 = Some out
    ∧ call conv cat add pool up model_416 (T4 raw_2x2)
      = Some (model_416_built, [T3 out]).
Proof.
  destruct call_head_416_is_Some as [out Hout]. exists out. split; [done|].
  assert (YOLOv3Head.apply head_416 (T4 raw_2x2) = Some (head_416_built, T3 out))
    as Happ.
  { unfold YOLOv3Head.apply. cbn [built head_416]. rewrite build_head_416.
    cbn [mbind option_bind]. by rewrite Hout. }
  unfold call. cbn [_model_config _model_layers model_416 config_416 fmap list_fmap snd
                    call_loop mbind option_bind].
  rewrite call_step_plan. cbn [opt_count net_option]. rewrite decide_True by done.
  cbn [mbind option_bind]. rewrite call_step_plan.
  cbn [opt_count yolo_option]. rewrite decide_False by done.
  cbn [st_output st_layers length].
  assert (step_plan [] 1 (T4 raw_2x2) (yolo_option 0 anchors_416 [0; 1; 2]%Z 1)
          = Some (0%nat, One (T4 raw_2x2))) as -> by reflexivity.
  cbn [mbind option_bind fst snd st_layers st_output length].
  unfold run_layer. cbn [st_layers lookup list_lookup mbind option_bind apply_layer].
  rewrite Happ. cbn [mbind option_bind fst snd st_layers st_output st_return_val
                     list_insert app insert].
  unfold step_finish. rewrite decide_True by done.
  cbn [st_output opt_count yolo_option].
  assert (py_index [T3 out] 0 = Some (T3 out)) as -> by reflexivity.
  reflexivity.
Qed.

(** X15: a call keeps the configuration and the number of layers, and
    it changes a head only by building it: a head of the model is
    afterwards, at the same position, the same head or, if it had not been
    built, that head after [build]; a head that was built is kept as it
    is. Nothing is said of the layers of the tensor library. *)
Theorem model_call_keeps_heads
    (conv : conv_args → arg → option tensor)
    (cat add : string → arg → option tensor)
    (pool : string → Z → Z → arg → option tensor)
    (up : string → arg → option tensor)
    (m m' : YOLOv4Model.t) (x : tensor) (return_val : list tensor) :
  call conv cat add pool up m x = Some (m', return_val) →
  _model_config m' = _model_config m
  ∧ length (_model_layers m') = length (_model_layers m)
  ∧ ∀ i h,
      _model_layers m !! i = Some (Head h) →
      ∃ h', _model_layers m' !! i = Some (Head h')
            ∧ (h' = h
               ∨ built h = None
                 ∧ ∃ grid_shape, build h grid_shape = Some h')
            ∧ (is_Some (built h) → h' = h).
Proof.
  unfold call. intros Hc.
  destruct (call_loop _ _ _ _ _ x _ _) as [st'|] eqn:Hl; [|done].
  cbn [mbind option_bind] in Hc. simplify_eq. cbn [_model_config _model_layers].
  destruct (call_loop_invariant _ _ _ _ _ _ _ _ _ Hl) as [HL _].
  cbn [st_layers] in HL. split; [done|].
  split; [symmetry; by eapply Forall2_length|].
  intros i h Hi.
  destruct (Forall2_lookup_l _ _ _ _ _ HL Hi) as (l' & Hl' & Hb).
  destruct Hb as [->|(h0 & s & h' & [= <-] & Hn & Hb & ->)].
  - exists h. split; [done|]. split; [by left|done].
  - exists h'. split; [done|]. split; [right; eauto|].
    intros [g Hg]. congruence.
Qed.

Lemma model_call_keeps_heads_witness :
  ∃ m' return_val h',
    call (λ _, pass_one) (λ _, pass_first) (λ _, pass_first)
      (λ _ _ _, pass_one) (λ _, pass_one) model_416 (T4 raw_2x2)
    = Some (m', return_val)
    ∧ _model_layers m' !! 0%nat = Some (Head h')
    ∧ (h' = head_416
       ∨ built head_416 = None
         ∧ ∃ grid_shape, build head_416 grid_shape = Some h').
Proof.
  destruct (call_model_416 (λ _, pass_one) (λ _, pass_first) (λ _, pass_first)
              (λ _ _ _, pass_one) (λ _, pass_one)) as (out & _ & Hcall).
  destruct (model_call_keeps_heads _ _ _ _ _ _ _ _ _ Hcall) as (_ & _ & Hheads).
  destruct (Hheads 0%nat head_416 eq_refl) as (h' & Hh' & Hb & _).
  by exists model_416_built, [T3 out], h'.
Defined.

(** X16: when [call] succeeds, the argument of every layer is formed
    from outputs computed before its entry: every index of [output] read
    for it (the sources of a route or of a shortcut, [count - 1] otherwise)
    lies in [[-n, n)], [n] being the number of earlier entries with
    [count <> -1]. The one read that follows the call of the layer,
    [output[count]] of a ["yolo"] entry, is made once the output of the
    entry is appended and lies in [[-(n + 1), n + 1)]: it returns the
    output of the entry itself or an earlier one, never a later one. *)
Theorem model_call_output_reads
    (conv : conv_args → arg → option tensor)
    (cat add : string → arg → option tensor)
    (pool : string → Z → Z → arg → option tensor)
    (up : string → arg → option tensor)
    (m : YOLOv4Model.t) (x : tensor) (r : YOLOv4Model.t * list tensor)
    (pre post : YOLOConfig) (name : string) (lo : layer_option) :
  call conv cat add pool up m x = Some r →
  _model_config m = pre ++ (name, lo) :: post →
  opt_count lo ≠ (-1)%Z →
  Forall (λ i, (- Z.of_nat (length (walked (snd <$> pre))) ≤ i
                < Z.of_nat (length (walked (snd <$> pre))))%Z) (arg_sources lo)
  ∧ (opt_type lo = "yolo" →
     (- (Z.of_nat (length (walked (snd <$> pre))) + 1) ≤ opt_count lo
      < Z.of_nat (length (walked (snd <$> pre))) + 1)%Z).
Proof.
  unfold call. intros Hc Hcfg Hcount.
  destruct (call_loop _ _ _ _ _ x _ _) as [st'|] eqn:Hl; [|done].
  rewrite Hcfg, fmap_app, fmap_cons in Hl. cbn [snd] in Hl.
  split; [by apply call_loop_reads_earlier in Hl|].
  intros Hty. by apply call_loop_yolo_read in Hl.
Qed.

Lemma model_call_output_reads_witness :
  arg_sources (yolo_option 0 anchors_416 [0; 1; 2]%Z 1) = []
  ∧ (-1 ≤ opt_count (yolo_option 0 anchors_416 [0; 1; 2]%Z 1) < 1)%Z.
Proof.
  destruct (call_model_416 (λ _, pass_one) (λ _, pass_first) (λ _, pass_first)
              (λ _ _ _, pass_one) (λ _, pass_one)) as (out & _ & Hcall).
  destruct (model_call_output_reads _ _ _ _ _ model_416 (T4 raw_2x2) _
              [("net", net_option 416 416)] [] "yolo_0"
              (yolo_option 0 anchors_416 [0; 1; 2]%Z 1) Hcall)
    as [_ Hread]; [done..|].
  split; [done|]. by apply Hread.
Defined.

(** X17: calling the model again on the same input, its heads now
    built, returns the same list and leaves the model as it is (the layers
    of the tensor library being functions of their arguments). *)
Theorem model_call_repeatable
    (conv : conv_args → arg → option tensor)
    (cat add : string → arg → option tensor)
    (pool : string → Z → Z → arg → option tensor)
    (up : string → arg → option tensor)
    (m m' : YOLOv4Model.t) (x : tensor) (return_val : list tensor) :
  call conv cat add pool up m x = Some (m', return_val) →
  call conv cat add pool up m' x = Some (m', return_val).
Proof.
  unfold call. intros Hc.
  destruct (call_loop _ _ _ _ _ x _ _) as [st'|] eqn:Hl; [|done].
  cbn [mbind option_bind] in Hc. simplify_eq. cbn [_model_config _model_layers].
  by rewrite (call_loop_repeat _ _ _ _ _ x _ _ st' _ Hl).
Qed.

Lemma model_call_repeatable_witness :
  ∃ return_val,
    call (λ _, pass_one) (λ _, pass_first) (λ _, pass_first)
      (λ _ _ _, pass_one) (λ _, pass_one) model_416_built (T4 raw_2x2)
    = Some (model_416_built, return_val).
Proof.
  destruct (call_model_416 (λ _, pass_one) (λ _, pass_first) (λ _, pass_first)
              (λ _ _ _, pass_one) (λ _, pass_one)) as (out & _ & Hcall).
  exists [T3 out].
  by apply (model_call_repeatable _ _ _ _ _ model_416).
Defined.

Lemma py_pos_range n i pos :
  py_pos n i = Some pos → (- Z.of_nat n ≤ i < Z.of_nat n)%Z.
Proof. unfold py_pos. repeat case_decide; intros; simplify_eq; lia. Qed.

Lemma step_plan_count output n x lo p :
  step_plan output n x lo = Some p →
  (- Z.of_nat n ≤ opt_count lo < Z.of_nat n)%Z.
Proof.
  unfold step_plan. intros Hp.
  destruct (py_pos n (opt_count lo)) as [pos|] eqn:Hpos; [|done].
  by eapply py_pos_range.
Qed.

Section CountFacts.
Variable YOLOConv2D : conv_args → arg → option tensor.
Variable keras_Concatenate : string → arg → option tensor.
Variable keras_Add : string → arg → option tensor.
Variable keras_MaxPooling2D : string → Z → Z → arg → option tensor.
Variable keras_UpSampling2D : string → arg → option tensor.

Local Abbreviation call_loop :=
  (YOLOv4Model.call_loop YOLOConv2D keras_Concatenate keras_Add
     keras_MaxPooling2D keras_UpSampling2D).

Lemma call_loop_counts x options st st' :
  call_loop x options st = Some st' →
  Forall (λ lo, opt_count lo = (-1)%Z
                ∨ (- Z.of_nat (length (st_layers st)) ≤ opt_count lo
                   < Z.of_nat (length (st_layers st)))%Z) options.
Proof.
  revert st. induction options as [|lo options IH]; intros st Hl; [constructor|].
  cbn [YOLOv4Model.call_loop] in Hl.
  destruct (YOLOv4Model.call_step _ _ _ _ _ x st lo) as [st1|] eqn:Hs; [|done].
  cbn [mbind option_bind] in Hl.
  destruct (call_step_invariant _ _ _ _ _ _ _ _ _ Hs) as (HL & _).
  apply Forall2_length in HL. constructor.
  - rewrite call_step_plan in Hs.
    destruct (decide (opt_count lo = (-1)%Z)); [by left|]. right.
    destruct (step_plan _ _ x lo) as [p|] eqn:Hp; [|done].
    by eapply step_plan_count.
  - rewrite HL. by apply IH.
Qed.
End CountFacts.

(** X18: when a model built from a configuration is called without
    error, every entry has [count = -1] or a [count] that indexes
    [_model_layers], whose length is the number of entries of the six layer
    types. *)
Theorem model_call_counts_in_range
    (conv : conv_args → arg → option tensor)
    (cat add : string → arg → option tensor)
    (pool : string → Z → Z → arg → option tensor)
    (up : string → arg → option tensor)
    (config : YOLOConfig) (m : YOLOv4Model.t) (x : tensor)
    (r : YOLOv4Model.t * list tensor) :
  YOLOv4Model.__init__ config = Some m →
  call conv cat add pool up m x = Some r →
  Forall (λ p, opt_count p.2 = (-1)%Z
               ∨ (- Z.of_nat (length (layer_entries config)) ≤ opt_count p.2
                  < Z.of_nat (length (layer_entries config)))%Z) config.
Proof.
  unfold YOLOv4Model.__init__, call. intros Hm Hc.
  destruct (init_loop config config ([], None)) as [acc|] eqn:Hl; [|done].
  cbn [mbind option_bind] in Hm. simplify_eq.
  cbn [_model_config _model_layers] in Hc.
  destruct (init_loop_layer_for _ _ _ _ _ Hl) as (new & Hn & Hf).
  apply Forall2_length in Hf. rewrite Hf. cbn [app] in Hn. rewrite <- Hn.
  destruct (call_loop _ _ _ _ _ x _ _) as [st'|] eqn:Hloop; [|done].
  apply call_loop_counts in Hloop. cbn [st_layers] in Hloop.
  by rewrite Forall_fmap in Hloop.
Qed.

Lemma model_call_counts_in_range_witness :
  Forall (λ p, opt_count p.2 = (-1)%Z ∨ (-2 ≤ opt_count p.2 < 2)%Z)
    (config_route [0%Z]).
Proof.
  destruct (YOLOv4Model.__init__ (config_route [0%Z])) as [m|] eqn:Hm;
    [|by vm_compute in Hm].
  destruct (call (λ _, pass_one) (λ _, pass_first) (λ _, pass_first)
              (λ _ _ _, pass_one) (λ _, pass_one) m (T4 feature_4))
    as [r|] eqn:Hc.
  2:{ vm_compute in Hm. injection Hm as <-. by vm_compute in Hc. }
  exact (model_call_counts_in_range _ _ _ _ _ (config_route [0%Z]) m
           (T4 feature_4) r Hm Hc).
Defined.

(** ** The candidates of [predict] *)

Lemma take_drop_take {A} (k i N : nat) (v : list A) :
  (i + k ≤ N)%nat → take k (drop i (take N v)) = take k (drop i v).
Proof.
  intros Hle. rewrite !take_drop_commute, take_take. do 2 f_equal. lia.
Qed.

(** X19: the reshape of [predict] lists the boxes of an output of
    shape [(B, g, g, 3 * k)] cell by cell and, within a cell, anchor slot by
    anchor slot: box [(y * g + x) * 3 + a] holds the channels
    [[a * k, (a + 1) * k)] of cell [(y, x)] of the first image. *)
Theorem reshape_candidate_box_order (c : ndarray) (B g k : nat) :
  wf c → shape c = [B; g; g; 3 * k]%nat →
  (1 ≤ B)%nat → (1 ≤ g)%nat → (1 ≤ k)%nat →
  ∃ r,
    reshape_candidate c = Some r
    ∧ shape r = [1; g * g * 3; k]%nat
    ∧ length (boxes r) = (g * g * 3)%nat
    ∧ ∀ y x a, (y < g)%nat → (x < g)%nat → (a < 3)%nat →
        boxes r !! ((y * g + x) * 3 + a)%nat
        = Some (py_slice (a * k) ((a + 1) * k) (nd_cell c 0 y x)).
Proof.
  intros Hwf Hs HB Hg Hk.
  assert (is_square_output k c) as Hsq.
  { split; [done|]. exists B, g, [g; 3 * k]%nat. repeat split; try done.
    cbn. lia. }
  assert (rows c = g) as Hrows by (unfold rows; by rewrite Hs).
  eexists. split; [by apply reshape_candidate_square|]. rewrite Hrows.
  cbn [shape]. split; [done|].
  unfold boxes. cbn [shape data]. split; [apply length_take_chunks|].
  intros y x a Hy Hx Ha. unfold take_chunks.
  assert (y * g + x + 1 ≤ g * g)%nat as Hcell.
  { assert (y * g + g ≤ g * g)%nat; [|lia].
    replace (y * g + g)%nat with ((y + 1) * g)%nat by lia.
    apply Nat.mul_le_mono_r. lia. }
  assert ((y * g + x) * 3 + a + 1 ≤ g * g * 3)%nat as Hbox by lia.
  rewrite lookup_reshape_replicate by lia. f_equal.
  unfold first_data, nd_cell, py_slice. rewrite Hs. cbn [tail numel foldr].
  rewrite Nat.mul_0_l, Nat.add_0_l.
  rewrite take_drop_take.
  2:{ apply (Nat.mul_le_mono_r _ _ k) in Hbox. lia. }
  replace ((a + 1) * k - a * k)%nat with k by lia.
  rewrite take_drop_take
    by (assert ((a + 1) * k ≤ 3 * k)%nat by (apply Nat.mul_le_mono_r; lia); lia).
  rewrite drop_drop. do 2 f_equal. lia.
Qed.

Lemma reshape_candidate_box_order_witness :
  ∃ r, reshape_candidate candidate_1x1 = Some r
       ∧ boxes r !! 1%nat = Some [3; 4].
Proof.
  destruct (reshape_candidate_box_order candidate_1x1 1 1 2)
    as (r & Hr & _ & _ & Hbox); [reflexivity|reflexivity|lia..|].
  exists r. split; [done|].
  apply (Hbox 0%nat 0%nat 1%nat); lia.
Defined.

Lemma first_head_output k a :
  is_head_output k a →
  first a = Some {| shape := [rows a; k]; data := data a |}.
Proof.
  intros [Hwf Hs]. unfold first. rewrite Hs. rewrite decide_False by done.
  do 2 f_equal. apply take_ge. unfold wf in Hwf. rewrite Hwf, Hs. cbn. lia.
Qed.

(** X20: on square outputs, the concatenation of [predict] succeeds
    exactly when there is at least one output and all outputs have boxes of
    the same length [k]; [candidates[0]] is then the array of shape
    [(sum of 3 * g_i * g_i, k)] that holds all boxes in the order of the
    outputs. *)
Theorem predict_needs_equal_box_length (ks : list nat) (candidates : list ndarray) :
  Forall2 (λ k c, (1 ≤ k)%nat ∧ is_square_output k c) ks candidates →
  (is_Some (predict_candidates candidates)
   ↔ candidates ≠ [] ∧ ∃ k, Forall (λ k', k' = k) ks)
  ∧ (∀ k, candidates ≠ [] → Forall (λ k', k' = k) ks →
       predict_boxes candidates
       = Some {| shape := [sum_list ((λ c, rows c * rows c * 3)%nat <$> candidates); k];
                 data := mjoin (first_data <$> candidates) |}).
Proof.
  intros Hall.
  set (f := λ (k : nat) c, {| shape := [1; rows c * rows c * 3; k]%nat;
                              data := first_data c |}).
  assert (mapM reshape_candidate candidates = Some (zip_with f ks candidates)) as Hm.
  { apply mapM_Some. induction Hall as [|k c ks cs [Hk Hc] _ IH]; cbn; constructor;
      [by apply reshape_candidate_square|done]. }
  assert (∀ k, Forall (λ k', k' = k) ks →
            Forall (is_head_output k) (zip_with f ks candidates)
            ∧ zip_with f ks candidates = f k <$> candidates) as Hsame.
  { intros k Hks. clear Hm. induction Hall as [|k' c ks cs [Hk Hc] _ IH]; [done|].
    apply Forall_cons in Hks as [-> Hks]. destruct (IH Hks) as [IH1 IH2].
    cbn. split; [constructor; [by apply is_head_output_reshaped|done]|].
    by rewrite IH2. }
  assert (∀ k, candidates ≠ [] → Forall (λ k', k' = k) ks →
            predict_candidates candidates
            = Some {| shape := [1; sum_list ((λ c, rows c * rows c * 3)%nat
                                               <$> candidates); k]%nat;
                      data := mjoin (first_data <$> candidates) |}) as Hok.
  { intros k Hne Hks. destruct (Hsame k Hks) as [Hout Heq].
    unfold predict_candidates. rewrite Hm. cbn [mbind option_bind].
    rewrite (np_concatenate_head_outputs k) by (done || by destruct Hall).
    rewrite Heq, <- !list_fmap_compose. done. }
  split; [split|].
  - intros [r Hr]. unfold predict_candidates in Hr. rewrite Hm in Hr.
    cbn [mbind option_bind] in Hr.
    destruct Hall as [|k0 c0 ks cs [Hk0 Hc0] Hall]; [done|].
    split; [done|]. exists k0. constructor; [done|].
    cbn [zip_with] in Hr. unfold np_concatenate in Hr.
    cbn [shape f] in Hr. case_decide as Hsh; [|done].
    apply Forall_cons in Hsh as [_ Hsh]. clear Hr Hm Hsame Hok.
    induction Hall as [|k c ks cs [Hk Hc] _ IH]; [constructor|].
    cbn [zip_with] in Hsh. apply Forall_cons in Hsh as [(_ & _ & Hk') Hsh].
    cbn in Hk'. constructor; [congruence|by apply IH].
  - intros [Hne [k Hks]]. rewrite (Hok k) by done. by eexists.
  - intros k Hne Hks. unfold predict_boxes. rewrite (Hok k) by done.
    cbn [mbind option_bind].
    destruct (Hsame k Hks) as [Hout Heq].
    assert (is_head_output k
              {| shape := [1; sum_list ((λ c, rows c * rows c * 3)%nat
                                          <$> candidates); k]%nat;
                 data := mjoin (first_data <$> candidates) |}) as Hr.
    { split; [|done]. unfold wf. cbn [shape data numel foldr].
      clear Hm Hsame Hok Hout Heq Hne.
      induction Hall as [|k' c ks cs [Hk Hc] _ IH]; [done|].
      apply Forall_cons in Hks as [-> Hks]. csimpl. rewrite length_app, (IH Hks).
      destruct (is_head_output_reshaped k c Hc) as [Hwf _].
      unfold wf in Hwf. cbn [shape data numel foldr] in Hwf. rewrite Hwf. lia. }
    rewrite (first_head_output k _ Hr). done.
Qed.

Lemma predict_needs_equal_box_length_witness :
  predict_boxes [candidate_1x1; candidate_1x1]
  = Some {| shape := [6; 2]%nat;
            data := [1; 2; 3; 4; 5; 6; 1; 2; 3; 4; 5; 6] |}
  ∧ ¬ is_Some (predict_candidates [candidate_1x1; candidate_1x1_short]).
Proof.
  assert (is_square_output 2 candidate_1x1) as H2.
  { split; [reflexivity|]. exists 1%nat, 1%nat, [1; 6]%nat.
    repeat split; reflexivity || lia. }
  assert (is_square_output 1 candidate_1x1_short) as H1.
  { split; [reflexivity|]. exists 1%nat, 1%nat, [1; 3]%nat.
    repeat split; reflexivity || lia. }
  split.
  - destruct (predict_needs_equal_box_length [2; 2]%nat [candidate_1x1; candidate_1x1])
      as [_ Hb]; [repeat (constructor; [split; [lia|done]|]); constructor|].
    by rewrite (Hb 2%nat) by (done || by repeat constructor).
  - destruct (predict_needs_equal_box_length [2; 1]%nat
                [candidate_1x1; candidate_1x1_short])
      as [Hiff _]; [repeat (constructor; [split; [lia|done]|]); constructor|].
    rewrite Hiff. intros [_ [k Hk]].
    apply Forall_cons in Hk as [<- Hk]. apply Forall_cons in Hk as [? _]. lia.
Defined.

(** * The list that [call] returns and the aggregation of [predict] *)



Section ReturnedList.
Variable YOLOConv2D : conv_args → arg → option tensor.
Variable keras_Concatenate : string → arg → option tensor.
Variable keras_Add : string → arg → option tensor.
Variable keras_MaxPooling2D : string → Z → Z → arg → option tensor.
Variable keras_UpSampling2D : string → arg → option tensor.

Local Abbreviation apply_layer :=
  (YOLOv4Model.apply_layer YOLOConv2D keras_Concatenate keras_Add
     keras_MaxPooling2D keras_UpSampling2D).
Local Abbreviation run_layer :=
  (YOLOv4Model.run_layer YOLOConv2D keras_Concatenate keras_Add
     keras_MaxPooling2D keras_UpSampling2D).
Local Abbreviation call_step :=
  (YOLOv4Model.call_step YOLOConv2D keras_Concatenate keras_Add
     keras_MaxPooling2D keras_UpSampling2D).
Local Abbreviation call_loop :=
  (YOLOv4Model.call_loop YOLOConv2D keras_Concatenate keras_Add
     keras_MaxPooling2D keras_UpSampling2D).



End ReturnedList.




(** ** The aggregation of [predict] *)







